(** * The PIR workflow: a shallow embedding of the repository layer, the
      store slices, the permission predicates and status-change handler of
      [PIRDetail], and the notification trigger, with the properties of the
      specification.

    JavaScript objects (Firestore documents, the objects the repositories
    build, the entries of the zustand store) are finite maps from field names
    to values.  The asynchronous code is written in a small state-and-exception
    monad over a [World] that holds the Firestore database, the blob store,
    the console, the zustand store, the component state, and the way the
    external collaborators answer; an exception keeps the state reached when
    it is thrown, as in JavaScript.

    Modelling decisions:
    - objects are flat: a value is a string, a number, a boolean, a date, a
      timestamp, an array of strings, [null], [undefined] or a Firestore
      sentinel;
    - Firestore fails only where its contract says so (an update of a missing
      document, a field holding [undefined]); the blob store and the mail
      transport fail as the field [fault] of the world decides, so a statement
      about every world is a statement about every behaviour of theirs;
    - [addDoc] picks an id that is free in the collection;
    - server time and client time are fields of the world and do not advance
      during an operation;
    - [String.prototype.toLowerCase] belongs to the JavaScript engine and is
      a parameter of the code that calls it: a statement about that code holds
      for whatever function it is.  Where a statement relates it to letters,
      the one assumption is [folds_ascii]: on a string of ASCII characters it
      folds [A] to [Z] and changes nothing else;
    - an e-mail is represented by its recipients and its subject;
    - the [useState] cells of [PIRForm] are a record, and a call of
      [navigate] is recorded in it;
    - how the identity provider answers [updateProfile] is an argument of
      [updateUserProfile];
    - [maxItems] of [PIRList] is an integer;
    - of [getAttachmentsByIds] the loop that cuts the ids into batches is
      modelled, the queries over the batches are not. *)

From Stdlib Require Import ZArith String Ascii List.
From stdpp Require Import gmap strings stringmap list fin_maps sorting.

Local Open Scope string_scope.
Local Open Scope Z_scope.
Local Open Scope list_scope.

(** ** JavaScript values *)

(** The values that occur in the documents of this application.  The three
    last constructors are the Firestore [FieldValue] sentinels, which only
    occur in data handed to a write. *)
Inductive Value : Type :=
  | VStr (s : string)
  | VNum (n : Z)
  | VBool (b : bool)
  | VDate (ms : Z)
  | VTimestamp (ms : Z)
  | VArr (xs : list string)
  | VNull
  | VUndefined
  | VServerTimestamp
  | VArrayUnion (xs : list string)
  | VArrayRemove (xs : list string).

#[global] Instance Value_eq_dec : EqDecision Value.
Proof. solve_decision. Defined.

(** A JavaScript object.  A key may be absent, or present and hold
    [undefined]; a property read does not tell the two apart. *)
Abbreviation Obj := (gmap string Value).

(** [o.k] *)
Definition field (o : Obj) (k : string) : option Value :=
  match o !! k with
  | Some VUndefined => None
  | r => r
  end.

(** [Boolean(v)]: the truthiness of a possibly undefined value. *)
Definition truthy (v : option Value) : bool :=
  match v with
  | None => false
  | Some VNull => false
  | Some VUndefined => false
  | Some (VStr s) => negb (String.eqb s EmptyString)
  | Some (VNum n) => negb (Z.eqb n 0)
  | Some (VBool b) => b
  | Some _ => true
  end.

(** [a === b] on the results of two property reads. *)
Definition strict_eq (a b : option Value) : bool := bool_decide (a = b).

(** [a || b] where [b] is a defined value. *)
Definition or_else (a : option Value) (b : Value) : Value :=
  match a with
  | Some v => if truthy a then v else b
  | None => b
  end.

(** The value stored by [o.k = e] when [e] may be undefined. *)
Definition or_undefined (a : option Value) : Value := default VUndefined a.

(** [{...o, k: v}]: later keys win, so a spread followed by a key is an
    insertion, and [{k: v, ...o}] is the left-biased union [o ∪ {[k := v]}]. *)

(** ** Enumerations of [src/types/index.ts] *)

Inductive UserRole : Type := ADMIN | REQUESTER | RESPONDER | REVIEWER.

Definition UserRole_value (r : UserRole) : string :=
  match r with
  | ADMIN => "admin"
  | REQUESTER => "requester"
  | RESPONDER => "responder"
  | REVIEWER => "reviewer"
  end.

Inductive PIRStatus : Type :=
  DRAFT | REQUESTED | SUBMITTED | REVIEWED | ACCEPTED | REJECTED.

#[global] Instance PIRStatus_eq_dec : EqDecision PIRStatus.
Proof. solve_decision. Defined.

#[global] Instance UserRole_eq_dec : EqDecision UserRole.
Proof. solve_decision. Defined.

Definition PIRStatus_value (s : PIRStatus) : string :=
  match s with
  | DRAFT => "draft"
  | REQUESTED => "requested"
  | SUBMITTED => "submitted"
  | REVIEWED => "reviewed"
  | ACCEPTED => "accepted"
  | REJECTED => "rejected"
  end.

Definition role_val (r : UserRole) : Value := VStr (UserRole_value r).
Definition status_val (s : PIRStatus) : Value := VStr (PIRStatus_value s).

(** ** Errors, console, collaborator events *)

(** A thrown JavaScript [Error]; the code only ever distinguishes errors by
    their message. *)
Record JsError : Type := Error { message : string }.

#[global] Instance JsError_eq_dec : EqDecision JsError.
Proof. solve_decision. Defined.

Inductive LogLevel : Type := LogInfo | LogWarn | LogError.

Record LogEntry : Type :=
  { level : LogLevel; text : string; detail : option JsError }.

(** The [File] handed to an upload: name, MIME type and size in bytes. *)
Record File : Type :=
  { file_name : string; file_type : string; file_size : Z }.

(** Calls that leave the process, in the order in which they are issued. *)
Inductive Event : Type :=
  | EvUploadBytes (path : string)
  | EvGetDownloadURL (path : string)
  | EvDeleteObject (locator : option Value)
  | EvAddDoc (collection id : string)
  | EvSetDoc (collection id : string)
  | EvUpdateDoc (collection id : string)
  | EvDeleteDoc (collection id : string)
  | EvSendMail (to : list (option Value)) (subject : string).

(** The operations of the blob store and of the mail transport that the
    environment may fail. *)
Inductive ExternalOp : Type :=
  | OpUploadBytes (path : string)
  | OpGetDownloadURL (path : string)
  | OpDeleteObject (locator : option Value)
  | OpSendMail (to : list (option Value)).

(** The identity provider's user, [auth.currentUser]. *)
Record FirebaseUser : Type :=
  { uid : string; fb_email : option string; fb_displayName : option string }.

(** ** The zustand store and the component state *)

Record AppState : Type :=
  { currentUser : option Obj;
    isAuthenticated : bool;
    isLoading : bool;
    authError : option string;
    pirs : list Obj;
    selectedPIR : option Obj;
    error : option string;
    questions : list Obj;
    isLoadingQuestions : bool;
    questionError : option string }.

(** The two [useState] cells of [PIRDetail]. *)
Record PIRDetailState : Type :=
  { isUpdating : bool; localError : option string }.

(** ** The world *)

Record World : Type :=
  { db : gmap string (gmap string Obj);   (* collection -> id -> document *)
    storage : gmap string File;           (* blob path -> content *)
    serverTime : Z;
    clientTime : Z;
    fault : ExternalOp -> option JsError; (* how the collaborators answer *)
    downloadUrl : string -> string;       (* the locator of a stored blob *)
    authCurrentUser : option FirebaseUser;
    console : list LogEntry;
    trace : list Event;
    app : AppState;
    ui : PIRDetailState }.

Definition with_db (f : gmap string (gmap string Obj) -> gmap string (gmap string Obj))
    (w : World) : World :=
  {| db := f (db w); storage := storage w; serverTime := serverTime w;
     clientTime := clientTime w; fault := fault w; downloadUrl := downloadUrl w;
     authCurrentUser := authCurrentUser w; console := console w;
     trace := trace w; app := app w; ui := ui w |}.

Definition with_storage (f : gmap string File -> gmap string File) (w : World) : World :=
  {| db := db w; storage := f (storage w); serverTime := serverTime w;
     clientTime := clientTime w; fault := fault w; downloadUrl := downloadUrl w;
     authCurrentUser := authCurrentUser w; console := console w;
     trace := trace w; app := app w; ui := ui w |}.

Definition with_console (f : list LogEntry -> list LogEntry) (w : World) : World :=
  {| db := db w; storage := storage w; serverTime := serverTime w;
     clientTime := clientTime w; fault := fault w; downloadUrl := downloadUrl w;
     authCurrentUser := authCurrentUser w; console := f (console w);
     trace := trace w; app := app w; ui := ui w |}.

Definition with_trace (f : list Event -> list Event) (w : World) : World :=
  {| db := db w; storage := storage w; serverTime := serverTime w;
     clientTime := clientTime w; fault := fault w; downloadUrl := downloadUrl w;
     authCurrentUser := authCurrentUser w; console := console w;
     trace := f (trace w); app := app w; ui := ui w |}.

Definition with_app (f : AppState -> AppState) (w : World) : World :=
  {| db := db w; storage := storage w; serverTime := serverTime w;
     clientTime := clientTime w; fault := fault w; downloadUrl := downloadUrl w;
     authCurrentUser := authCurrentUser w; console := console w;
     trace := trace w; app := f (app w); ui := ui w |}.

Definition with_ui (f : PIRDetailState -> PIRDetailState) (w : World) : World :=
  {| db := db w; storage := storage w; serverTime := serverTime w;
     clientTime := clientTime w; fault := fault w; downloadUrl := downloadUrl w;
     authCurrentUser := authCurrentUser w; console := console w;
     trace := trace w; app := app w; ui := f (ui w) |}.

(** The documents of one collection. *)
Definition coll (w : World) (c : string) : gmap string Obj := default ∅ (db w !! c).

(** ** The monad of asynchronous code: state, and exceptions that keep the
       state reached when they are thrown *)

Inductive Result (A : Type) : Type :=
  | Ok (a : A)
  | Throw (e : JsError).
Arguments Ok {A} a.
Arguments Throw {A} e.

#[global] Instance Result_eq_dec {A : Type} `{EqDecision A} : EqDecision (Result A).
Proof. solve_decision. Defined.

Definition M (A : Type) : Type := World -> Result A * World.

#[global] Instance M_ret : MRet M := fun A a w => (Ok a, w).

#[global] Instance M_bind : MBind M := fun A B f m w =>
  match m w with
  | (Ok a, w') => f a w'
  | (Throw e, w') => (Throw e, w')
  end.

Definition throw {A : Type} (e : JsError) : M A := fun w => (Throw e, w).

(** [try { m } catch (e) { h e }] *)
Definition try_catch {A : Type} (m : M A) (h : JsError -> M A) : M A := fun w =>
  match m w with
  | (Ok a, w') => (Ok a, w')
  | (Throw e, w') => h e w'
  end.

(** [try { m } finally { f }], for a [finally] block that cannot throw. *)
Definition try_finally {A : Type} (m : M A) (f : World -> World) : M A := fun w =>
  let (r, w') := m w in (r, f w').

Definition modify (f : World -> World) : M unit := fun w => (Ok tt, f w).
Definition gets {A : Type} (f : World -> A) : M A := fun w => (Ok (f w), w).

Definition emit (e : Event) : M unit := modify (with_trace (fun t => t ++ [e])).

Definition console_log (l : LogLevel) (s : string) (d : option JsError) : M unit :=
  modify (with_console (fun c => c ++ [{| level := l; text := s; detail := d |}])).

(** A call to a collaborator that the environment may fail. *)
Definition external (op : ExternalOp) : M unit := fun w =>
  match fault w op with
  | Some e => (Throw e, w)
  | None => (Ok tt, w)
  end.

(** ** Strings *)

Definition lower_ascii (c : ascii) : ascii :=
  let n := nat_of_ascii c in
  if (Nat.leb 65 n && Nat.leb n 90)%bool then ascii_of_nat (n + 32) else c.

(** The folding of the letters [A] to [Z], byte by byte: what
    [s.toLowerCase()] is when [s] consists of ASCII characters. *)
Fixpoint fold_ascii (s : string) : string :=
  match s with
  | EmptyString => EmptyString
  | String c s' => String (lower_ascii c) (fold_ascii s')
  end.

(** [s.includes(sub)] *)
Fixpoint includes (s sub : string) : bool :=
  (String.prefix sub s ||
   match s with
   | EmptyString => false
   | String _ s' => includes s' sub
   end)%bool.

(** The text a template literal produces for a value. *)
Definition template (v : option Value) : string :=
  match v with
  | None | Some VUndefined => "undefined"
  | Some VNull => "null"
  | Some (VStr s) => s
  | Some (VNum n) => pretty n
  | Some (VBool true) => "true"
  | Some (VBool false) => "false"
  | Some (VArr xs) => String.concat "," xs
  | Some _ => "[object Object]"
  end.

(** ** Firestore *)

Definition as_array (v : option Value) : list string :=
  match v with
  | Some (VArr xs) => xs
  | _ => []
  end.

(** [arrayUnion]: the elements not yet in the array are added at its end. *)
Definition array_union (old xs : list string) : list string :=
  fold_left (fun acc x => if bool_decide (x ∈ acc) then acc else acc ++ [x]) xs old.

(** [arrayRemove]: every occurrence of the given elements is removed. *)
Definition array_remove (old xs : list string) : list string :=
  filter (fun x => x ∉ xs) old.

(** What the server stores for a written value: sentinels are resolved
    against the server clock and the stored field, a [Date] is stored as a
    [Timestamp]. *)
Definition resolve (now : Z) (old : option Value) (v : Value) : Value :=
  match v with
  | VServerTimestamp => VTimestamp now
  | VArrayUnion xs => VArr (array_union (as_array old) xs)
  | VArrayRemove xs => VArr (array_remove (as_array old) xs)
  | VDate ms => VTimestamp ms
  | v => v
  end.

(** The document created from [data]. *)
Definition write_new (now : Z) (data : Obj) : Obj :=
  map_imap (fun _ v => Some (resolve now None v)) data.

(** The document [old] after [updateDoc] with [updates]: the named fields
    are replaced, the others kept. *)
Definition write_merge (now : Z) (old updates : Obj) : Obj :=
  map_imap (fun k v => Some (resolve now (old !! k) v)) updates ∪ old.

(** Firestore refuses data in which a field holds [undefined]. *)
Definition has_undefined (data : Obj) : bool :=
  bool_decide (map_Exists (fun _ v => v = VUndefined) data).

Definition unsupported_undefined : JsError :=
  Error "Unsupported field value: undefined".

Definition no_document_to_update : JsError :=
  Error "No document to update".

Definition put_doc (c id : string) (d : Obj) (w : World) : World :=
  with_db (fun m => <[c := <[id := d]> (default ∅ (m !! c))]> m) w.

Definition remove_doc (c id : string) (w : World) : World :=
  with_db (fun m => <[c := delete id (default ∅ (m !! c))]> m) w.

(** [getDoc(doc(db, c, id))]: [None] when the snapshot does not exist. *)
Definition getDoc (c id : string) : M (option Obj) :=
  gets (fun w => coll w c !! id).

(** [addDoc(collection(db, c), data)]: the document gets an id that no
    document of the collection has. *)
Definition addDoc (c : string) (data : Obj) : M string :=
  if has_undefined data then throw unsupported_undefined
  else
    id ← gets (fun w => fresh_string "auto" (coll w c));
    emit (EvAddDoc c id);;
    modify (fun w => put_doc c id (write_new (serverTime w) data) w);;
    mret id.

(** [setDoc(doc(db, c, id), data)] *)
Definition setDoc (c id : string) (data : Obj) : M unit :=
  if has_undefined data then throw unsupported_undefined
  else
    emit (EvSetDoc c id);;
    modify (fun w => put_doc c id (write_new (serverTime w) data) w).

(** [updateDoc(doc(db, c, id), updates)] *)
Definition updateDoc (c id : string) (updates : Obj) : M unit :=
  if has_undefined updates then throw unsupported_undefined
  else
    emit (EvUpdateDoc c id);;
    old ← getDoc c id;
    match old with
    | None => throw no_document_to_update
    | Some d => modify (fun w => put_doc c id (write_merge (serverTime w) d updates) w)
    end.

(** [deleteDoc(doc(db, c, id))] *)
Definition deleteDoc (c id : string) : M unit :=
  emit (EvDeleteDoc c id);;
  modify (remove_doc c id).

(** The order of [orderBy(k, 'asc')] on documents whose field [k] is a
    string: by the field, then by document id. *)
Definition doc_leb (k : string) (a b : string * Obj) : bool :=
  match a.2 !! k, b.2 !! k with
  | Some (VStr x), Some (VStr y) =>
      if String.eqb x y then String.leb a.1 b.1 else String.leb x y
  | _, _ => true
  end.

Definition doc_le (k : string) (a b : string * Obj) : Prop := doc_leb k a b = true.

#[global] Instance doc_le_dec k a b : Decision (doc_le k a b).
Proof. unfold doc_le. apply _. Defined.

Definition id_le (a b : string * Obj) : Prop := String.leb a.1 b.1 = true.

#[global] Instance id_le_dec a b : Decision (id_le a b).
Proof. unfold id_le. apply _. Defined.

(** [getDocs(query(collection(db, c), orderBy(k, 'asc')))]: the documents
    that have the field, in order. *)
Definition getDocs_orderBy (c k : string) : M (list (string * Obj)) :=
  gets (fun w =>
    merge_sort (doc_le k)
      (filter (fun d => is_Some (d.2 !! k)) (map_to_list (coll w c)))).

(** [where(k, '==', v)] without [orderBy]: in the order of document ids. *)
Definition getDocs_where (c k : string) (v : Value) : M (list (string * Obj)) :=
  gets (fun w =>
    merge_sort id_le
      (filter (fun d => d.2 !! k = Some v) (map_to_list (coll w c)))).

(** ** [utils.ts]: conversion between [Date] and [Timestamp] *)

(** On flat objects the two conversions change the dates, respectively the
    timestamps, and keep every other value. *)

Definition convertDatesToTimestamps (obj : Obj) : Obj :=
  (fun v => match v with VDate ms => VTimestamp ms | _ => v end) <$> obj.

Definition convertTimestampsToDates (obj : Obj) : Obj :=
  (fun v => match v with VTimestamp ms => VDate ms | _ => v end) <$> obj.

(** [new Date()] *)
Definition newDate : M Value := gets (fun w => VDate (clientTime w)).

(** [{id, ...data}] *)
Definition with_id (id : string) (data : Obj) : Obj := data ∪ {["id" := VStr id]}.

(** [Object.entries(undefined)] and the like. *)
Definition type_error : JsError := Error "TypeError".

(** ** Blob store *)

(** [uploadBytes(ref(storage, path), file)] *)
Definition uploadBytes (path : string) (file : File) : M unit :=
  emit (EvUploadBytes path);;
  external (OpUploadBytes path);;
  modify (with_storage (fun s => <[path := file]> s)).

(** [getDownloadURL(ref)] *)
Definition getDownloadURL (path : string) : M string :=
  emit (EvGetDownloadURL path);;
  external (OpGetDownloadURL path);;
  gets (fun w => downloadUrl w path).

(** [deleteObject(ref(storage, locator))]: the locator is a path or a
    download URL. *)
Definition deleteObject (locator : option Value) : M unit :=
  emit (EvDeleteObject locator);;
  external (OpDeleteObject locator);;
  modify (fun w =>
    with_storage (filter (fun b =>
      locator ≠ Some (VStr b.1) ∧ locator ≠ Some (VStr (downloadUrl w b.1)))) w).

(** ** [attachmentRepository.ts] *)

Module attachmentRepository.

Inductive ParentType : Type := ParentPIR | ParentQuestion | ParentAnswer.

Definition ParentType_value (t : ParentType) : string :=
  match t with
  | ParentPIR => "pir"
  | ParentQuestion => "question"
  | ParentAnswer => "answer"
  end.

Definition COLLECTION_NAME : string := "attachments".
Definition STORAGE_PATH : string := "attachments".

Definition getAttachmentById (id : string) : M (option Obj) :=
  try_catch
    (docSnap ← getDoc COLLECTION_NAME id;
     match docSnap with
     | Some data => mret (Some (with_id id (convertTimestampsToDates data)))
     | None =>
         console_log LogInfo ("No attachment found with ID: " +:+ id) None;;
         mret None
     end)
    (fun error =>
       console_log LogError ("Error getting attachment " +:+ id +:+ ":") (Some error);;
       throw error).

(** The storage path of an upload made at [timestamp]. *)
Definition filePath (timestamp : Z) (file : File) (parentId : string)
    (parentType : ParentType) : string :=
  STORAGE_PATH +:+ "/" +:+ ParentType_value parentType +:+ "/" +:+ parentId
    +:+ "/" +:+ pretty timestamp +:+ "_" +:+ file_name file.

(** The metadata of an upload. *)
Definition attachmentData (file : File) (uploadedBy parentId : string)
    (parentType : ParentType) (now : Value) (downloadUrl : string) : Obj :=
  {[ "fileName" := VStr (file_name file);
     "fileType" := VStr (file_type file);
     "fileSize" := VNum (file_size file);
     "uploadedBy" := VStr uploadedBy;
     "uploadedAt" := now;
     "parentId" := VStr parentId;
     "parentType" := VStr (ParentType_value parentType);
     "downloadUrl" := VStr downloadUrl ]}.

Definition uploadAttachment (file : File) (uploadedBy parentId : string)
    (parentType : ParentType) : M Obj :=
  try_catch
    ((* 1. Upload the file to Firebase Storage *)
     timestamp ← gets clientTime;
     let filePath := filePath timestamp file parentId parentType in
     uploadBytes filePath file;;
     downloadUrl ← getDownloadURL filePath;
     (* 2. Create a document in Firestore with the file metadata *)
     now ← newDate;
     let attachmentData :=
       attachmentData file uploadedBy parentId parentType now downloadUrl in
     let attachmentWithTimestamps := convertDatesToTimestamps attachmentData in
     docRef ← addDoc COLLECTION_NAME
                (<["uploadedAt" := VServerTimestamp]> attachmentWithTimestamps);
     (* 3. Return the created attachment with its ID *)
     mret (with_id docRef attachmentData))
    (fun error =>
       console_log LogError "Error uploading attachment:" (Some error);;
       throw error).

Definition attachment_not_found (id : string) : JsError :=
  Error ("Attachment with ID " +:+ id +:+ " not found").

Definition deleteAttachment (id : string) : M unit :=
  try_catch
    ((* 1. Get the attachment document *)
     attachmentSnap ← getDoc COLLECTION_NAME id;
     match attachmentSnap with
     | None => throw (attachment_not_found id)
     | Some attachmentData =>
         (* 2. Delete the file from Firebase Storage if it exists *)
         try_catch
           (deleteObject (field attachmentData "downloadUrl"))
           (fun storageError =>
              console_log LogWarn
                "Error deleting file from storage, continuing with document deletion:"
                (Some storageError));;
         (* 3. Delete the document from Firestore *)
         deleteDoc COLLECTION_NAME id
     end)
    (fun error =>
       console_log LogError ("Error deleting attachment " +:+ id +:+ ":") (Some error);;
       throw error).

(** The loop of [getAttachmentsByIds] that cuts the ids into batches:
    [for (let i = 0; i < ids.length; i += batchSize)
       batches.push(ids.slice(i, i + batchSize))].
    [fuel] bounds the number of iterations. *)
Definition batchSize : nat := 10.

Fixpoint batch_loop (fuel i : nat) (ids : list string) : list (list string) :=
  match fuel with
  | O => []
  | S fuel' =>
      if (i <? length ids)%nat
      then take batchSize (drop i ids) :: batch_loop fuel' (i + batchSize) ids
      else []
  end.

(** One iteration per id is more than the loop ever needs. *)
Definition id_batches (ids : list string) : list (list string) :=
  batch_loop (length ids) 0 ids.

End attachmentRepository.

(** ** [pirRepository.ts] *)

Module pirRepository.

Definition COLLECTION_NAME : string := "pirs".

Definition pir_not_found (id : string) : JsError :=
  Error ("PIR with ID " +:+ id +:+ " not found").

Definition getPIRById (id : string) : M (option Obj) :=
  try_catch
    (docSnap ← getDoc COLLECTION_NAME id;
     match docSnap with
     | Some data => mret (Some (with_id id (convertTimestampsToDates data)))
     | None =>
         console_log LogInfo ("No PIR found with ID: " +:+ id) None;;
         mret None
     end)
    (fun error =>
       console_log LogError ("Error getting PIR " +:+ id +:+ ":") (Some error);;
       throw error).

(** The data handed to [updateDoc] by [updatePIRStatus]. *)
Definition status_updates (status : PIRStatus) (additionalData : Obj) : Obj :=
  let updates : Obj :=
    additionalData ∪ {[ "status" := status_val status; "updatedAt" := VServerTimestamp ]} in
  (* Add status-specific timestamp *)
  match status with
  | SUBMITTED => <["submittedAt" := VServerTimestamp]> updates
  | REVIEWED => <["reviewedAt" := VServerTimestamp]> updates
  | ACCEPTED => <["acceptedAt" := VServerTimestamp]> updates
  | REJECTED => <["rejectedAt" := VServerTimestamp]> updates
  | _ => updates
  end.

Definition updatePIRStatus (id : string) (status : PIRStatus) (additionalData : Obj)
    : M Obj :=
  try_catch
    (currentDoc ← getDoc COLLECTION_NAME id;
     match currentDoc with
     | None => throw (pir_not_found id)
     | Some _ =>
         updateDoc COLLECTION_NAME id (status_updates status additionalData);;
         (* Get the updated document *)
         updatedDoc ← getDoc COLLECTION_NAME id;
         match updatedDoc with
         | Some updatedData => mret (with_id id (convertTimestampsToDates updatedData))
         | None => throw type_error
         end
     end)
    (fun error =>
       console_log LogError ("Error updating PIR status " +:+ id +:+ ":") (Some error);;
       throw error).

Definition addQuestionToPIR (pirId questionId : string) : M unit :=
  try_catch
    (updateDoc COLLECTION_NAME pirId
       {[ "questionIds" := VArrayUnion [questionId]; "updatedAt" := VServerTimestamp ]})
    (fun error =>
       console_log LogError
         ("Error adding question " +:+ questionId +:+ " to PIR " +:+ pirId +:+ ":")
         (Some error);;
       throw error).

Definition createPIR (pir : Obj) : M Obj :=
  try_catch
    (now ← newDate;
     let newPIR : Obj :=
       <["tags" := or_else (field pir "tags") (VArr [])]>
         (<["attachmentIds" := or_else (field pir "attachmentIds") (VArr [])]>
            (<["questionIds" := or_else (field pir "questionIds") (VArr [])]>
               (<["updatedAt" := now]> (<["createdAt" := now]> pir)))) in
     let pirWithTimestamps := convertDatesToTimestamps newPIR in
     docRef ← addDoc COLLECTION_NAME
                (<["updatedAt" := VServerTimestamp]>
                   (<["createdAt" := VServerTimestamp]> pirWithTimestamps));
     mret (with_id docRef newPIR))
    (fun error =>
       console_log LogError "Error creating PIR:" (Some error);;
       throw error).

Definition updatePIR (id : string) (updates : Obj) : M Obj :=
  try_catch
    (currentDoc ← getDoc COLLECTION_NAME id;
     match currentDoc with
     | None => throw (pir_not_found id)
     | Some _ =>
         let updatesWithTimestamp : Obj :=
           <["updatedAt" := VServerTimestamp]> (convertDatesToTimestamps updates) in
         updateDoc COLLECTION_NAME id updatesWithTimestamp;;
         (* Get the updated document *)
         updatedDoc ← getDoc COLLECTION_NAME id;
         match updatedDoc with
         | Some updatedData => mret (with_id id (convertTimestampsToDates updatedData))
         | None => throw type_error
         end
     end)
    (fun error =>
       console_log LogError ("Error updating PIR " +:+ id +:+ ":") (Some error);;
       throw error).

Definition addAttachmentToPIR (pirId attachmentId : string) : M unit :=
  try_catch
    (updateDoc COLLECTION_NAME pirId
       {[ "attachmentIds" := VArrayUnion [attachmentId]; "updatedAt" := VServerTimestamp ]})
    (fun error =>
       console_log LogError
         ("Error adding attachment " +:+ attachmentId +:+ " to PIR " +:+ pirId +:+ ":")
         (Some error);;
       throw error).

Definition addTagToPIR (pirId tag : string) : M unit :=
  try_catch
    (updateDoc COLLECTION_NAME pirId
       {[ "tags" := VArrayUnion [tag]; "updatedAt" := VServerTimestamp ]})
    (fun error =>
       console_log LogError
         ("Error adding tag " +:+ tag +:+ " to PIR " +:+ pirId +:+ ":") (Some error);;
       throw error).

Definition removeTagFromPIR (pirId tag : string) : M unit :=
  try_catch
    (updateDoc COLLECTION_NAME pirId
       {[ "tags" := VArrayRemove [tag]; "updatedAt" := VServerTimestamp ]})
    (fun error =>
       console_log LogError
         ("Error removing tag " +:+ tag +:+ " from PIR " +:+ pirId +:+ ":") (Some error);;
       throw error).

End pirRepository.

(** ** [questionRepository.ts] *)

Module questionRepository.

Definition COLLECTION_NAME : string := "questions".

Definition createQuestion (question : Obj) : M Obj :=
  try_catch
    (now ← newDate;
     let newQuestion : Obj :=
       <["attachmentIds" := or_else (field question "attachmentIds") (VArr [])]>
         (<["updatedAt" := now]> (<["createdAt" := now]> question)) in
     let questionWithTimestamps := convertDatesToTimestamps newQuestion in
     docRef ← addDoc COLLECTION_NAME
                (<["updatedAt" := VServerTimestamp]>
                   (<["createdAt" := VServerTimestamp]> questionWithTimestamps));
     (* Return the created question with its ID *)
     mret (with_id docRef newQuestion))
    (fun error =>
       console_log LogError "Error creating question:" (Some error);;
       throw error).

Definition getQuestionById (id : string) : M (option Obj) :=
  try_catch
    (docSnap ← getDoc COLLECTION_NAME id;
     match docSnap with
     | Some data => mret (Some (with_id id (convertTimestampsToDates data)))
     | None =>
         console_log LogInfo ("No question found with ID: " +:+ id) None;;
         mret None
     end)
    (fun error =>
       console_log LogError ("Error getting question " +:+ id +:+ ":") (Some error);;
       throw error).

(** The loop of [createMultipleQuestions]: the questions are created one by
    one and pushed onto [createdQuestions]. *)
Fixpoint create_each (questions createdQuestions : list Obj) : M (list Obj) :=
  match questions with
  | [] => mret createdQuestions
  | question :: rest =>
      createdQuestion ← createQuestion question;
      create_each rest (createdQuestions ++ [createdQuestion])
  end.

Definition createMultipleQuestions (questions : list Obj) : M (list Obj) :=
  try_catch
    (create_each questions [])
    (fun error =>
       console_log LogError "Error creating multiple questions:" (Some error);;
       throw error).

End questionRepository.

(** ** Array methods with callbacks that may throw *)

Section engine.

(** [String.prototype.toLowerCase], as the JavaScript engine provides it. *)
Variable toLowerCase : string -> string.

(** [v.toLowerCase()]: a [TypeError] unless [v] is a string. *)
Definition js_toLowerCase (v : option Value) : M string :=
  match v with
  | Some (VStr s) => mret (toLowerCase s)
  | _ => throw type_error
  end.

End engine.

(** [xs.filter(p)] for a callback that may throw. *)
Fixpoint filterM {A : Type} (p : A -> M bool) (xs : list A) : M (list A) :=
  match xs with
  | [] => mret []
  | x :: xs' =>
      b ← p x;
      rest ← filterM p xs';
      mret (if b : bool then x :: rest else rest)
  end.

(** [xs.find(p)] for a callback that may throw. *)
Fixpoint findM {A : Type} (p : A -> M bool) (xs : list A) : M (option A) :=
  match xs with
  | [] => mret None
  | x :: xs' =>
      b ← p x;
      if b : bool then mret (Some x) else findM p xs'
  end.

(** ** [tagRepository.ts] *)

Module tagRepository.

Definition COLLECTION_NAME : string := "tags".

Definition getAllTags : M (list Obj) :=
  try_catch
    (querySnapshot ← getDocs_orderBy COLLECTION_NAME "name";
     mret ((fun d : string * Obj => with_id d.1 d.2) <$> querySnapshot))
    (fun error =>
       console_log LogError "Error getting tags:" (Some error);;
       throw error).

Section engine.

(** [String.prototype.toLowerCase], as the JavaScript engine provides it. *)
Variable toLowerCase : string -> string.

Definition searchTagsByName (searchTerm : option Value) : M (list Obj) :=
  try_catch
    (allTags ← getAllTags;
     normalizedSearchTerm ← js_toLowerCase toLowerCase searchTerm;
     filterM
       (fun tag =>
          n ← js_toLowerCase toLowerCase (field tag "name");
          mret (includes n normalizedSearchTerm))
       allTags)
    (fun error =>
       console_log LogError
         ("Error searching tags with term " +:+ template searchTerm +:+ ":")
         (Some error);;
       throw error).

Definition dquote : string := String (ascii_of_nat 34) EmptyString.

Definition createTag (tag : Obj) : M Obj :=
  try_catch
    ((* Check if a tag with the same name already exists *)
     existingTags ← searchTagsByName (field tag "name");
     exactMatch ← findM
       (fun t =>
          n ← js_toLowerCase toLowerCase (field t "name");
          m ← js_toLowerCase toLowerCase (field tag "name");
          mret (String.eqb n m))
       existingTags;
     match exactMatch with
     | Some t =>
         console_log LogInfo
           ("Tag with name " +:+ dquote +:+ template (field tag "name") +:+ dquote
              +:+ " already exists.") None;;
         mret t
     | None =>
         (* Create the new tag *)
         docRef ← addDoc COLLECTION_NAME tag;
         (* Return the created tag with its ID *)
         mret (with_id docRef tag)
     end)
    (fun error =>
       console_log LogError "Error creating tag:" (Some error);;
       throw error).

End engine.

Definition getTagById (id : string) : M (option Obj) :=
  try_catch
    (docSnap ← getDoc COLLECTION_NAME id;
     match docSnap with
     | Some data => mret (Some (with_id id data))
     | None =>
         console_log LogInfo ("No tag found with ID: " +:+ id) None;;
         mret None
     end)
    (fun error =>
       console_log LogError ("Error getting tag " +:+ id +:+ ":") (Some error);;
       throw error).

Definition deleteTag (id : string) : M unit :=
  try_catch
    (deleteDoc COLLECTION_NAME id)
    (fun error =>
       console_log LogError ("Error deleting tag " +:+ id +:+ ":") (Some error);;
       throw error).

End tagRepository.

(** ** The zustand [set] calls *)

Definition set_user (cu : option Obj) (auth loading : bool) (a : AppState) : AppState :=
  {| currentUser := cu; isAuthenticated := auth; isLoading := loading;
     authError := authError a; pirs := pirs a; selectedPIR := selectedPIR a;
     error := error a; questions := questions a;
     isLoadingQuestions := isLoadingQuestions a; questionError := questionError a |}.

Definition set_loading_authError (loading : bool) (e : option string) (a : AppState)
    : AppState :=
  {| currentUser := currentUser a; isAuthenticated := isAuthenticated a;
     isLoading := loading; authError := e; pirs := pirs a;
     selectedPIR := selectedPIR a; error := error a; questions := questions a;
     isLoadingQuestions := isLoadingQuestions a; questionError := questionError a |}.

Definition set_loading_error (loading : bool) (e : option string) (a : AppState)
    : AppState :=
  {| currentUser := currentUser a; isAuthenticated := isAuthenticated a;
     isLoading := loading; authError := authError a; pirs := pirs a;
     selectedPIR := selectedPIR a; error := e; questions := questions a;
     isLoadingQuestions := isLoadingQuestions a; questionError := questionError a |}.

Definition set_pirs (ps : list Obj) (sel : option Obj) (loading : bool) (a : AppState)
    : AppState :=
  {| currentUser := currentUser a; isAuthenticated := isAuthenticated a;
     isLoading := loading; authError := authError a; pirs := ps;
     selectedPIR := sel; error := error a; questions := questions a;
     isLoadingQuestions := isLoadingQuestions a; questionError := questionError a |}.

Definition set_questions (qs : list Obj) (loading : bool) (a : AppState) : AppState :=
  {| currentUser := currentUser a; isAuthenticated := isAuthenticated a;
     isLoading := isLoading a; authError := authError a; pirs := pirs a;
     selectedPIR := selectedPIR a; error := error a; questions := qs;
     isLoadingQuestions := loading; questionError := questionError a |}.

Definition set_loadingQuestions_error (loading : bool) (e : option string)
    (a : AppState) : AppState :=
  {| currentUser := currentUser a; isAuthenticated := isAuthenticated a;
     isLoading := isLoading a; authError := authError a; pirs := pirs a;
     selectedPIR := selectedPIR a; error := error a; questions := questions a;
     isLoadingQuestions := loading; questionError := e |}.

(** ** [pirSlice.ts] *)

Module pirSlice.

Definition fetchPIRById (id : string) : M unit :=
  modify (with_app (set_loading_error true None));;
  try_catch
    (pir ← pirRepository.getPIRById id;
     modify (with_app (fun state => set_pirs (pirs state) pir false state)))
    (fun error =>
       console_log LogError ("Error fetching PIR " +:+ id +:+ ":") (Some error);;
       modify (with_app (set_loading_error false (Some (message error))))).

Definition updatePIRStatus (id : string) (status : PIRStatus) (additionalData : Obj)
    : M Obj :=
  modify (with_app (set_loading_error true None));;
  try_catch
    (updatedPIR ← pirRepository.updatePIRStatus id status additionalData;
     modify (with_app (fun state =>
       set_pirs
         ((fun p => if strict_eq (field p "id") (Some (VStr id)) then updatedPIR else p)
            <$> pirs state)
         (match selectedPIR state with
          | Some sel =>
              if strict_eq (field sel "id") (Some (VStr id)) then Some updatedPIR
              else Some sel
          | None => None
          end)
         false state));;
     mret updatedPIR)
    (fun error =>
       console_log LogError ("Error updating PIR status " +:+ id +:+ ":") (Some error);;
       modify (with_app (set_loading_error false (Some (message error))));;
       throw error).

Definition createPIR (pir : Obj) : M Obj :=
  modify (with_app (set_loading_error true None));;
  try_catch
    (newPIR ← pirRepository.createPIR pir;
     modify (with_app (fun state =>
       set_pirs (newPIR :: pirs state) (Some newPIR) false state));;
     mret newPIR)
    (fun error =>
       console_log LogError "Error creating PIR:" (Some error);;
       modify (with_app (set_loading_error false (Some (message error))));;
       throw error).

Definition updatePIR (id : string) (updates : Obj) : M Obj :=
  modify (with_app (set_loading_error true None));;
  try_catch
    (updatedPIR ← pirRepository.updatePIR id updates;
     modify (with_app (fun state =>
       set_pirs
         ((fun p => if strict_eq (field p "id") (Some (VStr id)) then updatedPIR else p)
            <$> pirs state)
         (match selectedPIR state with
          | Some sel =>
              if strict_eq (field sel "id") (Some (VStr id)) then Some updatedPIR
              else Some sel
          | None => None
          end)
         false state));;
     mret updatedPIR)
    (fun error =>
       console_log LogError ("Error updating PIR " +:+ id +:+ ":") (Some error);;
       modify (with_app (set_loading_error false (Some (message error))));;
       throw error).

End pirSlice.

(** ** [questionSlice.ts] *)

Module questionSlice.

Definition createQuestion (question : Obj) : M Obj :=
  modify (with_app (set_loadingQuestions_error true None));;
  try_catch
    (newQuestion ← questionRepository.createQuestion question;
     modify (with_app (fun state =>
       set_questions (questions state ++ [newQuestion]) false state));;
     mret newQuestion)
    (fun error =>
       console_log LogError "Error creating question:" (Some error);;
       modify (with_app (set_loadingQuestions_error false (Some (message error))));;
       throw error).

End questionSlice.

(** ** [userSlice.ts] *)

Module userSlice.

Definition loadUserData : M unit :=
  firebaseUser ← gets authCurrentUser;
  match firebaseUser with
  | None => modify (with_app (set_user None false false))
  | Some firebaseUser =>
      modify (with_app (set_loading_authError true None));;
      try_catch
        (userDoc ← getDoc "users" (uid firebaseUser);
         match userDoc with
         | Some userData => modify (with_app (set_user (Some userData) true false))
         | None =>
             (* User doesn't have a document, create one with default values *)
             let defaultUserData : Obj :=
               {[ "id" := VStr (uid firebaseUser);
                  "email" := VStr (default EmptyString (fb_email firebaseUser));
                  "displayName" := VStr (default EmptyString (fb_displayName firebaseUser));
                  "role" := role_val REQUESTER ]} in
             setDoc "users" (uid firebaseUser) defaultUserData;;
             modify (with_app (set_user (Some defaultUserData) true false))
         end)
        (fun error =>
           console_log LogError "Error loading user data:" (Some error);;
           modify (with_app (set_loading_authError false (Some (message error)))))
  end.

Definition with_authCurrentUser (f : option FirebaseUser -> option FirebaseUser)
    (w : World) : World :=
  {| db := db w; storage := storage w; serverTime := serverTime w;
     clientTime := clientTime w; fault := fault w; downloadUrl := downloadUrl w;
     authCurrentUser := f (authCurrentUser w); console := console w;
     trace := trace w; app := app w; ui := ui w |}.

Definition no_authenticated_user : JsError := Error "No authenticated user found".

(** The error of [doc(db, 'users', id)] for an id that is not a non-empty
    string. *)
Definition invalid_document_reference : JsError :=
  Error "Function doc() cannot be called with an empty path.".

(** [updateProfile(auth.currentUser, { displayName })] of the identity
    provider; [profileFault] is how the provider answers. *)
Definition updateProfile (profileFault : option JsError) (displayName : option Value)
    : M unit :=
  match profileFault with
  | Some e => throw e
  | None =>
      modify (with_authCurrentUser (fun u =>
        match u with
        | Some fu =>
            Some {| uid := uid fu; fb_email := fb_email fu;
                    fb_displayName := Some (template displayName) |}
        | None => None
        end))
  end.

Definition set_currentUser_loading (cu : option Obj) (loading : bool) (a : AppState)
    : AppState :=
  {| currentUser := cu; isAuthenticated := isAuthenticated a; isLoading := loading;
     authError := authError a; pirs := pirs a; selectedPIR := selectedPIR a;
     error := error a; questions := questions a;
     isLoadingQuestions := isLoadingQuestions a; questionError := questionError a |}.

(** [updateUserProfile(updates)]; the answer of the identity provider to
    [updateProfile], should it be called, is the first argument. *)
Definition updateUserProfile (profileFault : option JsError) (updates : Obj) : M unit :=
  currentUser ← gets (fun w => currentUser (app w));
  match currentUser with
  | None =>
      modify (with_app
        (set_loading_authError false (Some (message no_authenticated_user))));;
      throw no_authenticated_user
  | Some currentUser =>
      modify (with_app (set_loading_authError true None));;
      try_catch
        (match field currentUser "id" with
         | Some (VStr id) =>
             (if String.eqb id EmptyString then throw invalid_document_reference
              else updateDoc "users" id updates);;
             (* Update profile display name if provided *)
             authUser ← gets authCurrentUser;
             (if truthy (field updates "displayName") && bool_decide (is_Some authUser)
              then updateProfile profileFault (field updates "displayName")
              else mret tt);;
             (* Update state with updated user data *)
             modify (with_app (set_currentUser_loading (Some (updates ∪ currentUser)) false))
         | _ => throw invalid_document_reference
         end)
        (fun error =>
           console_log LogError "Error updating profile:" (Some error);;
           modify (with_app (set_loading_authError false (Some (message error))));;
           throw error)
  end.

End userSlice.

(** ** [PIRDetail.tsx] *)

Module PIRDetail.

Definition is_role (currentUser : Obj) (r : UserRole) : bool :=
  strict_eq (field currentUser "role") (Some (role_val r)).

Definition is_status (selectedPIR : Obj) (s : PIRStatus) : bool :=
  strict_eq (field selectedPIR "status") (Some (status_val s)).

(** The five predicates; [currentUser && ...] is falsy without a user. *)
Definition canEdit (currentUser : option Obj) (selectedPIR : Obj) : bool :=
  match currentUser with
  | None => false
  | Some currentUser =>
      is_role currentUser ADMIN ||
      (strict_eq (field currentUser "id") (field selectedPIR "requesterId") &&
       is_status selectedPIR DRAFT)
  end.

Definition canRequest (currentUser : option Obj) (selectedPIR : Obj) : bool :=
  match currentUser with
  | None => false
  | Some currentUser =>
      is_status selectedPIR DRAFT &&
      (is_role currentUser ADMIN ||
       strict_eq (field currentUser "id") (field selectedPIR "requesterId"))
  end.

Definition canSubmit (currentUser : option Obj) (selectedPIR : Obj) : bool :=
  match currentUser with
  | None => false
  | Some currentUser =>
      is_status selectedPIR REQUESTED &&
      (is_role currentUser ADMIN ||
       strict_eq (field currentUser "id") (field selectedPIR "assignedResponderId"))
  end.

Definition canReview (currentUser : option Obj) (selectedPIR : Obj) : bool :=
  match currentUser with
  | None => false
  | Some currentUser =>
      is_status selectedPIR SUBMITTED &&
      (is_role currentUser ADMIN || is_role currentUser REVIEWER)
  end.

Definition canAcceptReject (currentUser : option Obj) (selectedPIR : Obj) : bool :=
  match currentUser with
  | None => false
  | Some currentUser =>
      is_status selectedPIR REVIEWED &&
      (is_role currentUser ADMIN ||
       strict_eq (field currentUser "id") (field selectedPIR "reviewerId"))
  end.

Definition permission_denied : JsError :=
  Error "You do not have permission to accept/reject this PIR".

(** The [switch] of [handleStatusChange]: the additional data, or the
    permission error. *)
Definition status_additionalData (newStatus : PIRStatus) (currentUser selectedPIR : Obj)
    : M Obj :=
  match newStatus with
  | REVIEWED =>
      mret (<["reviewerName" := or_undefined (field currentUser "displayName")]>
              (<["reviewerId" := or_undefined (field currentUser "id")]> ∅))
  | ACCEPTED | REJECTED =>
      (* Only allow if the current user is the reviewer or an admin *)
      if negb (is_role currentUser ADMIN) &&
         negb (strict_eq (field selectedPIR "reviewerId") (field currentUser "id"))
      then throw permission_denied
      else mret ∅
  | _ => mret ∅
  end.

Definition set_ui (updating : bool) (e : option string) (_ : PIRDetailState)
    : PIRDetailState :=
  {| isUpdating := updating; localError := e |}.

Definition handleStatusChange (id : option string) (newStatus : PIRStatus) : M unit :=
  selectedPIR ← gets (fun w => selectedPIR (app w));
  currentUser ← gets (fun w => currentUser (app w));
  match id, selectedPIR, currentUser with
  | Some id, Some selectedPIR, Some currentUser =>
      if String.eqb id EmptyString then mret tt
      else
        modify (with_ui (set_ui true None));;
        try_finally
          (try_catch
             (additionalData ← status_additionalData newStatus currentUser selectedPIR;
              pirSlice.updatePIRStatus id newStatus additionalData;;
              mret tt)
             (fun err =>
                modify (with_ui (fun u => set_ui (isUpdating u) (Some (message err)) u))))
          (with_ui (fun u => set_ui false (localError u) u))
  | _, _, _ => mret tt
  end.

End PIRDetail.

(** ** [PIRForm.tsx] *)

Module PIRForm.

Inductive Mode : Type := create | edit.

(** The [useState] cells of the form and the route it navigated to. *)
Record FormState : Type :=
  { formData : Obj;
    selectedTag : string;
    isSubmitting : bool;
    formError : option string;
    navigatedTo : option string }.

(** [formData.tags], an array or undefined. *)
Definition tags_of (formData : Obj) : option (list string) :=
  match field formData "tags" with
  | Some (VArr xs) => Some xs
  | _ => None
  end.

(** Add selected tag *)
Definition addTag (st : FormState) : FormState :=
  if negb (String.eqb (selectedTag st) EmptyString) &&
     negb (match tags_of (formData st) with
           | Some xs => bool_decide (selectedTag st ∈ xs)
           | None => false
           end)
  then
    {| formData := <["tags" := VArr (default [] (tags_of (formData st)) ++ [selectedTag st])]>
                     (formData st);
       selectedTag := EmptyString;
       isSubmitting := isSubmitting st;
       formError := formError st;
       navigatedTo := navigatedTo st |}
  else st.

(** Remove tag *)
Definition removeTag (tag : string) (st : FormState) : FormState :=
  {| formData :=
       <["tags" := VArr (match tags_of (formData st) with
                         | Some xs => filter (fun t => t ≠ tag) xs
                         | None => []
                         end)]> (formData st);
     selectedTag := selectedTag st;
     isSubmitting := isSubmitting st;
     formError := formError st;
     navigatedTo := navigatedTo st |}.

Definition set_formError (e : option string) (st : FormState) : FormState :=
  {| formData := formData st; selectedTag := selectedTag st;
     isSubmitting := isSubmitting st; formError := e; navigatedTo := navigatedTo st |}.

Definition set_isSubmitting (b : bool) (st : FormState) : FormState :=
  {| formData := formData st; selectedTag := selectedTag st;
     isSubmitting := b; formError := formError st; navigatedTo := navigatedTo st |}.

Definition navigate (route : string) (st : FormState) : FormState :=
  {| formData := formData st; selectedTag := selectedTag st;
     isSubmitting := isSubmitting st; formError := formError st;
     navigatedTo := Some route |}.

(** The PIR the form creates: [{...formData, requesterName, requesterId,
    status: DRAFT, createdAt, updatedAt, questionIds, attachmentIds, tags}]. *)
Definition newPIR (formData currentUser : Obj) (now : Value) : Obj :=
  <["tags" := or_else (field formData "tags") (VArr [])]>
    (<["attachmentIds" := or_else (field formData "attachmentIds") (VArr [])]>
       (<["questionIds" := or_else (field formData "questionIds") (VArr [])]>
          (<["updatedAt" := now]>
             (<["createdAt" := now]>
                (<["status" := status_val DRAFT]>
                   (<["requesterId" := or_undefined (field currentUser "id")]>
                      (<["requesterName" := or_undefined (field currentUser "displayName")]>
                         formData))))))).

Definition handleSubmit (mode : Mode) (id : option string) (st : FormState)
    : M FormState :=
  currentUser ← gets (fun w => currentUser (app w));
  match currentUser with
  | None => mret (set_formError (Some "You must be logged in to submit a PIR") st)
  | Some currentUser =>
      (* Validate form *)
      if negb (truthy (field (formData st) "title")) ||
         negb (truthy (field (formData st) "description")) ||
         negb (truthy (field (formData st) "productName")) ||
         negb (truthy (field (formData st) "productCategory"))
      then mret (set_formError (Some "Please fill in all required fields") st)
      else
        let st1 := set_formError None (set_isSubmitting true st) in
        st2 ←
          try_catch
            (match mode with
             | create =>
                 (* Create new PIR *)
                 now ← newDate;
                 createdPIR ← pirSlice.createPIR (newPIR (formData st) currentUser now);
                 mret (navigate ("/pirs/" +:+ template (field createdPIR "id")) st1)
             | edit =>
                 match id with
                 | Some id =>
                     if String.eqb id EmptyString then mret st1
                     else
                       (* Update existing PIR *)
                       now ← newDate;
                       pirSlice.updatePIR id (<["updatedAt" := now]> (formData st));;
                       mret (navigate ("/pirs/" +:+ id) st1)
                 | None => mret st1
                 end
             end)
            (fun err => mret (set_formError (Some (message err)) st1));
        mret (set_isSubmitting false st2)
  end.

(** Check permissions *)
Definition canEdit (mode : Mode) (selectedPIR currentUser : option Obj) : bool :=
  match mode with
  | create => true
  | edit =>
      match selectedPIR, currentUser with
      | Some selectedPIR, Some currentUser =>
          PIRDetail.is_role currentUser ADMIN ||
          (strict_eq (field currentUser "id") (field selectedPIR "requesterId") &&
           PIRDetail.is_status selectedPIR DRAFT)
      | _, _ => false
      end
  end.

End PIRForm.

(** ** [PIRList.tsx] *)

Module PIRList.

(** The role a [switch] over the [UserRole] cases selects. *)
Definition role_case (v : option Value) : option UserRole :=
  List.find (fun r => strict_eq v (Some (role_val r)))
    [REQUESTER; RESPONDER; REVIEWER; ADMIN].

(** [result.slice(0, n)] for an integer [n]. *)
Definition slice0 (n : Z) (result : list Obj) : list Obj :=
  take (Z.to_nat (if n <? 0 then Z.of_nat (length result) + n else n)) result.

(** The list the second effect hands to [setFilteredPIRs]. *)
Definition filteredPIRs (pirs : list Obj) (currentUser : option Obj)
    (maxItems : option Z) : list Obj :=
  let result :=
    match currentUser with
    | Some currentUser =>
        match role_case (field currentUser "role") with
        | Some REQUESTER =>
            (* Requesters can see all their own PIRs *)
            List.filter (fun pir =>
              strict_eq (field pir "requesterId") (field currentUser "id")) pirs
        | Some RESPONDER =>
            (* Responders can see PIRs assigned to them *)
            List.filter (fun pir =>
              strict_eq (field pir "assignedResponderId") (field currentUser "id")) pirs
        | Some REVIEWER =>
            (* Reviewers can see submitted PIRs or those assigned to them *)
            List.filter (fun pir =>
              strict_eq (field pir "reviewerId") (field currentUser "id") ||
              PIRDetail.is_status pir SUBMITTED) pirs
        | _ => pirs
        end
    | None => pirs
    end in
  (* Apply maximum items limit *)
  match maxItems with
  | Some n =>
      if negb (n =? 0) && (n <? Z.of_nat (length result))
      then slice0 n result
      else result
  | None => result
  end.

End PIRList.

(** ** [utils/formatters.ts] *)

Module formatters.

(** [str.substring(0, n)] for an integer [n]. *)
Definition substring0 (n : Z) (str : string) : string :=
  String.substring 0 (Z.to_nat n) str.

Definition truncateString (str : string) (length : Z) : string :=
  if Z.of_nat (String.length str) <=? length then str
  else substring0 length str +:+ "...".

End formatters.

(** ** [functions/src/email-notifications.ts] *)

Module emailNotifications.

(** [toEmails.join(', ')] *)
Definition join_emails (toEmails : list (option Value)) : string :=
  String.concat ", "
    ((fun v => match v with
               | None | Some VUndefined | Some VNull => EmptyString
               | _ => template v
               end) <$> toEmails).

Definition status_subject (status : PIRStatus) (title : option Value) : string :=
  match status with
  | REQUESTED => "[Stacksio] New PIR Requested: " +:+ template title
  | SUBMITTED => "[Stacksio] PIR Submitted for Review: " +:+ template title
  | REVIEWED => "[Stacksio] PIR Reviewed: " +:+ template title
  | ACCEPTED => "[Stacksio] PIR Accepted: " +:+ template title
  | REJECTED => "[Stacksio] PIR Rejected: " +:+ template title
  | _ => "[Stacksio] PIR Status Update: " +:+ template title
  end.

(** The message is represented by its recipients and its subject. *)
Definition sendPIRStatusUpdateEmail (status : PIRStatus) (pir : Obj)
    (toEmails : list (option Value)) : M unit :=
  match toEmails with
  | [] =>
      (* Skip if no recipients *)
      console_log LogInfo "No recipients for PIR status update email" None
  | _ =>
      let subject := status_subject status (field pir "title") in
      try_catch
        (emit (EvSendMail toEmails subject);;
         external (OpSendMail toEmails);;
         console_log LogInfo
           ("PIR status update email sent to " +:+ join_emails toEmails) None)
        (fun error =>
           console_log LogError "Error sending PIR status update email:" (Some error);;
           throw error)
  end.

(** The message is represented by its recipient and its subject. *)
Definition sendNewQuestionEmail (pir : Obj) (toEmail : option Value) : M unit :=
  let subject := "[Stacksio] New Question Added to PIR: " +:+ template (field pir "title") in
  try_catch
    (emit (EvSendMail [toEmail] subject);;
     external (OpSendMail [toEmail]);;
     console_log LogInfo ("New question email sent to " +:+ template toEmail) None)
    (fun error =>
       console_log LogError "Error sending new question email:" (Some error);;
       throw error).

Definition sendNewAnswerEmail (pir : Obj) (toEmail : option Value) : M unit :=
  let subject := "[Stacksio] New Answer for PIR: " +:+ template (field pir "title") in
  try_catch
    (emit (EvSendMail [toEmail] subject);;
     external (OpSendMail [toEmail]);;
     console_log LogInfo ("New answer email sent to " +:+ template toEmail) None)
    (fun error =>
       console_log LogError "Error sending new answer email:" (Some error);;
       throw error).

End emailNotifications.

(** ** [functions/src/index.ts] *)

Module functionsIndex.

Definition invalid_document_path : JsError :=
  Error "Value for argument documentPath is not a valid resource path. Path must be a non-empty string.".

(** [db.collection(c).doc(id).get()] followed by [.data()], with the admin
    SDK: the path must be a non-empty string. *)
Definition adminDocData (c : string) (id : option Value) : M (option Obj) :=
  match id with
  | Some (VStr s) =>
      if String.eqb s EmptyString then throw invalid_document_path
      else gets (fun w => coll w c !! s)
  | _ => throw invalid_document_path
  end.

(** The status a [switch] over the [PIRStatus] cases selects. *)
Definition status_case (v : option Value) : option PIRStatus :=
  List.find (fun s => strict_eq v (Some (status_val s)))
    [DRAFT; REQUESTED; SUBMITTED; REVIEWED; ACCEPTED; REJECTED].

(** [x?.email] *)
Definition email_of (user : option Obj) : option Value :=
  match user with
  | Some u => field u "email"
  | None => None
  end.

(** [xs.filter(Boolean)] *)
Definition filter_Boolean (xs : list (option Value)) : list (option Value) :=
  List.filter truthy xs.

Definition onPIRStatusChange (beforeData afterData : Obj) (pirId : string) : M unit :=
  (* Skip if status hasn't changed *)
  if strict_eq (field beforeData "status") (field afterData "status") then mret tt
  else
    (* Get user data for sending emails *)
    requester ← adminDocData "users" (field afterData "requesterId");
    responder ←
      (if truthy (field afterData "assignedResponderId")
       then adminDocData "users" (field afterData "assignedResponderId")
       else mret None);
    reviewer ←
      (if truthy (field afterData "reviewerId")
       then adminDocData "users" (field afterData "reviewerId")
       else mret None);
    (* Get admins *)
    adminsSnapshot ← getDocs_where "users" "role" (VStr "admin");
    let adminEmails := (fun d : string * Obj => field d.2 "email") <$> adminsSnapshot in
    let pir : Obj :=
      {[ "id" := VStr pirId;
         "title" := or_undefined (field afterData "title");
         "description" := or_undefined (field afterData "description");
         "productName" := or_undefined (field afterData "productName");
         "requesterName" := or_undefined (field afterData "requesterName") ]} in
    try_catch
      (match status_case (field afterData "status") with
       | Some REQUESTED =>
           (* Notify responders and admins about a new request *)
           emailNotifications.sendPIRStatusUpdateEmail REQUESTED pir
             (match responder with
              | Some r => field r "email" :: adminEmails
              | None => adminEmails
              end)
       | Some SUBMITTED =>
           (* Notify reviewer and requester *)
           match reviewer with
           | Some rv =>
               emailNotifications.sendPIRStatusUpdateEmail SUBMITTED pir
                 (filter_Boolean ([field rv "email"; email_of requester] ++ adminEmails))
           | None => mret tt
           end
       | Some REVIEWED =>
           (* Notify requester and responder *)
           emailNotifications.sendPIRStatusUpdateEmail REVIEWED pir
             (filter_Boolean [email_of requester; email_of responder])
       | Some ACCEPTED =>
           (* Notify requester and responder about final decision *)
           emailNotifications.sendPIRStatusUpdateEmail ACCEPTED pir
             (filter_Boolean [email_of requester; email_of responder])
       | Some REJECTED =>
           emailNotifications.sendPIRStatusUpdateEmail REJECTED pir
             (filter_Boolean [email_of requester; email_of responder])
       | _ =>
           console_log LogInfo
             ("No notification configured for status: "
                +:+ template (field afterData "status")) None
       end)
      (fun error =>
         console_log LogError "Error sending PIR status update notification:" (Some error)).

(** [v.toDate()]: a [TypeError] unless [v] is a [Timestamp]. *)
Definition toDate (v : option Value) : M Value :=
  match v with
  | Some (VTimestamp ms) => mret (VDate ms)
  | _ => throw type_error
  end.

(** The [pir] object handed to the two senders below. *)
Definition mail_pir (pirId : option Value) (pirData : Obj) : Obj :=
  {[ "id" := or_undefined pirId;
     "title" := or_undefined (field pirData "title");
     "productName" := or_undefined (field pirData "productName") ]}.

Definition onNewQuestion (questionData : Obj) (questionId : string) : M unit :=
  let pirId := field questionData "pirId" in
  try_catch
    ((* Get the PIR *)
     pirData ← adminDocData "pirs" pirId;
     match pirData with
     | None =>
         console_log LogInfo ("PIR not found for question: " +:+ questionId) None
     | Some pirData =>
         (* Get the responder if assigned *)
         responderEmail ←
           (if truthy (field pirData "assignedResponderId")
            then
              responder ← adminDocData "users" (field pirData "assignedResponderId");
              mret (email_of responder)
            else mret None);
         if truthy responderEmail
         then
           toDate (field questionData "createdAt");;
           emailNotifications.sendNewQuestionEmail (mail_pir pirId pirData) responderEmail
         else mret tt
     end)
    (fun error =>
       console_log LogError "Error sending new question notification:" (Some error)).

Definition onNewAnswer (answerData : Obj) (answerId : string) : M unit :=
  let pirId := field answerData "pirId" in
  let questionId := field answerData "questionId" in
  try_catch
    ((* Get the PIR *)
     pirData ← adminDocData "pirs" pirId;
     match pirData with
     | None =>
         console_log LogInfo ("PIR not found for answer: " +:+ answerId) None
     | Some pirData =>
         (* Get the question *)
         questionData ← adminDocData "questions" questionId;
         match questionData with
         | None =>
             console_log LogInfo ("Question not found for answer: " +:+ answerId) None
         | Some questionData =>
             (* Get the requester *)
             requester ← adminDocData "users" (field pirData "requesterId");
             if truthy (email_of requester)
             then
               toDate (field answerData "createdAt");;
               emailNotifications.sendNewAnswerEmail (mail_pir pirId pirData)
                 (email_of requester)
             else mret tt
         end
     end)
    (fun error =>
       console_log LogError "Error sending new answer notification:" (Some error)).

End functionsIndex.

(** ** The specification's tables *)

Module Spec.

(** Section 4.1: the allowed transitions. *)
Definition transition_table : list (PIRStatus * PIRStatus) :=
  [ (DRAFT, REQUESTED); (REQUESTED, SUBMITTED); (SUBMITTED, REVIEWED);
    (REVIEWED, ACCEPTED); (REVIEWED, REJECTED) ].

Definition allowed (from to : PIRStatus) : Prop := (from, to) ∈ transition_table.

Definition is_admin (user : Obj) : Prop := field user "role" = Some (role_val ADMIN).
Definition is_reviewer_role (user : Obj) : Prop :=
  field user "role" = Some (role_val REVIEWER).
Definition is_requester (user pir : Obj) : Prop :=
  field user "id" = field pir "requesterId".
Definition is_assigned_responder (user pir : Obj) : Prop :=
  field user "id" = field pir "assignedResponderId".
Definition is_pir_reviewer (user pir : Obj) : Prop :=
  field user "id" = field pir "reviewerId".
Definition has_status (pir : Obj) (s : PIRStatus) : Prop :=
  field pir "status" = Some (status_val s).

(** Section 4.1: the permitted actor of each transition of the table. *)
Definition permitted_actor (from to : PIRStatus) (user pir : Obj) : Prop :=
  match from, to with
  | DRAFT, REQUESTED => is_admin user ∨ is_requester user pir
  | REQUESTED, SUBMITTED => is_admin user ∨ is_assigned_responder user pir
  | SUBMITTED, REVIEWED => is_admin user ∨ is_reviewer_role user
  | REVIEWED, ACCEPTED => is_admin user ∨ is_pir_reviewer user pir
  | REVIEWED, REJECTED => is_admin user ∨ is_pir_reviewer user pir
  | _, _ => False
  end.

(** Section 3: the lifecycle timestamp of each status. *)
Definition lifecycle_stamp (s : PIRStatus) : option string :=
  match s with
  | SUBMITTED => Some "submittedAt"
  | REVIEWED => Some "reviewedAt"
  | ACCEPTED => Some "acceptedAt"
  | REJECTED => Some "rejectedAt"
  | DRAFT | REQUESTED => None
  end.

Definition lifecycle_stamps : list string :=
  ["submittedAt"; "reviewedAt"; "acceptedAt"; "rejectedAt"].

(** Section 4.3: the permission resolver. *)
Inductive Action : Type := Edit | Request | Submit | Review | AcceptReject.

#[global] Instance Action_eq_dec : EqDecision Action.
Proof. solve_decision. Defined.

Definition permits (user pir : Obj) (a : Action) : Prop :=
  match a with
  | Edit => is_admin user ∨ (is_requester user pir ∧ has_status pir DRAFT)
  | Request => has_status pir DRAFT ∧ (is_admin user ∨ is_requester user pir)
  | Submit => has_status pir REQUESTED ∧ (is_admin user ∨ is_assigned_responder user pir)
  | Review => has_status pir SUBMITTED ∧ (is_admin user ∨ is_reviewer_role user)
  | AcceptReject => has_status pir REVIEWED ∧ (is_admin user ∨ is_pir_reviewer user pir)
  end.

#[global] Instance permits_dec user pir a : Decision (permits user pir a).
Proof.
  destruct a; unfold permits, is_admin, is_requester, is_assigned_responder,
    is_reviewer_role, is_pir_reviewer, has_status; apply _.
Defined.

Definition resolveActions (user pir : Obj) : list Action :=
  filter (permits user pir) [Edit; Request; Submit; Review; AcceptReject].

End Spec.

(** ** Concrete data used by the examples *)

Module Example.

Definition no_fault : ExternalOp -> option JsError := fun _ => None.

Definition url (path : string) : string := "https://storage.test/" +:+ path.

Definition app0 : AppState :=
  {| currentUser := None; isAuthenticated := false; isLoading := false;
     authError := None; pirs := []; selectedPIR := None; error := None;
     questions := []; isLoadingQuestions := false; questionError := None |}.

Definition ui0 : PIRDetailState := {| isUpdating := false; localError := None |}.

(** A world around a database, with collaborators that never fail. *)
Definition world (d : gmap string (gmap string Obj)) : World :=
  {| db := d; storage := ∅; serverTime := 1700000000000; clientTime := 1700000000123;
     fault := no_fault; downloadUrl := url; authCurrentUser := None;
     console := []; trace := []; app := app0; ui := ui0 |}.

(** A blob store that refuses every call. *)
Definition storage_down (op : ExternalOp) : option JsError :=
  match op with
  | OpSendMail _ => None
  | _ => Some (Error "storage/unknown")
  end.

Definition world_storage_down (d : gmap string (gmap string Obj)) : World :=
  {| db := d; storage := ∅; serverTime := 1700000000000; clientTime := 1700000000123;
     fault := storage_down; downloadUrl := url; authCurrentUser := None;
     console := []; trace := []; app := app0; ui := ui0 |}.

Definition spec_pdf : File :=
  {| file_name := "spec.pdf"; file_type := "application/pdf"; file_size := 2048 |}.

Definition stored_attachment : Obj :=
  {[ "fileName" := VStr "spec.pdf"; "fileType" := VStr "application/pdf";
     "fileSize" := VNum 2048; "uploadedBy" := VStr "u-alice";
     "uploadedAt" := VTimestamp 1650000000000; "parentId" := VStr "p1";
     "parentType" := VStr "pir";
     "downloadUrl" := VStr "https://storage.test/attachments/pir/p1/1_spec.pdf" ]}.

Definition user (id name : string) (r : UserRole) : Obj :=
  {[ "id" := VStr id; "email" := VStr (id +:+ "@stacksio.test");
     "displayName" := VStr name; "role" := role_val r ]}.

Definition alice : Obj := user "u-alice" "Alice" REQUESTER.
Definition bob : Obj := user "u-bob" "Bob" RESPONDER.
Definition rita : Obj := user "u-rita" "Rita" REVIEWER.
Definition ada : Obj := user "u-ada" "Ada" ADMIN.

Definition users : gmap string Obj :=
  {[ "u-alice" := alice; "u-bob" := bob; "u-rita" := rita; "u-ada" := ada ]}.

(** A stored PIR of Alice in the given status. *)
Definition pir (s : PIRStatus) : Obj :=
  {[ "title" := VStr "Battery data sheet";
     "description" := VStr "Chemistry and capacity";
     "status" := status_val s;
     "requesterId" := VStr "u-alice";
     "requesterName" := VStr "Alice";
     "productName" := VStr "Cell 18650";
     "productCategory" := VStr "Batteries";
     "createdAt" := VTimestamp 1600000000000;
     "updatedAt" := VTimestamp 1600000000000;
     "tags" := VArr [];
     "questionIds" := VArr [];
     "attachmentIds" := VArr [] ]}.

(** Bob, a responder, looks at a Reviewed PIR whose reviewer is Rita. *)
Definition denied_world : World :=
  with_app (set_pirs [] (Some (with_id "p1"
      (<["reviewerId" := VStr "u-rita"]> (pir REVIEWED)))) false)
    (with_app (set_user (Some bob) true false)
       (world {[ "pirs" :=
          {[ "p1" := <["reviewerId" := VStr "u-rita"]> (pir REVIEWED) ]} ]})).

(** Rita, a reviewer, is signed in and a Submitted PIR is stored. *)
Definition review_world : World :=
  with_app (set_user (Some rita) true false)
    (world {[ "pirs" := {[ "p1" := pir SUBMITTED ]} ]}).

(** A question for the PIR "p1". *)
Definition battery_question : Obj :=
  {[ "pirId" := VStr "p1"; "text" := VStr "Which chemistry?";
     "category" := VStr "Safety"; "required" := VBool true;
     "createdAt" := VDate 1700000000100; "updatedAt" := VDate 1700000000100;
     "createdBy" := VStr "u-alice"; "attachmentIds" := VArr [] ]}.

(** A PIR with responder Bob and reviewer Rita assigned. *)
Definition submitted_pir (s : PIRStatus) : Obj :=
  <["reviewerId" := VStr "u-rita"]>
    (<["assignedResponderId" := VStr "u-bob"]> (pir s)).

(** A tag. *)
Definition urgent : Obj := {[ "name" := VStr "Urgent"; "color" := VStr "red" ]}.

End Example.

(** ** Notions used in the statements *)

(** The world after a successful [updatePIRStatus]. *)
Definition status_updated (id : string) (status : PIRStatus) (additionalData d : Obj)
    (w : World) : World :=
  put_doc pirRepository.COLLECTION_NAME id
    (write_merge (serverTime w) d (pirRepository.status_updates status additionalData))
    (with_trace (fun t => t ++ [EvUpdateDoc pirRepository.COLLECTION_NAME id]) w).

(** The first claim, as the specification states it: a status update whose
    pair of statuses is not in the table fails and leaves the stored PIR as it
    was.  (Which error is raised is left open here.) *)
Definition invalid_transition_rejected : Prop :=
  forall (w : World) (id : string) (d additionalData : Obj) (from to : PIRStatus),
    coll w pirRepository.COLLECTION_NAME !! id = Some d ->
    Spec.has_status d from ->
    ~ Spec.allowed from to ->
    exists e w',
      pirRepository.updatePIRStatus id to additionalData w = (Throw e, w') /\
      coll w' pirRepository.COLLECTION_NAME !! id = Some d.

(** The additional data [handleStatusChange] builds for a user with an id
    and a display name. *)
Definition additionalData_of (to : PIRStatus) (uid uname : string) : Obj :=
  match to with
  | REVIEWED => <["reviewerName" := VStr uname]> (<["reviewerId" := VStr uid]> ∅)
  | _ => ∅
  end.

(** The document [loadUserData] writes for a user without one. *)
Definition defaultUserData (firebaseUser : FirebaseUser) : Obj :=
  {[ "id" := VStr (uid firebaseUser);
     "email" := VStr (default EmptyString (fb_email firebaseUser));
     "displayName" := VStr (default EmptyString (fb_displayName firebaseUser));
     "role" := role_val REQUESTER ]}.

(** The warning [deleteAttachment] logs when the blob delete fails. *)
Definition storage_warning (e : JsError) : LogEntry :=
  {| level := LogWarn;
     text := "Error deleting file from storage, continuing with document deletion:";
     detail := Some e |}.

(** The world after the inner [try] of [deleteAttachment]. *)
Definition after_blob_delete (locator : option Value) (w : World) : World :=
  let w1 := with_trace (fun t => t ++ [EvDeleteObject locator]) w in
  match fault w (OpDeleteObject locator) with
  | Some e => with_console (fun c => c ++ [storage_warning e]) w1
  | None =>
      with_storage (filter (fun b : string * File =>
        locator ≠ Some (VStr b.1) /\ locator ≠ Some (VStr (downloadUrl w b.1)))) w1
  end.

(** The data [addQuestionToPIR] hands to [updateDoc]. *)
Definition question_link (questionId : string) : Obj :=
  {[ "questionIds" := VArrayUnion [questionId]; "updatedAt" := VServerTimestamp ]}.

(** The fifth claim, as the specification states it: creating a Question
    under a stored PIR puts the new Question's id into the PIR's
    [questionIds]. *)
Definition question_registered_on_create : Prop :=
  forall (w w' : World) (question newQuestion p : Obj) (pirId : string),
    coll w pirRepository.COLLECTION_NAME !! pirId = Some p ->
    field question "pirId" = Some (VStr pirId) ->
    questionRepository.createQuestion question w = (Ok newQuestion, w') ->
    exists questionId p',
      field newQuestion "id" = Some (VStr questionId) /\
      coll w' pirRepository.COLLECTION_NAME !! pirId = Some p' /\
      questionId ∈ as_array (p' !! "questionIds").

(** The schema of the tags collection: a name, when present, is a string. *)
Definition name_is_string (d : Obj) : bool :=
  match d !! "name" with
  | Some (VStr _) | None => true
  | Some _ => false
  end.

Definition tags_typed (w : World) : Prop :=
  map_Forall (fun _ d => name_is_string d = true) (coll w tagRepository.COLLECTION_NAME).

(** A string of ASCII characters. *)
Definition is_ascii_char (c : ascii) : bool := (nat_of_ascii c <? 128)%nat.

Fixpoint is_ascii (s : string) : bool :=
  match s with
  | EmptyString => true
  | String c s' => is_ascii_char c && is_ascii s'
  end.

(** What is assumed of [String.prototype.toLowerCase]: on a string of ASCII
    characters it folds the letters [A] to [Z] and changes nothing else. *)
Definition folds_ascii (toLowerCase : string -> string) : Prop :=
  forall s, is_ascii s = true -> toLowerCase s = fold_ascii s.

(** Two characters are the same letter: they are equal, or one is a capital
    from [A] to [Z] and the other the small letter of it. *)
Definition is_capital (c : ascii) : bool :=
  ((65 <=? nat_of_ascii c) && (nat_of_ascii c <=? 90))%nat.

Definition same_letter (a b : ascii) : bool :=
  Ascii.eqb a b ||
  (is_capital a && (nat_of_ascii b =? nat_of_ascii a + 32)%nat) ||
  (is_capital b && (nat_of_ascii a =? nat_of_ascii b + 32)%nat).

(** Two strings are equal up to the case of their letters. *)
Fixpoint caseless_eq (s t : string) : bool :=
  match s, t with
  | EmptyString, EmptyString => true
  | String a s', String b t' => same_letter a b && caseless_eq s' t'
  | _, _ => false
  end.

(** [sub] occurs in [s] up to the case of the letters. *)
Fixpoint caseless_prefix (sub s : string) : bool :=
  match sub, s with
  | EmptyString, _ => true
  | String a sub', String b s' => same_letter a b && caseless_prefix sub' s'
  | String _ _, EmptyString => false
  end.

Fixpoint caseless_includes (s sub : string) : bool :=
  caseless_prefix sub s ||
  match s with
  | EmptyString => false
  | String _ s' => caseless_includes s' sub
  end.

(** The stored tag [d] has the name [n], ignoring case: the test of
    [createTag], [a.toLowerCase() === b.toLowerCase()]. *)
Definition same_name (toLowerCase : string -> string) (n : string) (d : Obj) : bool :=
  match d !! "name" with
  | Some (VStr m) => String.eqb (toLowerCase m) (toLowerCase n)
  | _ => false
  end.

Definition is_string (v : Value) : bool :=
  match v with
  | VStr _ => true
  | _ => false
  end.

(** The fields of a [Tag] are strings. *)
Definition tag_strings (tag : Obj) : Prop :=
  map_Forall (fun _ v => is_string v = true) tag.

(** What [getAllTags] returns. *)
Definition all_tags (w : World) : list Obj :=
  (fun d : string * Obj => with_id d.1 d.2) <$>
    merge_sort (doc_le "name")
      (filter (fun d : string * Obj => is_Some (d.2 !! "name"))
         (map_to_list (coll w tagRepository.COLLECTION_NAME))).

(** The name of a tag object whose name is a string. *)
Definition name_of (t : Obj) : string :=
  match field t "name" with
  | Some (VStr s) => s
  | _ => EmptyString
  end.

(** The tag [createTag] finds for the name [n]: the first tag, in the order
    of [getAllTags], with that name up to case. *)
Definition exact_match (toLowerCase : string -> string) (n : string) (w : World)
    : option Obj :=
  List.find (fun t => String.eqb (toLowerCase (name_of t)) (toLowerCase n)) (all_tags w).

(** The entry [createTag] logs when the tag exists. *)
Definition exists_log (tag : Obj) : LogEntry :=
  {| level := LogInfo;
     text := "Tag with name " +:+ tagRepository.dquote +:+ template (field tag "name")
               +:+ tagRepository.dquote
               +:+ " already exists.";
     detail := None |}.

(** The [switch] of [handleStatusChange] refuses the new status. *)
Definition denied (newStatus : PIRStatus) (currentUser selectedPIR : Obj) : bool :=
  match newStatus with
  | ACCEPTED | REJECTED =>
      negb (PIRDetail.is_role currentUser ADMIN) &&
      negb (strict_eq (field selectedPIR "reviewerId") (field currentUser "id"))
  | _ => false
  end.

(** The object [createPIR] returns, before the id is added, and the data it
    hands to [addDoc]. *)
Definition pir_defaults (pir : Obj) (now : Value) : Obj :=
  <["tags" := or_else (field pir "tags") (VArr [])]>
    (<["attachmentIds" := or_else (field pir "attachmentIds") (VArr [])]>
       (<["questionIds" := or_else (field pir "questionIds") (VArr [])]>
          (<["updatedAt" := now]> (<["createdAt" := now]> pir)))).

Definition pir_record (pir : Obj) (now : Value) : Obj :=
  <["updatedAt" := VServerTimestamp]>
    (<["createdAt" := VServerTimestamp]> (convertDatesToTimestamps (pir_defaults pir now))).

(** The data [updatePIR] hands to [updateDoc]. *)
Definition updatesWithTimestamp (updates : Obj) : Obj :=
  <["updatedAt" := VServerTimestamp]> (convertDatesToTimestamps updates).

(** The three list fields of a PIR. *)
Definition list_fields : list string := ["tags"; "attachmentIds"; "questionIds"].

(** The object [createQuestion] returns, before the id is added, and the
    data it hands to [addDoc]. *)
Definition question_defaults (question : Obj) (now : Value) : Obj :=
  <["attachmentIds" := or_else (field question "attachmentIds") (VArr [])]>
    (<["updatedAt" := now]> (<["createdAt" := now]> question)).

Definition question_record (question : Obj) (now : Value) : Obj :=
  <["updatedAt" := VServerTimestamp]>
    (<["createdAt" := VServerTimestamp]>
       (convertDatesToTimestamps (question_defaults question now))).

(** The ids [ids] are new in [w] and hold a document in [w']. *)
Definition created_in (c : string) (ids : list string) (w w' : World) : Prop :=
  NoDup ids /\
  Forall (fun id => coll w c !! id = None /\ is_Some (coll w' c !! id)) ids /\
  (forall id, id ∉ ids -> coll w' c !! id = coll w c !! id) /\
  (forall c', c' ≠ c -> coll w' c' = coll w c').

(** The tags [searchTagsByName] returns for the term [n] over typed tags. *)
Definition matching_tags (toLowerCase : string -> string) (n : string) (w : World)
    : list Obj :=
  List.filter (fun t => includes (toLowerCase (name_of t)) (toLowerCase n)) (all_tags w).

(** The data [uploadAttachment] hands to [addDoc]. *)
Definition attachment_record (attachmentData : Obj) : Obj :=
  <["uploadedAt" := VServerTimestamp]> (convertDatesToTimestamps attachmentData).

(** The world after a successful [uploadAttachment]. *)
Definition uploaded (path id : string) (file : File) (attachmentData : Obj) (w : World)
    : World :=
  put_doc attachmentRepository.COLLECTION_NAME id
    (write_new (serverTime w) (attachment_record attachmentData))
    (with_trace
       (fun t => t ++ [EvAddDoc attachmentRepository.COLLECTION_NAME id])
       (with_trace (fun t => t ++ [EvGetDownloadURL path])
          (with_storage (fun s => <[path := file]> s)
             (with_trace (fun t => t ++ [EvUploadBytes path]) w)))).

(** The four required fields of the form are filled in. *)
Definition form_complete (formData : Obj) : bool :=
  truthy (field formData "title") && truthy (field formData "description") &&
  truthy (field formData "productName") && truthy (field formData "productCategory").

(** From [w] to [w'] nothing was written, and at most one mail, to a single
    recipient, was handed to the mail transport. *)
Definition at_most_one_mail (w w' : World) : Prop :=
  db w' = db w /\
  (trace w' = trace w \/
   exists to subject, trace w' = trace w ++ [EvSendMail [to] subject]).

Definition question_subject (pirData : Obj) : string :=
  "[Stacksio] New Question Added to PIR: " +:+ template (field pirData "title").

Definition answer_subject (pirData : Obj) : string :=
  "[Stacksio] New Answer for PIR: " +:+ template (field pirData "title").

(** An id field as the triggers expect it: absent, or a string. *)
Definition id_or_absent (v : option Value) : Prop :=
  v = None \/ exists s, v = Some (VStr s).

(** The recipients of the mail about a review or a decision. *)
Definition decision_recipients (w : World) (afterData : Obj) : list (option Value) :=
  functionsIndex.filter_Boolean
    [ functionsIndex.email_of
        (coll w "users" !! template (field afterData "requesterId"));
      if truthy (field afterData "assignedResponderId")
      then functionsIndex.email_of
             (coll w "users" !! template (field afterData "assignedResponderId"))
      else None ].

(** * Properties *)

(** ** The monad *)

Lemma bind_Ok {A B : Type} (m : M A) (f : A -> M B) (w w' : World) (a : A) :
  m w = (Ok a, w') -> (m ≫= f) w = f a w'.
Proof. intros H. unfold mbind, M_bind. by rewrite H. Qed.

Lemma bind_Throw {A B : Type} (m : M A) (f : A -> M B) (w w' : World) (e : JsError) :
  m w = (Throw e, w') -> (m ≫= f) w = (Throw e, w').
Proof. intros H. unfold mbind, M_bind. by rewrite H. Qed.

(** Run the first action of a sequence whose outcome [tac] establishes. *)
Ltac run_bind tac := (erewrite bind_Ok; [| tac]); cbv beta iota.
Ltac run_throw tac := (erewrite bind_Throw; [| tac]); cbv beta iota.

(** Decide a closed decidable statement, an equation mostly, by evaluation. *)
Ltac compute_eq := apply (bool_decide_unpack _); vm_compute; exact I.

(** ** The permission predicates *)

Lemma strict_eq_true (a b : option Value) : strict_eq a b = true <-> a = b.
Proof. unfold strict_eq. apply bool_decide_eq_true. Qed.

Lemma is_role_true (u : Obj) (r : UserRole) :
  PIRDetail.is_role u r = true <-> field u "role" = Some (role_val r).
Proof. apply strict_eq_true. Qed.

Lemma is_status_true (p : Obj) (s : PIRStatus) :
  PIRDetail.is_status p s = true <-> Spec.has_status p s.
Proof. apply strict_eq_true. Qed.

Lemma canEdit_permits (u p : Obj) :
  PIRDetail.canEdit (Some u) p = true <-> Spec.permits u p Spec.Edit.
Proof.
  unfold PIRDetail.canEdit. simpl.
  rewrite orb_true_iff, andb_true_iff, is_role_true, is_status_true, strict_eq_true.
  reflexivity.
Qed.

Lemma canRequest_permits (u p : Obj) :
  PIRDetail.canRequest (Some u) p = true <-> Spec.permits u p Spec.Request.
Proof.
  unfold PIRDetail.canRequest. simpl.
  rewrite andb_true_iff, orb_true_iff, is_role_true, is_status_true, strict_eq_true.
  reflexivity.
Qed.

Lemma canSubmit_permits (u p : Obj) :
  PIRDetail.canSubmit (Some u) p = true <-> Spec.permits u p Spec.Submit.
Proof.
  unfold PIRDetail.canSubmit. simpl.
  rewrite andb_true_iff, orb_true_iff, is_role_true, is_status_true, strict_eq_true.
  reflexivity.
Qed.

Lemma canReview_permits (u p : Obj) :
  PIRDetail.canReview (Some u) p = true <-> Spec.permits u p Spec.Review.
Proof.
  unfold PIRDetail.canReview. simpl.
  rewrite andb_true_iff, orb_true_iff, !is_role_true, is_status_true.
  reflexivity.
Qed.

Lemma canAcceptReject_permits (u p : Obj) :
  PIRDetail.canAcceptReject (Some u) p = true <-> Spec.permits u p Spec.AcceptReject.
Proof.
  unfold PIRDetail.canAcceptReject. simpl.
  rewrite andb_true_iff, orb_true_iff, is_role_true, is_status_true, strict_eq_true.
  reflexivity.
Qed.

Lemma resolveActions_permits (u p : Obj) (a : Spec.Action) :
  a ∈ Spec.resolveActions u p <-> Spec.permits u p a.
Proof.
  unfold Spec.resolveActions. rewrite list_elem_of_filter.
  split; [tauto |]. intros H. split; [done |].
  destruct a; repeat first [apply list_elem_of_here | apply list_elem_of_further].
Qed.

(** C4: for every user and every PIR, each action is in the set
    [resolveActions user pir] of section 4.3 exactly when the predicate of
    [PIRDetail] for that action holds: [Edit] and [canEdit], [Request] and
    [canRequest], [Submit] and [canSubmit], [Review] and [canReview],
    [AcceptReject] and [canAcceptReject]. *)
Theorem resolveActions_canX (user pir : Obj) :
  (Spec.Edit ∈ Spec.resolveActions user pir <->
     PIRDetail.canEdit (Some user) pir = true) /\
  (Spec.Request ∈ Spec.resolveActions user pir <->
     PIRDetail.canRequest (Some user) pir = true) /\
  (Spec.Submit ∈ Spec.resolveActions user pir <->
     PIRDetail.canSubmit (Some user) pir = true) /\
  (Spec.Review ∈ Spec.resolveActions user pir <->
     PIRDetail.canReview (Some user) pir = true) /\
  (Spec.AcceptReject ∈ Spec.resolveActions user pir <->
     PIRDetail.canAcceptReject (Some user) pir = true).
Proof.
  rewrite !resolveActions_permits.
  rewrite canEdit_permits, canRequest_permits, canSubmit_permits,
    canReview_permits, canAcceptReject_permits.
  tauto.
Qed.

(** ** Firestore writes *)

Lemma coll_put_doc_eq (c id : string) (d : Obj) (w : World) :
  coll (put_doc c id d w) c !! id = Some d.
Proof.
  unfold coll, put_doc. simpl. rewrite lookup_insert_eq. simpl.
  apply lookup_insert_eq.
Qed.

Lemma coll_put_doc_ne (c id id' : string) (d : Obj) (w : World) :
  id ≠ id' -> coll (put_doc c id d w) c !! id' = coll w c !! id'.
Proof.
  intros Hne. unfold coll, put_doc. simpl. rewrite lookup_insert_eq. simpl.
  by rewrite lookup_insert_ne.
Qed.

Lemma coll_put_doc_other (c c' id : string) (d : Obj) (w : World) :
  c ≠ c' -> coll (put_doc c id d w) c' = coll w c'.
Proof.
  intros Hne. unfold coll, put_doc. simpl. by rewrite lookup_insert_ne.
Qed.

Lemma write_merge_lookup (now : Z) (old updates : Obj) (k : string) :
  write_merge now old updates !! k =
    match updates !! k with
    | Some v => Some (resolve now (old !! k) v)
    | None => old !! k
    end.
Proof.
  unfold write_merge. rewrite lookup_union, map_lookup_imap.
  destruct (updates !! k) as [v|]; simpl.
  - by destruct (old !! k).
  - by destruct (old !! k).
Qed.

Lemma has_undefined_false (data : Obj) :
  has_undefined data = false <-> forall k, data !! k ≠ Some VUndefined.
Proof.
  unfold has_undefined. rewrite bool_decide_eq_false. split.
  - intros H k Hk. apply H. exists k, VUndefined. done.
  - intros H (k & v & Hk & ->). by apply (H k).
Qed.

Lemma updateDoc_ok (c id : string) (updates d : Obj) (w : World) :
  has_undefined updates = false ->
  coll w c !! id = Some d ->
  updateDoc c id updates w =
    (Ok tt, put_doc c id (write_merge (serverTime w) d updates)
              (with_trace (fun t => t ++ [EvUpdateDoc c id]) w)).
Proof.
  intros Hu Hd. unfold updateDoc. rewrite Hu.
  unfold mbind, M_bind, emit, modify, getDoc, gets. simpl.
  change (coll (with_trace (fun t => t ++ [EvUpdateDoc c id]) w) c) with (coll w c).
  by rewrite Hd.
Qed.

Lemma updateDoc_missing (c id : string) (updates : Obj) (w : World) :
  has_undefined updates = false ->
  coll w c !! id = None ->
  updateDoc c id updates w =
    (Throw no_document_to_update, with_trace (fun t => t ++ [EvUpdateDoc c id]) w).
Proof.
  intros Hu Hd. unfold updateDoc. rewrite Hu.
  unfold mbind, M_bind, emit, modify, getDoc, gets. simpl.
  change (coll (with_trace (fun t => t ++ [EvUpdateDoc c id]) w) c) with (coll w c).
  by rewrite Hd.
Qed.

(** ** [updatePIRStatus] *)

Lemma status_updates_status (status : PIRStatus) (additionalData : Obj) :
  pirRepository.status_updates status additionalData !! "status" =
    Some (default (status_val status) (additionalData !! "status")).
Proof.
  unfold pirRepository.status_updates.
  destruct status; simplify_map_eq; rewrite lookup_union;
    destruct (additionalData !! "status"); by simplify_map_eq.
Qed.

Lemma status_updates_updatedAt (status : PIRStatus) (additionalData : Obj) :
  pirRepository.status_updates status additionalData !! "updatedAt" =
    Some (default VServerTimestamp (additionalData !! "updatedAt")).
Proof.
  unfold pirRepository.status_updates.
  destruct status; simplify_map_eq; rewrite lookup_union;
    destruct (additionalData !! "updatedAt"); by simplify_map_eq.
Qed.

Lemma status_updates_stamp (status : PIRStatus) (additionalData : Obj) (k : string) :
  Spec.lifecycle_stamp status = Some k ->
  pirRepository.status_updates status additionalData !! k = Some VServerTimestamp.
Proof.
  unfold pirRepository.status_updates.
  destruct status; simpl; intros [= <-]; by simplify_map_eq.
Qed.

Lemma status_updates_other (status : PIRStatus) (additionalData : Obj) (k : string) :
  k ≠ "status" -> k ≠ "updatedAt" -> Spec.lifecycle_stamp status ≠ Some k ->
  pirRepository.status_updates status additionalData !! k = additionalData !! k.
Proof.
  intros H1 H2 H3. unfold pirRepository.status_updates.
  assert ((additionalData ∪ ({[ "status" := status_val status;
             "updatedAt" := VServerTimestamp ]} : Obj)) !! k = additionalData !! k) as Hu.
  { rewrite lookup_union. destruct (additionalData !! k); by simplify_map_eq. }
  destruct status; simpl in H3; try done;
    rewrite lookup_insert_ne; try done; congruence.
Qed.

Lemma status_updates_defined (status : PIRStatus) (additionalData : Obj) :
  has_undefined additionalData = false ->
  has_undefined (pirRepository.status_updates status additionalData) = false.
Proof.
  rewrite !has_undefined_false. intros H k Hk.
  destruct (decide (k = "status")) as [->|H1].
  { rewrite status_updates_status in Hk.
    destruct (additionalData !! "status") eqn:E; simpl in Hk; [|done].
    apply (H "status"). congruence. }
  destruct (decide (k = "updatedAt")) as [->|H2].
  { rewrite status_updates_updatedAt in Hk.
    destruct (additionalData !! "updatedAt") eqn:E; simpl in Hk; [|done].
    apply (H "updatedAt"). congruence. }
  destruct (decide (Spec.lifecycle_stamp status = Some k)) as [H3|H3].
  { by rewrite (status_updates_stamp _ _ _ H3) in Hk. }
  rewrite status_updates_other in Hk by done. by apply (H k).
Qed.

Lemma updatePIRStatus_ok (id : string) (status : PIRStatus) (additionalData d : Obj)
    (w : World) :
  has_undefined additionalData = false ->
  coll w pirRepository.COLLECTION_NAME !! id = Some d ->
  pirRepository.updatePIRStatus id status additionalData w =
    (Ok (with_id id (convertTimestampsToDates
           (write_merge (serverTime w) d
              (pirRepository.status_updates status additionalData)))),
     status_updated id status additionalData d w).
Proof.
  intros Hu Hd. unfold pirRepository.updatePIRStatus, try_catch.
  run_bind ltac:(unfold getDoc, gets; by rewrite Hd).
  run_bind ltac:(apply updateDoc_ok; [by apply status_updates_defined | exact Hd]).
  fold (status_updated id status additionalData d w).
  run_bind ltac:(unfold getDoc, gets, status_updated; by rewrite coll_put_doc_eq).
  reflexivity.
Qed.

Lemma updatePIRStatus_missing (id : string) (status : PIRStatus) (additionalData : Obj)
    (w : World) :
  coll w pirRepository.COLLECTION_NAME !! id = None ->
  pirRepository.updatePIRStatus id status additionalData w =
    (Throw (pirRepository.pir_not_found id),
     with_console (fun c => c ++
       [{| level := LogError; text := "Error updating PIR status " +:+ id +:+ ":";
           detail := Some (pirRepository.pir_not_found id) |}]) w).
Proof.
  intros Hd. unfold pirRepository.updatePIRStatus, try_catch.
  run_bind ltac:(unfold getDoc, gets; by rewrite Hd).
  reflexivity.
Qed.

(** The repository function for arbitrary additional data: the fields the
    update does not name are kept, the lifecycle timestamp of the target
    status is the server time, and [status] and [updatedAt] are the target
    status and the server time unless the additional data names them, in
    which case the additional data wins (it is spread last). *)
Lemma updatePIRStatus_frame (w : World) (id : string) (status : PIRStatus)
    (additionalData d : Obj) :
  has_undefined additionalData = false ->
  coll w pirRepository.COLLECTION_NAME !! id = Some d ->
  let r := pirRepository.updatePIRStatus id status additionalData w in
  exists d',
    coll r.2 pirRepository.COLLECTION_NAME !! id = Some d' /\
    (forall k, Spec.lifecycle_stamp status = Some k ->
       d' !! k = Some (VTimestamp (serverTime w))) /\
    (additionalData !! "status" = None -> d' !! "status" = Some (status_val status)) /\
    (additionalData !! "updatedAt" = None ->
       d' !! "updatedAt" = Some (VTimestamp (serverTime w))) /\
    (forall v, additionalData !! "status" = Some v ->
       d' !! "status" = Some (resolve (serverTime w) (d !! "status") v)) /\
    (forall k, k ≠ "status" -> k ≠ "updatedAt" -> Spec.lifecycle_stamp status ≠ Some k ->
       additionalData !! k = None -> d' !! k = d !! k).
Proof.
  intros Hu Hd r. subst r.
  rewrite (updatePIRStatus_ok id status additionalData d w Hu Hd). cbn [fst snd].
  eexists. split; [apply coll_put_doc_eq |].
  split.
  { intros k Hk. by rewrite write_merge_lookup, (status_updates_stamp _ _ _ Hk). }
  split.
  { intros H. by rewrite write_merge_lookup, status_updates_status, H. }
  split.
  { intros H. by rewrite write_merge_lookup, status_updates_updatedAt, H. }
  split.
  { intros v H. by rewrite write_merge_lookup, status_updates_status, H. }
  intros k H1 H2 H3 H4.
  by rewrite write_merge_lookup, status_updates_other, H4.
Qed.

(** Additional data that names [status] overrides the target status: the
    handler never passes such data. *)
Example updatePIRStatus_additionalData_wins :
  let w := Example.world {[ "pirs" := {[ "p1" := Example.pir REQUESTED ]} ]} in
  let r := pirRepository.updatePIRStatus "p1" SUBMITTED {[ "status" := VStr "draft" ]} w in
  let d' := default ∅ (coll r.2 "pirs" !! "p1") in
  r.1 = Ok (with_id "p1" (convertTimestampsToDates d')) /\
  d' !! "status" = Some (VStr "draft") /\
  d' !! "submittedAt" = Some (VTimestamp 1700000000000).
Proof.
  intros w r d'. repeat split; compute_eq.
Qed.

Lemma not_allowed_accepted_draft : ~ Spec.allowed ACCEPTED DRAFT.
Proof.
  unfold Spec.allowed, Spec.transition_table. rewrite !elem_of_cons.
  intros H. repeat (destruct H as [H|H]; [discriminate H|]).
  by apply not_elem_of_nil in H.
Qed.

Lemma not_allowed_self (s : PIRStatus) : ~ Spec.allowed s s.
Proof.
  unfold Spec.allowed, Spec.transition_table. rewrite !elem_of_cons.
  intros H. repeat (destruct H as [H|H]; [by destruct s|]).
  by apply not_elem_of_nil in H.
Qed.

(** C1, counterexample: on a stored PIR in status Accepted,
    [updatePIRStatus "p1" DRAFT {}] succeeds and the stored document now has
    status Draft, although (Accepted, Draft) is not in the table; and the
    self-transition Draft to Draft on a Draft PIR succeeds as well.  So the
    claim that such updates fail and leave the document unmodified is false. *)
Lemma updatePIRStatus_accepts_invalid_transition :
  let w := Example.world {[ "pirs" := {[ "p1" := Example.pir ACCEPTED ]} ]} in
  let w0 := Example.world {[ "pirs" := {[ "p1" := Example.pir DRAFT ]} ]} in
  let r := pirRepository.updatePIRStatus "p1" DRAFT ∅ w in
  let r0 := pirRepository.updatePIRStatus "p1" DRAFT ∅ w0 in
  ~ Spec.allowed ACCEPTED DRAFT /\
  r.1 = Ok (<["id" := VStr "p1"]>
              (<["updatedAt" := VDate 1700000000000]>
                 (convertTimestampsToDates (Example.pir DRAFT)))) /\
  coll r.2 "pirs" !! "p1" =
    Some (<["updatedAt" := VTimestamp 1700000000000]> (Example.pir DRAFT)) /\
  r0.1 = r.1 /\
  coll r0.2 "pirs" !! "p1" =
    Some (<["updatedAt" := VTimestamp 1700000000000]> (Example.pir DRAFT)) /\
  ~ invalid_transition_rejected.
Proof.
  intros w w0 r r0.
  assert (r.1 = Ok (<["id" := VStr "p1"]>
              (<["updatedAt" := VDate 1700000000000]>
                 (convertTimestampsToDates (Example.pir DRAFT))))) as Hr
    by compute_eq.
  split; [exact not_allowed_accepted_draft |].
  split; [exact Hr |].
  split; [compute_eq |].
  split; [compute_eq |].
  split; [compute_eq |].
  intros claim.
  destruct (claim w "p1" (Example.pir ACCEPTED) ∅ ACCEPTED DRAFT)
    as (e & w' & Hthrow & _).
  - compute_eq.
  - unfold Spec.has_status. compute_eq.
  - exact not_allowed_accepted_draft.
  - fold r in Hthrow. rewrite Hthrow in Hr. discriminate Hr.
Qed.

(** C1, amended: [updatePIRStatus] consults no transition table.  For every
    stored PIR and every target status, in the table or not and the current
    status included, the update succeeds and the stored document then has the
    target status (the additional data holding no undefined field and not
    naming [status]); it fails only when no PIR has the id, with the error
    "PIR with ID ... not found", and then the database is unchanged. *)
Theorem updatePIRStatus_any_transition (w : World) (id : string) (to : PIRStatus)
    (additionalData : Obj) :
  has_undefined additionalData = false ->
  additionalData !! "status" = None ->
  let r := pirRepository.updatePIRStatus id to additionalData w in
  match coll w pirRepository.COLLECTION_NAME !! id with
  | Some d =>
      exists d',
        r.1 = Ok (with_id id (convertTimestampsToDates d')) /\
        coll r.2 pirRepository.COLLECTION_NAME !! id = Some d' /\
        d' !! "status" = Some (status_val to)
  | None =>
      r.1 = Throw (pirRepository.pir_not_found id) /\ db r.2 = db w
  end.
Proof.
  intros Hu Hs r. subst r.
  destruct (coll w pirRepository.COLLECTION_NAME !! id) as [d|] eqn:Hd.
  - rewrite (updatePIRStatus_ok id to additionalData d w Hu Hd). simpl.
    eexists. split; [reflexivity |]. split.
    + unfold status_updated. apply coll_put_doc_eq.
    + rewrite write_merge_lookup, status_updates_status, Hs. reflexivity.
  - rewrite (updatePIRStatus_missing id to additionalData w Hd). done.
Qed.

Lemma updatePIRStatus_any_transition_witness :
  let w := Example.world {[ "pirs" := {[ "p1" := Example.pir REJECTED ]} ]} in
  exists d',
    (pirRepository.updatePIRStatus "p1" REQUESTED ∅ w).1 =
      Ok (with_id "p1" (convertTimestampsToDates d')) /\
    coll (pirRepository.updatePIRStatus "p1" REQUESTED ∅ w).2 "pirs" !! "p1" = Some d' /\
    d' !! "status" = Some (status_val REQUESTED).
Proof.
  intros w.
  exact (updatePIRStatus_any_transition w "p1" REQUESTED ∅ eq_refl eq_refl).
Defined.

(** ** [handleStatusChange] *)

Lemma status_additionalData_denied (to : PIRStatus) (u sel : Obj) (w : World) :
  to = ACCEPTED \/ to = REJECTED ->
  field u "role" ≠ Some (role_val ADMIN) ->
  field sel "reviewerId" ≠ field u "id" ->
  PIRDetail.status_additionalData to u sel w = (Throw PIRDetail.permission_denied, w).
Proof.
  intros Hto Hrole Hrev.
  assert (PIRDetail.is_role u ADMIN = false) as Hadm.
  { apply not_true_is_false. by rewrite is_role_true. }
  assert (strict_eq (field sel "reviewerId") (field u "id") = false) as Hne.
  { apply not_true_is_false. by rewrite strict_eq_true. }
  destruct Hto as [-> | ->]; unfold PIRDetail.status_additionalData;
    rewrite Hadm, Hne; reflexivity.
Qed.

(** C3: when the acting user is not an Admin and is not the PIR's reviewer,
    [handleStatusChange] towards Accepted or Rejected raises the permission
    error "You do not have permission to accept/reject this PIR" before the
    store is called: the error is what the handler reports, no write is
    issued, and the database and the zustand store are exactly as before.
    This holds in every status of the PIR, Reviewed in particular. *)
Theorem handleStatusChange_permission_denied (w : World) (id : string) (to : PIRStatus)
    (u sel : Obj) :
  id ≠ EmptyString ->
  selectedPIR (app w) = Some sel ->
  currentUser (app w) = Some u ->
  to = ACCEPTED \/ to = REJECTED ->
  field u "role" ≠ Some (role_val ADMIN) ->
  field sel "reviewerId" ≠ field u "id" ->
  let r := PIRDetail.handleStatusChange (Some id) to w in
  PIRDetail.status_additionalData to u sel w = (Throw PIRDetail.permission_denied, w) /\
  r.1 = Ok tt /\
  localError (ui r.2) = Some (message PIRDetail.permission_denied) /\
  isUpdating (ui r.2) = false /\
  db r.2 = db w /\
  trace r.2 = trace w /\
  app r.2 = app w.
Proof.
  intros Hid Hsel Hu Hto Hrole Hrev r.
  split; [by apply status_additionalData_denied |].
  subst r. unfold PIRDetail.handleStatusChange.
  run_bind ltac:(unfold gets; by rewrite Hsel).
  run_bind ltac:(unfold gets; by rewrite Hu).
  assert (String.eqb id EmptyString = false) as ->.
  { by apply String.eqb_neq. }
  run_bind ltac:(reflexivity).
  unfold try_finally, try_catch.
  erewrite bind_Throw; [| by apply status_additionalData_denied].
  simpl. done.
Qed.

Lemma handleStatusChange_permission_denied_witness :
  let r := PIRDetail.handleStatusChange (Some "p1") REJECTED Example.denied_world in
  r.1 = Ok tt /\
  localError (ui r.2) = Some "You do not have permission to accept/reject this PIR" /\
  db r.2 = db Example.denied_world.
Proof.
  intros r.
  destruct (handleStatusChange_permission_denied Example.denied_world "p1" REJECTED Example.bob
              (with_id "p1" (<["reviewerId" := VStr "u-rita"]> (Example.pir REVIEWED))))
    as (_ & H1 & H2 & _ & H3 & _); try reflexivity; try discriminate.
  - by right.
  - split; [exact H1 |]. split; [exact H2 | exact H3].
Defined.

Lemma with_id_lookup_ne (id : string) (data : Obj) (k : string) :
  k ≠ "id" -> with_id id data !! k = data !! k.
Proof.
  intros Hk. unfold with_id. rewrite lookup_union, lookup_singleton_ne by done.
  by destruct (data !! k).
Qed.

Lemma field_client_copy (id : string) (d : Obj) (k s : string) :
  k ≠ "id" ->
  field d k = Some (VStr s) ->
  field (with_id id (convertTimestampsToDates d)) k = Some (VStr s).
Proof.
  intros Hk Hf. unfold field in *.
  rewrite with_id_lookup_ne by done. unfold convertTimestampsToDates.
  rewrite lookup_fmap.
  destruct (d !! k) as [[]|]; simpl in *; congruence.
Qed.

Lemma status_additionalData_permitted (from to : PIRStatus) (id uid uname : string)
    (u d : Obj) (w : World) :
  field u "id" = Some (VStr uid) ->
  field u "displayName" = Some (VStr uname) ->
  Spec.allowed from to ->
  Spec.permitted_actor from to u d ->
  PIRDetail.status_additionalData to u (with_id id (convertTimestampsToDates d)) w =
    (Ok (additionalData_of to uid uname), w).
Proof.
  intros Hid Hname Hallowed Hperm.
  assert (to = ACCEPTED \/ to = REJECTED ->
          Spec.is_admin u \/ Spec.is_pir_reviewer u d) as Hrev.
  { intros [-> | ->]; destruct from; simpl in Hperm; try done. }
  unfold PIRDetail.status_additionalData, additionalData_of.
  destruct to; try reflexivity.
  - by rewrite Hid, Hname.
  - destruct Hrev as [Hadm | Hr]; [by left | |].
    + apply is_role_true in Hadm. by rewrite Hadm.
    + unfold Spec.is_pir_reviewer in Hr. rewrite Hid in Hr.
      rewrite (field_client_copy id d "reviewerId" uid), Hid by done.
      unfold strict_eq. rewrite bool_decide_eq_true_2 by done.
      by rewrite andb_false_r.
  - destruct Hrev as [Hadm | Hr]; [by right | |].
    + apply is_role_true in Hadm. by rewrite Hadm.
    + unfold Spec.is_pir_reviewer in Hr. rewrite Hid in Hr.
      rewrite (field_client_copy id d "reviewerId" uid), Hid by done.
      unfold strict_eq. rewrite bool_decide_eq_true_2 by done.
      by rewrite andb_false_r.
Qed.

Lemma additionalData_of_defined (to : PIRStatus) (uid uname : string) :
  has_undefined (additionalData_of to uid uname) = false.
Proof.
  apply has_undefined_false. intros k.
  destruct to; simpl; try by rewrite lookup_empty.
  destruct (decide (k = "reviewerName")) as [->|]; [by simplify_map_eq |].
  destruct (decide (k = "reviewerId")) as [->|]; by simplify_map_eq.
Qed.

Lemma pirSlice_updatePIRStatus_ok (id : string) (status : PIRStatus)
    (additionalData d : Obj) (w : World) :
  has_undefined additionalData = false ->
  coll w pirRepository.COLLECTION_NAME !! id = Some d ->
  let r := pirSlice.updatePIRStatus id status additionalData w in
  (exists p, r.1 = Ok p) /\
  ui r.2 = ui w /\
  db r.2 = db (status_updated id status additionalData d w).
Proof.
  intros Hu Hd r. subst r. unfold pirSlice.updatePIRStatus.
  run_bind ltac:(reflexivity).
  unfold try_catch.
  run_bind ltac:(apply updatePIRStatus_ok; [exact Hu | exact Hd]).
  run_bind ltac:(reflexivity).
  simpl. eauto.
Qed.

Lemma coll_db (w w' : World) (c : string) : db w = db w' -> coll w c = coll w' c.
Proof. intros H. unfold coll. by rewrite H. Qed.

Lemma handleStatusChange_ok (w : World) (id uid uname : string) (u d : Obj)
    (from to : PIRStatus) :
  id ≠ EmptyString ->
  coll w pirRepository.COLLECTION_NAME !! id = Some d ->
  selectedPIR (app w) = Some (with_id id (convertTimestampsToDates d)) ->
  currentUser (app w) = Some u ->
  field u "id" = Some (VStr uid) ->
  field u "displayName" = Some (VStr uname) ->
  Spec.allowed from to ->
  Spec.permitted_actor from to u d ->
  let r := PIRDetail.handleStatusChange (Some id) to w in
  r.1 = Ok tt /\
  localError (ui r.2) = None /\
  db r.2 = db (status_updated id to (additionalData_of to uid uname) d w).
Proof.
  intros Hid Hd Hsel Hu Huid Huname Hallowed Hperm r. subst r.
  unfold PIRDetail.handleStatusChange.
  run_bind ltac:(unfold gets; by rewrite Hsel).
  run_bind ltac:(unfold gets; by rewrite Hu).
  assert (String.eqb id EmptyString = false) as ->.
  { by apply String.eqb_neq. }
  run_bind ltac:(reflexivity).
  unfold try_finally, try_catch.
  run_bind ltac:(by eapply status_additionalData_permitted).
  set (w1 := with_ui (PIRDetail.set_ui true None) w).
  destruct (pirSlice_updatePIRStatus_ok id to (additionalData_of to uid uname) d w1
              (additionalData_of_defined to uid uname) Hd) as ([p Hp] & Hui & Hdb).
  destruct (pirSlice.updatePIRStatus id to (additionalData_of to uid uname) w1)
    as [r1 w2] eqn:Hr.
  simpl in Hp, Hui, Hdb. subst r1.
  run_bind ltac:(exact Hr).
  simpl. rewrite Hui. simpl. done.
Qed.

(** The stored PIR document after a transition of the table asked for by
    its permitted actor, when the selected PIR is the client's copy of the
    stored document. *)
Lemma handleStatusChange_on_client_copy (w : World) (id uid uname : string)
    (u d : Obj) (from to : PIRStatus) :
  id ≠ EmptyString ->
  coll w pirRepository.COLLECTION_NAME !! id = Some d ->
  selectedPIR (app w) = Some (with_id id (convertTimestampsToDates d)) ->
  currentUser (app w) = Some u ->
  field u "id" = Some (VStr uid) ->
  field u "displayName" = Some (VStr uname) ->
  Spec.has_status d from ->
  Spec.allowed from to ->
  Spec.permitted_actor from to u d ->
  let r := PIRDetail.handleStatusChange (Some id) to w in
  r.1 = Ok tt /\
  localError (ui r.2) = None /\
  exists d',
    coll r.2 pirRepository.COLLECTION_NAME !! id = Some d' /\
    d' !! "status" = Some (status_val to) /\
    d' !! "updatedAt" = Some (VTimestamp (serverTime w)) /\
    (forall k, Spec.lifecycle_stamp to = Some k ->
       d' !! k = Some (VTimestamp (serverTime w))) /\
    (forall k, k ∈ Spec.lifecycle_stamps -> Spec.lifecycle_stamp to ≠ Some k ->
       d' !! k = d !! k) /\
    (to = REVIEWED ->
       d' !! "reviewerId" = Some (VStr uid) /\ d' !! "reviewerName" = Some (VStr uname)) /\
    (forall k, k ≠ "status" -> k ≠ "updatedAt" -> Spec.lifecycle_stamp to ≠ Some k ->
       (to = REVIEWED -> k ≠ "reviewerId" /\ k ≠ "reviewerName") ->
       d' !! k = d !! k) /\
    (forall id', id' ≠ id ->
       coll r.2 pirRepository.COLLECTION_NAME !! id' =
       coll w pirRepository.COLLECTION_NAME !! id').
Proof.
  intros Hid Hd Hsel Hu Huid Huname Hfrom Hallowed Hperm r.
  destruct (handleStatusChange_ok w id uid uname u d from to) as (Hr & Herr & Hdb);
    try done.
  fold r in Hr, Herr, Hdb.
  split; [exact Hr |]. split; [exact Herr |].
  set (ad := additionalData_of to uid uname) in *.
  assert (forall k, k ≠ "reviewerId" -> k ≠ "reviewerName" -> ad !! k = None) as Had.
  { intros k H1 H2. subst ad. destruct to; simpl; by simplify_map_eq. }
  assert (to ≠ REVIEWED -> forall k, ad !! k = None) as Had'.
  { intros Hto k. subst ad. destruct to; simpl; try apply lookup_empty. done. }
  exists (write_merge (serverTime w) d (pirRepository.status_updates to ad)).
  rewrite (coll_db _ _ _ Hdb). unfold status_updated.
  split; [apply coll_put_doc_eq |].
  split.
  { rewrite write_merge_lookup, status_updates_status, Had by done. reflexivity. }
  split.
  { rewrite write_merge_lookup, status_updates_updatedAt, Had by done. reflexivity. }
  assert (forall k, k ≠ "status" -> k ≠ "updatedAt" -> Spec.lifecycle_stamp to ≠ Some k ->
            (to = REVIEWED -> k ≠ "reviewerId" /\ k ≠ "reviewerName") ->
            write_merge (serverTime w) d (pirRepository.status_updates to ad) !! k
              = d !! k) as Hframe.
  { intros k H1 H2 H3 H4.
    rewrite write_merge_lookup, status_updates_other by done.
    destruct (decide (to = REVIEWED)) as [Hto | Hto].
    - destruct (H4 Hto). by rewrite Had.
    - by rewrite Had'. }
  split.
  { intros k Hk. rewrite write_merge_lookup, (status_updates_stamp _ _ _ Hk).
    reflexivity. }
  split.
  { intros k Hk Hne. apply Hframe; try done.
    - intros ->. unfold Spec.lifecycle_stamps in Hk.
      rewrite !elem_of_cons in Hk. rewrite elem_of_nil in Hk.
      destruct Hk as [|[|[|[|]]]]; done.
    - intros ->. unfold Spec.lifecycle_stamps in Hk.
      rewrite !elem_of_cons in Hk. rewrite elem_of_nil in Hk.
      destruct Hk as [|[|[|[|]]]]; done.
    - intros _. unfold Spec.lifecycle_stamps in Hk.
      rewrite !elem_of_cons in Hk. rewrite elem_of_nil in Hk.
      destruct Hk as [-> |[-> |[-> |[-> |[]]]]]; done. }
  split.
  { intros ->.
    rewrite !write_merge_lookup, !status_updates_other by done.
    subst ad. unfold additionalData_of. by simplify_map_eq. }
  split; [exact Hframe |].
  intros id' Hne. rewrite coll_put_doc_ne by done. reflexivity.
Qed.

Lemma fetchPIRById_stored (id : string) (d : Obj) (w : World) :
  coll w pirRepository.COLLECTION_NAME !! id = Some d ->
  pirSlice.fetchPIRById id w =
    (Ok tt,
     with_app (fun state =>
         set_pirs (pirs state) (Some (with_id id (convertTimestampsToDates d))) false
           state)
       (with_app (set_loading_error true None) w)).
Proof.
  intros Hd. unfold pirSlice.fetchPIRById.
  run_bind ltac:(reflexivity).
  unfold try_catch.
  run_bind ltac:(unfold pirRepository.getPIRById, try_catch;
                 run_bind ltac:(unfold getDoc, gets; simpl;
                                change (coll (with_app _ w) pirRepository.COLLECTION_NAME)
                                  with (coll w pirRepository.COLLECTION_NAME);
                                by rewrite Hd);
                 reflexivity).
  reflexivity.
Qed.

(** C2: the user opens a stored PIR ([fetchPIRById]) and asks, through
    [handleStatusChange], for a transition of the table of which the user is
    the permitted actor.  The update succeeds; the stored document then has
    the target status, [updatedAt] and the lifecycle timestamp of the target
    status (none for Requested) set to the server time, the reviewer's id
    and name when the target is Reviewed, every other lifecycle timestamp
    and every field the update does not name as before, and the other PIRs
    are untouched. *)
Theorem handleStatusChange_valid_transition (w : World) (id uid uname : string)
    (u d : Obj) (from to : PIRStatus) :
  id ≠ EmptyString ->
  coll w pirRepository.COLLECTION_NAME !! id = Some d ->
  currentUser (app w) = Some u ->
  field u "id" = Some (VStr uid) ->
  field u "displayName" = Some (VStr uname) ->
  Spec.has_status d from ->
  Spec.allowed from to ->
  Spec.permitted_actor from to u d ->
  let r := PIRDetail.handleStatusChange (Some id) to (pirSlice.fetchPIRById id w).2 in
  r.1 = Ok tt /\
  localError (ui r.2) = None /\
  exists d',
    coll r.2 pirRepository.COLLECTION_NAME !! id = Some d' /\
    d' !! "status" = Some (status_val to) /\
    d' !! "updatedAt" = Some (VTimestamp (serverTime w)) /\
    (forall k, Spec.lifecycle_stamp to = Some k ->
       d' !! k = Some (VTimestamp (serverTime w))) /\
    (forall k, k ∈ Spec.lifecycle_stamps -> Spec.lifecycle_stamp to ≠ Some k ->
       d' !! k = d !! k) /\
    (to = REVIEWED ->
       d' !! "reviewerId" = Some (VStr uid) /\ d' !! "reviewerName" = Some (VStr uname)) /\
    (forall k, k ≠ "status" -> k ≠ "updatedAt" -> Spec.lifecycle_stamp to ≠ Some k ->
       (to = REVIEWED -> k ≠ "reviewerId" /\ k ≠ "reviewerName") ->
       d' !! k = d !! k) /\
    (forall id', id' ≠ id ->
       coll r.2 pirRepository.COLLECTION_NAME !! id' =
       coll w pirRepository.COLLECTION_NAME !! id').
Proof.
  intros Hid Hd Hu Huid Huname Hfrom Hallowed Hperm.
  rewrite (fetchPIRById_stored id d w Hd). cbn [snd].
  match goal with
  | |- context [PIRDetail.handleStatusChange (Some id) to ?w1] =>
      exact (handleStatusChange_on_client_copy w1 id uid uname u d from to
               Hid Hd eq_refl Hu Huid Huname Hfrom Hallowed Hperm)
  end.
Qed.

Lemma handleStatusChange_valid_transition_witness :
  let r := PIRDetail.handleStatusChange (Some "p1") REVIEWED
             (pirSlice.fetchPIRById "p1" Example.review_world).2 in
  r.1 = Ok tt /\
  exists d',
    coll r.2 "pirs" !! "p1" = Some d' /\
    d' !! "status" = Some (VStr "reviewed") /\
    d' !! "reviewedAt" = Some (VTimestamp 1700000000000) /\
    d' !! "submittedAt" = None /\
    d' !! "reviewerId" = Some (VStr "u-rita") /\
    d' !! "title" = Some (VStr "Battery data sheet").
Proof.
  intros r.
  destruct (handleStatusChange_valid_transition Example.review_world "p1" "u-rita" "Rita"
              Example.rita (Example.pir SUBMITTED) SUBMITTED REVIEWED)
    as (H1 & _ & d' & Hd' & Hs & _ & Hstamp & Hothers & Hrev & Hframe & _).
  - discriminate.
  - compute_eq.
  - reflexivity.
  - compute_eq.
  - compute_eq.
  - unfold Spec.has_status. compute_eq.
  - unfold Spec.allowed, Spec.transition_table.
    do 2 apply list_elem_of_further. apply list_elem_of_here.
  - right. unfold Spec.is_reviewer_role. compute_eq.
  - split; [exact H1 |]. exists d'.
    split; [exact Hd' |]. split; [exact Hs |].
    split; [exact (Hstamp "reviewedAt" eq_refl) |].
    split.
    { rewrite (Hothers "submittedAt"); [reflexivity | | discriminate].
      apply list_elem_of_here. }
    split; [exact (proj1 (Hrev eq_refl)) |].
    rewrite (Hframe "title"); [reflexivity | discriminate.. |].
    intros _. split; discriminate.
Defined.

(** ** [loadUserData] *)

Lemma defaultUserData_lookup (fu : FirebaseUser) (k : string) (v : Value) :
  defaultUserData fu !! k = Some v -> exists s, v = VStr s.
Proof.
  unfold defaultUserData. intros H.
  repeat (apply lookup_insert_Some in H as [[_ <-] | [_ H]]; [by eexists |]).
  apply lookup_singleton_Some in H as [_ <-]. by eexists.
Qed.

Lemma write_new_strings (now : Z) (data : Obj) :
  (forall k v, data !! k = Some v -> exists s, v = VStr s) ->
  write_new now data = data.
Proof.
  intros H. apply map_eq. intros k. unfold write_new. rewrite map_lookup_imap.
  destruct (data !! k) as [v|] eqn:E; [|done].
  destruct (H k v E) as [s ->]. done.
Qed.

Lemma has_undefined_strings (data : Obj) :
  (forall k v, data !! k = Some v -> exists s, v = VStr s) ->
  has_undefined data = false.
Proof.
  intros H. apply has_undefined_false. intros k Hk.
  by destruct (H k _ Hk).
Qed.

Lemma loadUserData_creates (w : World) (firebaseUser : FirebaseUser) :
  authCurrentUser w = Some firebaseUser ->
  coll w "users" !! uid firebaseUser = None ->
  userSlice.loadUserData w =
    (Ok tt,
     with_app (set_user (Some (defaultUserData firebaseUser)) true false)
       (put_doc "users" (uid firebaseUser) (defaultUserData firebaseUser)
          (with_trace (fun t => t ++ [EvSetDoc "users" (uid firebaseUser)])
             (with_app (set_loading_authError true None) w)))).
Proof.
  intros Hauth Hdoc. unfold userSlice.loadUserData.
  run_bind ltac:(unfold gets; by rewrite Hauth).
  run_bind ltac:(reflexivity).
  unfold try_catch.
  run_bind ltac:(unfold getDoc, gets; simpl;
                 change (coll (with_app _ w) "users") with (coll w "users");
                 by rewrite Hdoc).
  fold (defaultUserData firebaseUser).
  unfold setDoc.
  rewrite (has_undefined_strings _ (defaultUserData_lookup firebaseUser)).
  run_bind ltac:(reflexivity).
  unfold modify.
  rewrite write_new_strings by apply defaultUserData_lookup.
  reflexivity.
Qed.

(** C10: for an authenticated user without a user document, [loadUserData]
    completes, writes to [users/<uid>] the default document with the user's
    id, role [requester], and email and display name taken from the identity
    provider or the empty string when absent, makes that document the
    current user and marks the session authenticated. *)
Theorem loadUserData_default_requester (w : World) (firebaseUser : FirebaseUser) :
  authCurrentUser w = Some firebaseUser ->
  coll w "users" !! uid firebaseUser = None ->
  let r := userSlice.loadUserData w in
  r.1 = Ok tt /\
  coll r.2 "users" !! uid firebaseUser = Some (defaultUserData firebaseUser) /\
  defaultUserData firebaseUser !! "role" = Some (role_val REQUESTER) /\
  defaultUserData firebaseUser !! "email" =
    Some (VStr (default EmptyString (fb_email firebaseUser))) /\
  defaultUserData firebaseUser !! "displayName" =
    Some (VStr (default EmptyString (fb_displayName firebaseUser))) /\
  currentUser (app r.2) = Some (defaultUserData firebaseUser) /\
  isAuthenticated (app r.2) = true /\
  isLoading (app r.2) = false /\
  authError (app r.2) = None /\
  trace r.2 = trace w ++ [EvSetDoc "users" (uid firebaseUser)].
Proof.
  intros Hauth Hdoc r. subst r.
  rewrite (loadUserData_creates w firebaseUser Hauth Hdoc).
  split; [done |]. split; [apply coll_put_doc_eq |].
  unfold defaultUserData. by simplify_map_eq.
Qed.

Lemma loadUserData_default_requester_witness :
  let fu := {| uid := "u-new"; fb_email := Some "new@stacksio.test";
               fb_displayName := None |} in
  let w := Example.world {[ "users" := Example.users ]} in
  let w1 :=
    {| db := db w; storage := storage w; serverTime := serverTime w;
       clientTime := clientTime w; fault := fault w; downloadUrl := downloadUrl w;
       authCurrentUser := Some fu; console := console w; trace := trace w;
       app := app w; ui := ui w |} in
  coll (userSlice.loadUserData w1).2 "users" !! "u-new" =
    Some {[ "id" := VStr "u-new"; "email" := VStr "new@stacksio.test";
            "displayName" := VStr EmptyString; "role" := VStr "requester" ]} /\
  isAuthenticated (app (userSlice.loadUserData w1).2) = true.
Proof.
  intros fu w w1.
  destruct (loadUserData_default_requester w1 fu)
    as (_ & H1 & _ & _ & _ & _ & H2 & _).
  - reflexivity.
  - compute_eq.
  - split; [exact H1 | exact H2].
Defined.

(** ** Attachments *)

Lemma uploadBytes_fails (path : string) (file : File) (w : World) (e : JsError) :
  fault w (OpUploadBytes path) = Some e ->
  uploadBytes path file w =
    (Throw e, with_trace (fun t => t ++ [EvUploadBytes path]) w).
Proof.
  intros H. unfold uploadBytes. run_bind ltac:(reflexivity).
  erewrite bind_Throw; [reflexivity |].
  unfold external. simpl. by rewrite H.
Qed.

Lemma uploadBytes_ok (path : string) (file : File) (w : World) :
  fault w (OpUploadBytes path) = None ->
  uploadBytes path file w =
    (Ok tt, with_storage (fun s => <[path := file]> s)
              (with_trace (fun t => t ++ [EvUploadBytes path]) w)).
Proof.
  intros H. unfold uploadBytes. run_bind ltac:(reflexivity).
  run_bind ltac:(unfold external; simpl; by rewrite H).
  reflexivity.
Qed.

Lemma getDownloadURL_fails (path : string) (w : World) (e : JsError) :
  fault w (OpGetDownloadURL path) = Some e ->
  getDownloadURL path w =
    (Throw e, with_trace (fun t => t ++ [EvGetDownloadURL path]) w).
Proof.
  intros H. unfold getDownloadURL. run_bind ltac:(reflexivity).
  erewrite bind_Throw; [reflexivity |].
  unfold external. simpl. by rewrite H.
Qed.

Lemma getDownloadURL_ok (path : string) (w : World) :
  fault w (OpGetDownloadURL path) = None ->
  getDownloadURL path w =
    (Ok (downloadUrl w path), with_trace (fun t => t ++ [EvGetDownloadURL path]) w).
Proof.
  intros H. unfold getDownloadURL. run_bind ltac:(reflexivity).
  run_bind ltac:(unfold external; simpl; by rewrite H).
  reflexivity.
Qed.

Lemma has_undefined_insert (k : string) (v : Value) (data : Obj) :
  v ≠ VUndefined -> has_undefined data = false ->
  has_undefined (<[k := v]> data) = false.
Proof.
  rewrite !has_undefined_false. intros Hv H k' Hk'.
  apply lookup_insert_Some in Hk' as [[_ ->] | [_ Hk']]; [done |].
  by apply (H k').
Qed.

Lemma has_undefined_singleton (k : string) (v : Value) :
  v ≠ VUndefined -> has_undefined ({[k := v]} : Obj) = false.
Proof.
  rewrite has_undefined_false. intros Hv k' Hk'.
  apply lookup_singleton_Some in Hk' as [_ ->]. done.
Qed.

Lemma has_undefined_convertDates (data : Obj) :
  has_undefined data = false -> has_undefined (convertDatesToTimestamps data) = false.
Proof.
  rewrite !has_undefined_false. intros H k Hk.
  unfold convertDatesToTimestamps in Hk. rewrite lookup_fmap in Hk.
  destruct (data !! k) as [v|] eqn:E; simpl in Hk; [|done].
  apply (H k). rewrite E. destruct v; simpl in Hk; congruence.
Qed.

Lemma addDoc_ok (c : string) (data : Obj) (w : World) :
  has_undefined data = false ->
  let id := fresh_string "auto" (coll w c) in
  addDoc c data w =
    (Ok id, put_doc c id (write_new (serverTime w) data)
              (with_trace (fun t => t ++ [EvAddDoc c id]) w)) /\
  coll w c !! id = None.
Proof.
  intros Hu id. split; [| apply fresh_string_fresh].
  unfold addDoc. rewrite Hu.
  run_bind ltac:(reflexivity).
  run_bind ltac:(reflexivity).
  run_bind ltac:(reflexivity).
  reflexivity.
Qed.

Lemma attachmentData_defined (file : File) (uploadedBy parentId : string)
    (parentType : attachmentRepository.ParentType) (ms : Z) (url : string) :
  has_undefined
    (<["uploadedAt" := VServerTimestamp]>
       (convertDatesToTimestamps
          (attachmentRepository.attachmentData file uploadedBy parentId parentType
             (VDate ms) url))) = false.
Proof.
  apply has_undefined_insert; [done |]. apply has_undefined_convertDates.
  unfold attachmentRepository.attachmentData.
  repeat (apply has_undefined_insert; [done |]).
  apply has_undefined_false. intros k. by rewrite lookup_empty.
Qed.

(** C7: [uploadAttachment] first writes the blob, then resolves its download
    URL, and only then creates the metadata record.  When the blob write
    fails, or the URL resolution fails, that error is thrown to the caller,
    no record is created (the database is unchanged and no [addDoc] is
    issued); when both succeed, the record is created under a new id, after
    the two blob-store calls. *)
Theorem uploadAttachment_blob_before_record (w : World) (file : File)
    (uploadedBy parentId : string) (parentType : attachmentRepository.ParentType) :
  let path := attachmentRepository.filePath (clientTime w) file parentId parentType in
  let r := attachmentRepository.uploadAttachment file uploadedBy parentId parentType w in
  match fault w (OpUploadBytes path), fault w (OpGetDownloadURL path) with
  | Some e, _ =>
      r.1 = Throw e /\ db r.2 = db w /\
      trace r.2 = trace w ++ [EvUploadBytes path]
  | None, Some e =>
      r.1 = Throw e /\ db r.2 = db w /\
      trace r.2 = trace w ++ [EvUploadBytes path; EvGetDownloadURL path]
  | None, None =>
      exists id,
        r.1 = Ok (with_id id
                (attachmentRepository.attachmentData file uploadedBy parentId parentType
                   (VDate (clientTime w)) (downloadUrl w path))) /\
        coll w attachmentRepository.COLLECTION_NAME !! id = None /\
        is_Some (coll r.2 attachmentRepository.COLLECTION_NAME !! id) /\
        trace r.2 = trace w ++
          [EvUploadBytes path; EvGetDownloadURL path;
           EvAddDoc attachmentRepository.COLLECTION_NAME id]
  end.
Proof.
  intros path r. subst r. unfold attachmentRepository.uploadAttachment, try_catch.
  run_bind ltac:(reflexivity). fold path.
  destruct (fault w (OpUploadBytes path)) as [e|] eqn:Hup.
  { run_throw ltac:(by apply uploadBytes_fails). simpl. done. }
  run_bind ltac:(by apply uploadBytes_ok).
  destruct (fault w (OpGetDownloadURL path)) as [e|] eqn:Hurl.
  { run_throw ltac:(by apply getDownloadURL_fails). simpl.
    rewrite <- app_assoc. done. }
  run_bind ltac:(by apply getDownloadURL_ok).
  run_bind ltac:(reflexivity).
  match goal with
  | |- context [(addDoc ?c ?data ≫= _) ?w1] =>
      destruct (addDoc_ok c data w1) as [Hadd Hfresh];
        [apply attachmentData_defined |]
  end.
  run_bind ltac:(exact Hadd).
  eexists. split; [reflexivity |].
  split; [exact Hfresh |].
  split.
  - simpl. rewrite coll_put_doc_eq. by eexists.
  - simpl. rewrite <- !app_assoc. reflexivity.
Qed.

Example uploadAttachment_storage_down :
  let w := Example.world_storage_down ∅ in
  let r := attachmentRepository.uploadAttachment Example.spec_pdf "u-alice" "p1"
             attachmentRepository.ParentPIR w in
  r.1 = Throw (Error "storage/unknown") /\
  coll r.2 "attachments" = ∅ /\
  trace r.2 = [EvUploadBytes "attachments/pir/p1/1700000000123_spec.pdf"].
Proof. intros w r. repeat split; compute_eq. Qed.

Example uploadAttachment_storage_up :
  let w := Example.world ∅ in
  let r := attachmentRepository.uploadAttachment Example.spec_pdf "u-alice" "p1"
             attachmentRepository.ParentPIR w in
  (default ∅ (coll r.2 "attachments" !! "auto")) !! "downloadUrl" =
    Some (VStr "https://storage.test/attachments/pir/p1/1700000000123_spec.pdf") /\
  trace r.2 =
    [EvUploadBytes "attachments/pir/p1/1700000000123_spec.pdf";
     EvGetDownloadURL "attachments/pir/p1/1700000000123_spec.pdf";
     EvAddDoc "attachments" "auto"].
Proof. intros w r. repeat split; compute_eq. Qed.

Lemma coll_remove_doc_eq (c id : string) (w : World) :
  coll (remove_doc c id w) c !! id = None.
Proof.
  unfold coll, remove_doc. simpl. rewrite lookup_insert_eq. simpl.
  apply lookup_delete_eq.
Qed.

Lemma coll_remove_doc_ne (c id id' : string) (w : World) :
  id ≠ id' -> coll (remove_doc c id w) c !! id' = coll w c !! id'.
Proof.
  intros Hne. unfold coll, remove_doc. simpl. rewrite lookup_insert_eq. simpl.
  by rewrite lookup_delete_ne.
Qed.

Lemma getAttachmentById_absent (id : string) (w : World) :
  coll w attachmentRepository.COLLECTION_NAME !! id = None ->
  (attachmentRepository.getAttachmentById id w).1 = Ok None.
Proof.
  intros H. unfold attachmentRepository.getAttachmentById, try_catch.
  run_bind ltac:(unfold getDoc, gets; by rewrite H).
  reflexivity.
Qed.

Lemma blob_delete_caught (locator : option Value) (w : World) :
  try_catch (deleteObject locator)
    (fun storageError =>
       console_log LogWarn
         "Error deleting file from storage, continuing with document deletion:"
         (Some storageError)) w = (Ok tt, after_blob_delete locator w).
Proof.
  unfold try_catch, deleteObject, after_blob_delete.
  run_bind ltac:(reflexivity).
  unfold mbind, M_bind, external. simpl.
  destruct (fault w (OpDeleteObject locator)); reflexivity.
Qed.

Lemma deleteAttachment_stored (id : string) (d : Obj) (w : World) :
  coll w attachmentRepository.COLLECTION_NAME !! id = Some d ->
  attachmentRepository.deleteAttachment id w =
    (Ok tt,
     remove_doc attachmentRepository.COLLECTION_NAME id
       (with_trace (fun t => t ++ [EvDeleteDoc attachmentRepository.COLLECTION_NAME id])
          (after_blob_delete (field d "downloadUrl") w))).
Proof.
  intros Hd. unfold attachmentRepository.deleteAttachment.
  unfold try_catch at 1.
  run_bind ltac:(unfold getDoc, gets; by rewrite Hd).
  run_bind ltac:(apply blob_delete_caught).
  unfold deleteDoc. run_bind ltac:(reflexivity).
  reflexivity.
Qed.

Lemma deleteAttachment_absent (id : string) (w : World) :
  coll w attachmentRepository.COLLECTION_NAME !! id = None ->
  attachmentRepository.deleteAttachment id w =
    (Throw (attachmentRepository.attachment_not_found id),
     with_console (fun c => c ++
       [{| level := LogError; text := "Error deleting attachment " +:+ id +:+ ":";
           detail := Some (attachmentRepository.attachment_not_found id) |}]) w).
Proof.
  intros Hd. unfold attachmentRepository.deleteAttachment, try_catch.
  run_bind ltac:(unfold getDoc, gets; by rewrite Hd).
  reflexivity.
Qed.

(** C8: on a stored attachment, [deleteAttachment] first attempts the blob
    delete and then deletes the record, whether or not the blob delete
    failed; a failure of the blob delete is logged as a warning and not
    thrown.  The call returns normally and the attachment can then no longer
    be retrieved by id, while the other attachments are kept.  On an id that
    is not stored, it throws "Attachment with ID ... not found" and touches
    neither the blob store nor the database. *)
Theorem deleteAttachment_record_removed (w : World) (id : string) :
  let r := attachmentRepository.deleteAttachment id w in
  match coll w attachmentRepository.COLLECTION_NAME !! id with
  | Some attachmentData =>
      let locator := field attachmentData "downloadUrl" in
      r.1 = Ok tt /\
      trace r.2 = trace w ++
        [EvDeleteObject locator; EvDeleteDoc attachmentRepository.COLLECTION_NAME id] /\
      coll r.2 attachmentRepository.COLLECTION_NAME !! id = None /\
      (attachmentRepository.getAttachmentById id r.2).1 = Ok None /\
      (forall id', id' ≠ id ->
         coll r.2 attachmentRepository.COLLECTION_NAME !! id' =
         coll w attachmentRepository.COLLECTION_NAME !! id') /\
      console r.2 = console w ++
        match fault w (OpDeleteObject locator) with
        | Some e => [storage_warning e]
        | None => []
        end
  | None =>
      r.1 = Throw (attachmentRepository.attachment_not_found id) /\
      trace r.2 = trace w /\ db r.2 = db w /\ storage r.2 = storage w
  end.
Proof.
  intros r. subst r.
  destruct (coll w attachmentRepository.COLLECTION_NAME !! id) as [d|] eqn:Hd.
  - rewrite (deleteAttachment_stored id d w Hd). cbv zeta. cbn [fst snd].
    split; [done |].
    split.
    { simpl. unfold after_blob_delete.
      destruct (fault w (OpDeleteObject (field d "downloadUrl")));
        simpl; by rewrite <- app_assoc. }
    split; [apply coll_remove_doc_eq |].
    split; [apply getAttachmentById_absent, coll_remove_doc_eq |].
    split.
    { intros id' Hne. rewrite coll_remove_doc_ne by done.
      unfold after_blob_delete.
      destruct (fault w (OpDeleteObject (field d "downloadUrl"))); reflexivity. }
    simpl. unfold after_blob_delete.
    destruct (fault w (OpDeleteObject (field d "downloadUrl"))); simpl;
      [done | by rewrite app_nil_r].
  - rewrite (deleteAttachment_absent id w Hd). done.
Qed.

Example deleteAttachment_storage_down :
  let w := Example.world_storage_down
             {[ "attachments" := {[ "a1" := Example.stored_attachment ]} ]} in
  let r := attachmentRepository.deleteAttachment "a1" w in
  r.1 = Ok tt /\
  coll r.2 "attachments" !! "a1" = None /\
  console r.2 = [storage_warning (Error "storage/unknown")].
Proof. intros w r. repeat split; compute_eq. Qed.

(** ** Questions and the parent's id list *)

Lemma addDoc_coll_other (c c' : string) (data : Obj) (w : World) :
  c ≠ c' -> coll (addDoc c data w).2 c' = coll w c'.
Proof.
  intros Hne. destruct (has_undefined data) eqn:Hu.
  - unfold addDoc. rewrite Hu. reflexivity.
  - destruct (addDoc_ok c data w Hu) as [-> _]. simpl.
    by rewrite coll_put_doc_other.
Qed.

Lemma createQuestion_pirs (question : Obj) (w : World) :
  coll (questionRepository.createQuestion question w).2 pirRepository.COLLECTION_NAME
    = coll w pirRepository.COLLECTION_NAME.
Proof.
  unfold questionRepository.createQuestion, try_catch.
  run_bind ltac:(reflexivity).
  match goal with
  | |- context [(addDoc ?c ?data ≫= _) ?w1] =>
      pose proof (addDoc_coll_other c pirRepository.COLLECTION_NAME data w1) as Hc;
      unfold mbind, M_bind; destruct (addDoc c data w1) as [[id|e] w2]
  end; simpl in *; apply Hc; done.
Qed.

Lemma questionSlice_createQuestion_pirs (question : Obj) (w : World) :
  coll (questionSlice.createQuestion question w).2 pirRepository.COLLECTION_NAME
    = coll w pirRepository.COLLECTION_NAME.
Proof.
  unfold questionSlice.createQuestion.
  run_bind ltac:(reflexivity).
  set (w1 := with_app (set_loadingQuestions_error true None) w).
  pose proof (createQuestion_pirs question w1) as Hc.
  unfold try_catch, mbind, M_bind.
  destruct (questionRepository.createQuestion question w1) as [[q|e] w2];
    simpl in *; exact Hc.
Qed.

Lemma array_union_single (old : list string) (x : string) :
  array_union old [x] = if decide (x ∈ old) then old else old ++ [x].
Proof.
  unfold array_union. simpl. unfold bool_decide.
  by destruct (decide_rel elem_of x old); destruct (decide (x ∈ old)).
Qed.

Lemma array_union_single_elem (old : list string) (x : string) :
  x ∈ array_union old [x].
Proof.
  rewrite array_union_single. destruct (decide (x ∈ old)); [done |].
  apply elem_of_app. right. apply list_elem_of_here.
Qed.

Lemma array_union_single_idem (old : list string) (x : string) :
  array_union (array_union old [x]) [x] = array_union old [x].
Proof.
  rewrite (array_union_single (array_union old [x])).
  destruct (decide (x ∈ array_union old [x])) as [|Hn]; [done |].
  destruct Hn. apply array_union_single_elem.
Qed.

Lemma filter_eq_absent (l : list string) (x : string) :
  x ∉ l -> filter (fun y => y = x) l = [].
Proof.
  induction l as [|y l IH]; intros Hx; [done |].
  apply not_elem_of_cons in Hx as [Hne Hx].
  rewrite filter_cons_False by congruence. by apply IH.
Qed.

Lemma count_once (l : list string) (x : string) :
  NoDup l -> x ∈ l -> length (filter (fun y => y = x) l) = 1%nat.
Proof.
  induction 1 as [|y l Hy Hnd IH]; intros Hx.
  - by apply elem_of_nil in Hx.
  - apply elem_of_cons in Hx.
    destruct (decide (y = x)) as [-> | Hne].
    + rewrite filter_cons_True by done. by rewrite filter_eq_absent.
    + rewrite filter_cons_False by done.
      destruct Hx as [-> | Hx]; [done |]. by apply IH.
Qed.

Lemma array_union_single_NoDup (old : list string) (x : string) :
  NoDup old -> NoDup (array_union old [x]).
Proof.
  intros Hnd. rewrite array_union_single. destruct (decide (x ∈ old)); [done |].
  apply NoDup_app. split; [done |]. split; [| apply NoDup_singleton].
  intros y Hy Hy'. apply list_elem_of_singleton in Hy'. by subst.
Qed.

Lemma addQuestionToPIR_ok (pirId questionId : string) (p : Obj) (w : World) :
  coll w pirRepository.COLLECTION_NAME !! pirId = Some p ->
  pirRepository.addQuestionToPIR pirId questionId w =
    (Ok tt,
     put_doc pirRepository.COLLECTION_NAME pirId
       (write_merge (serverTime w) p (question_link questionId))
       (with_trace (fun t => t ++ [EvUpdateDoc pirRepository.COLLECTION_NAME pirId]) w)).
Proof.
  intros Hp. unfold pirRepository.addQuestionToPIR, try_catch.
  fold (question_link questionId).
  rewrite (updateDoc_ok _ _ _ p); [reflexivity | | exact Hp].
  unfold question_link. apply has_undefined_insert; [done |].
  by apply has_undefined_singleton.
Qed.

Lemma question_link_questionIds (now : Z) (p : Obj) (questionId : string) :
  write_merge now p (question_link questionId) !! "questionIds" =
    Some (VArr (array_union (as_array (p !! "questionIds")) [questionId])).
Proof.
  rewrite write_merge_lookup. unfold question_link. by simplify_map_eq.
Qed.

(** C5, counterexample: with the PIR "p1" stored and no question yet,
    creating a question for "p1", through the repository or through the
    store, returns the question with the new id "auto" and leaves
    [questionIds] of "p1" empty; so creation does not register the id. *)
Lemma createQuestion_does_not_register :
  let w := Example.world {[ "pirs" := {[ "p1" := Example.pir DRAFT ]} ]} in
  let r := questionRepository.createQuestion Example.battery_question w in
  let s := questionSlice.createQuestion Example.battery_question w in
  (exists q, r.1 = Ok q /\ field q "id" = Some (VStr "auto")) /\
  is_Some (coll r.2 "questions" !! "auto") /\
  coll r.2 "pirs" !! "p1" = Some (Example.pir DRAFT) /\
  s.1 = r.1 /\
  coll s.2 "pirs" !! "p1" = Some (Example.pir DRAFT) /\
  Example.pir DRAFT !! "questionIds" = Some (VArr []) /\
  ~ question_registered_on_create.
Proof.
  intros w r s.
  assert (coll r.2 "pirs" !! "p1" = Some (Example.pir DRAFT)) as Hp by compute_eq.
  assert (r.1 = Ok (with_id "auto"
            (<["updatedAt" := VDate 1700000000123]>
               (<["createdAt" := VDate 1700000000123]> Example.battery_question)))) as Hr
    by compute_eq.
  split.
  { eexists. split; [exact Hr | compute_eq]. }
  split; [compute_eq |].
  split; [exact Hp |].
  split; [compute_eq |].
  split; [compute_eq |].
  split; [compute_eq |].
  intros claim.
  destruct (claim w r.2 Example.battery_question
              (with_id "auto"
                 (<["updatedAt" := VDate 1700000000123]>
                    (<["createdAt" := VDate 1700000000123]> Example.battery_question)))
              (Example.pir DRAFT) "p1")
    as (qid & p' & _ & Hp' & Hin).
  - compute_eq.
  - compute_eq.
  - rewrite <- Hr. apply surjective_pairing.
  - change (coll r.2 "pirs" !! "p1" = Some p') in Hp'.
    rewrite Hp in Hp'. injection Hp' as <-.
    vm_compute in Hin. by apply elem_of_nil in Hin.
Qed.

(** C5, amended: creating a Question, through the repository or through
    the store, leaves the pirs collection as it is; registering the id is the
    separate operation [addQuestionToPIR].  On a stored PIR that operation
    succeeds and has set-union semantics: afterwards the id is in
    [questionIds], which is the old list when it held the id already and the
    old list with the id appended otherwise (so the id occurs exactly once
    when the old list had no duplicates), and repeating the operation with
    the same id leaves [questionIds] unchanged. *)
Theorem addQuestionToPIR_idempotent_union (w : World) (question p : Obj)
    (pirId questionId : string) :
  coll w pirRepository.COLLECTION_NAME !! pirId = Some p ->
  let old := as_array (p !! "questionIds") in
  let r := pirRepository.addQuestionToPIR pirId questionId w in
  let r' := pirRepository.addQuestionToPIR pirId questionId r.2 in
  coll (questionRepository.createQuestion question w).2 pirRepository.COLLECTION_NAME
    = coll w pirRepository.COLLECTION_NAME /\
  coll (questionSlice.createQuestion question w).2 pirRepository.COLLECTION_NAME
    = coll w pirRepository.COLLECTION_NAME /\
  r.1 = Ok tt /\
  exists p' p'',
    coll r.2 pirRepository.COLLECTION_NAME !! pirId = Some p' /\
    p' !! "questionIds" =
      Some (VArr (if decide (questionId ∈ old) then old else old ++ [questionId])) /\
    questionId ∈ as_array (p' !! "questionIds") /\
    (NoDup old ->
       length (filter (fun x => x = questionId) (as_array (p' !! "questionIds")))
         = 1%nat) /\
    r'.1 = Ok tt /\
    coll r'.2 pirRepository.COLLECTION_NAME !! pirId = Some p'' /\
    p'' !! "questionIds" = p' !! "questionIds".
Proof.
  intros Hp old r r'. subst r r'.
  split; [apply createQuestion_pirs |].
  split; [apply questionSlice_createQuestion_pirs |].
  rewrite (addQuestionToPIR_ok pirId questionId p w Hp). cbn [fst snd].
  split; [done |].
  set (p' := write_merge (serverTime w) p (question_link questionId)).
  set (w1 := put_doc _ _ _ _).
  assert (coll w1 pirRepository.COLLECTION_NAME !! pirId = Some p') as Hp'
    by apply coll_put_doc_eq.
  rewrite (addQuestionToPIR_ok pirId questionId p' w1 Hp'). cbn [fst snd].
  exists p', (write_merge (serverTime w1) p' (question_link questionId)).
  assert (p' !! "questionIds" = Some (VArr (array_union old [questionId]))) as Hq
    by apply question_link_questionIds.
  split; [exact Hp' |].
  split; [by rewrite Hq, array_union_single |].
  split; [rewrite Hq; apply array_union_single_elem |].
  split.
  { intros Hnd. rewrite Hq. cbn [as_array]. apply count_once.
    - by apply array_union_single_NoDup.
    - apply array_union_single_elem. }
  split; [done |].
  split; [apply coll_put_doc_eq |].
  rewrite question_link_questionIds, Hq. cbn [as_array].
  by rewrite array_union_single_idem.
Qed.

Lemma addQuestionToPIR_idempotent_union_witness :
  let w := Example.world {[ "pirs" := {[ "p1" := Example.pir DRAFT ]} ]} in
  let r := pirRepository.addQuestionToPIR "p1" "q1" w in
  r.1 = Ok tt /\
  exists p',
    coll r.2 "pirs" !! "p1" = Some p' /\
    p' !! "questionIds" = Some (VArr ["q1"]).
Proof.
  intros w r.
  destruct (addQuestionToPIR_idempotent_union w Example.battery_question (Example.pir DRAFT)
              "p1" "q1") as (_ & _ & H1 & p' & _ & H2 & H3 & _).
  - compute_eq.
  - split; [exact H1 |]. exists p'. split; [exact H2 | exact H3].
Defined.

(** ** The notification trigger *)

(** C6: a PIR of requester Alice with reviewer Rita assigned goes from
    Requested to Submitted, and Ada is an Admin.  The trigger sends one
    message, to Rita, Alice and also Ada: the recipients are not exactly the
    reviewer and the requester, every Admin is added. *)
Theorem onPIRStatusChange_submitted_includes_admins :
  let w := Example.world {[ "users" := Example.users ]} in
  let r := functionsIndex.onPIRStatusChange
             (Example.submitted_pir REQUESTED) (Example.submitted_pir SUBMITTED) "p1" w in
  r.1 = Ok tt /\
  trace r.2 =
    [EvSendMail
       [Some (VStr "u-rita@stacksio.test"); Some (VStr "u-alice@stacksio.test");
        Some (VStr "u-ada@stacksio.test")]
       "[Stacksio] PIR Submitted for Review: Battery data sheet"] /\
  field Example.ada "role" = Some (VStr "admin") /\
  field (Example.submitted_pir SUBMITTED) "reviewerId" = Some (VStr "u-rita") /\
  field (Example.submitted_pir SUBMITTED) "requesterId" = Some (VStr "u-alice").
Proof.
  intros w r. repeat split; compute_eq.
Qed.

Lemma adminDocData_trace (c : string) (id : option Value) (w : World) :
  (functionsIndex.adminDocData c id w).2 = w.
Proof.
  unfold functionsIndex.adminDocData.
  destruct id as [[]|]; try reflexivity.
  by destruct (String.eqb s EmptyString).
Qed.

(** The part of the claim that the code does satisfy: when the PIR that
    became Submitted has no reviewer, nothing is sent. *)
Lemma onPIRStatusChange_submitted_without_reviewer (w : World)
    (beforeData afterData : Obj) (pirId : string) :
  field afterData "status" = Some (status_val SUBMITTED) ->
  truthy (field afterData "reviewerId") = false ->
  trace (functionsIndex.onPIRStatusChange beforeData afterData pirId w).2 = trace w.
Proof.
  intros Hs Hrev. unfold functionsIndex.onPIRStatusChange.
  destruct (strict_eq _ _); [reflexivity |].
  rewrite Hrev, Hs.
  unfold mbind at 1. unfold M_bind.
  pose proof (adminDocData_trace "users" (field afterData "requesterId") w) as H1.
  destruct (functionsIndex.adminDocData "users" (field afterData "requesterId") w)
    as [[requester|e] w1]; simpl in H1; subst w1; [|reflexivity].
  unfold mbind at 1. unfold M_bind.
  destruct (truthy (field afterData "assignedResponderId")).
  - pose proof (adminDocData_trace "users" (field afterData "assignedResponderId") w)
      as H2.
    destruct (functionsIndex.adminDocData "users"
                (field afterData "assignedResponderId") w)
      as [[responder|e] w2]; simpl in H2; subst w2; reflexivity.
  - reflexivity.
Qed.

(** ** Tags *)

Lemma getAllTags_all_tags (w : World) : tagRepository.getAllTags w = (Ok (all_tags w), w).
Proof. reflexivity. Qed.

Lemma elem_of_all_tags (w : World) (t : Obj) :
  t ∈ all_tags w <->
  exists id d, t = with_id id d /\
    coll w tagRepository.COLLECTION_NAME !! id = Some d /\ is_Some (d !! "name").
Proof.
  unfold all_tags. rewrite list_elem_of_fmap. split.
  - intros ([id d] & -> & Hin). rewrite merge_sort_Permutation in Hin.
    apply list_elem_of_filter in Hin as [Hname Hin].
    apply elem_of_map_to_list in Hin. by exists id, d.
  - intros (id & d & -> & Hd & Hname). exists (id, d). split; [done |].
    rewrite merge_sort_Permutation. apply list_elem_of_filter. split; [done |].
    by apply elem_of_map_to_list.
Qed.

Lemma all_tags_db (w w' : World) : db w = db w' -> all_tags w = all_tags w'.
Proof. intros H. unfold all_tags. by rewrite (coll_db w w' _ H). Qed.

Lemma filterM_pure {A : Type} (p : A -> M bool) (q : A -> bool) (xs : list A)
    (w : World) :
  (forall x, x ∈ xs -> p x w = (Ok (q x), w)) ->
  filterM p xs w = (Ok (List.filter q xs), w).
Proof.
  induction xs as [|x xs IH]; intros H; [reflexivity |].
  simpl. run_bind ltac:(apply H, list_elem_of_here).
  run_bind ltac:(apply IH; intros y Hy; apply H; by apply list_elem_of_further).
  by destruct (q x).
Qed.

Lemma findM_pure {A : Type} (p : A -> M bool) (q : A -> bool) (xs : list A)
    (w : World) :
  (forall x, x ∈ xs -> p x w = (Ok (q x), w)) ->
  findM p xs w = (Ok (List.find q xs), w).
Proof.
  induction xs as [|x xs IH]; intros H; [reflexivity |].
  simpl. run_bind ltac:(apply H, list_elem_of_here).
  destruct (q x); [reflexivity |].
  apply IH. intros y Hy. apply H. by apply list_elem_of_further.
Qed.

Lemma find_filter_implied {A : Type} (p q : A -> bool) (xs : list A) :
  (forall x, p x = true -> q x = true) ->
  List.find p (List.filter q xs) = List.find p xs.
Proof.
  intros H. induction xs as [|x xs IH]; [reflexivity |].
  simpl. destruct (q x) eqn:Hq; simpl.
  - by rewrite IH.
  - destruct (p x) eqn:Hp; [| exact IH].
    rewrite (H x Hp) in Hq. discriminate Hq.
Qed.

Lemma prefix_refl (s : string) : String.prefix s s = true.
Proof.
  induction s as [|c s IH]; [reflexivity |].
  simpl. destruct (ascii_dec c c); [exact IH | done].
Qed.

Lemma includes_refl (s : string) : includes s s = true.
Proof.
  destruct s as [|c s]; [reflexivity |].
  change (includes (String c s) (String c s))
    with (String.prefix (String c s) (String c s) || includes s (String c s))%bool.
  by rewrite prefix_refl.
Qed.

Lemma typed_name (d : Obj) :
  name_is_string d = true -> is_Some (d !! "name") ->
  exists s, d !! "name" = Some (VStr s).
Proof.
  unfold name_is_string. intros Ht [v Hv]. rewrite Hv in *.
  destruct v; try discriminate Ht. by eexists.
Qed.

Lemma field_with_id_name (id : string) (d : Obj) (s : string) :
  d !! "name" = Some (VStr s) -> field (with_id id d) "name" = Some (VStr s).
Proof.
  intros H. unfold field. rewrite with_id_lookup_ne by done. by rewrite H.
Qed.

Lemma all_tags_named (w : World) (t : Obj) :
  tags_typed w -> t ∈ all_tags w -> exists s, field t "name" = Some (VStr s).
Proof.
  intros Hty Hin. apply elem_of_all_tags in Hin as (id & d & -> & Hd & Hname).
  destruct (typed_name d (Hty id d Hd) Hname) as [s Hs].
  exists s. by apply field_with_id_name.
Qed.

(** ** Letters *)

Lemma ascii_eq_nat (a b : ascii) : a = b <-> nat_of_ascii a = nat_of_ascii b.
Proof.
  split; [by intros -> |]. intros H.
  rewrite <- (ascii_nat_embedding a), <- (ascii_nat_embedding b). by rewrite H.
Qed.

(** Folding two characters gives the same exactly when they are the same
    letter. *)
Lemma lower_ascii_same_letter (a b : ascii) :
  lower_ascii a = lower_ascii b <-> same_letter a b = true.
Proof.
  unfold lower_ascii, same_letter, is_capital.
  pose proof (nat_ascii_bounded a) as Ha. pose proof (nat_ascii_bounded b) as Hb.
  rewrite !orb_true_iff, !andb_true_iff, Ascii.eqb_eq, !Nat.eqb_eq, !Nat.leb_le.
  destruct (Nat.leb_spec 65 (nat_of_ascii a)), (Nat.leb_spec (nat_of_ascii a) 90),
    (Nat.leb_spec 65 (nat_of_ascii b)), (Nat.leb_spec (nat_of_ascii b) 90);
    cbn [andb]; rewrite !ascii_eq_nat, ?nat_ascii_embedding by lia; lia.
Qed.

Lemma fold_ascii_caseless_eq (s t : string) :
  fold_ascii s = fold_ascii t <-> caseless_eq s t = true.
Proof.
  revert t. induction s as [| a s IH]; intros [| b t]; cbn [fold_ascii caseless_eq];
    try done.
  rewrite andb_true_iff, <- IH, <- lower_ascii_same_letter. split.
  - by intros [= -> ->].
  - by intros [-> ->].
Qed.

Lemma fold_ascii_prefix (sub s : string) :
  String.prefix (fold_ascii sub) (fold_ascii s) = caseless_prefix sub s.
Proof.
  revert s. induction sub as [| a sub IH]; intros [| b s];
    cbn [fold_ascii caseless_prefix String.prefix]; try done.
  rewrite <- IH. destruct (ascii_dec (lower_ascii a) (lower_ascii b)) as [Heq | Hne].
  - apply lower_ascii_same_letter in Heq. by rewrite Heq.
  - destruct (same_letter a b) eqn:Hs; [| done].
    apply lower_ascii_same_letter in Hs. done.
Qed.

Lemma fold_ascii_includes (s sub : string) :
  includes (fold_ascii s) (fold_ascii sub) = caseless_includes s sub.
Proof.
  induction s as [| a s IH].
  - cbn [fold_ascii includes caseless_includes].
    by rewrite <- (fold_ascii_prefix sub EmptyString).
  - change (includes (fold_ascii (String a s)) (fold_ascii sub))
      with (String.prefix (fold_ascii sub) (fold_ascii (String a s)) ||
            includes (fold_ascii s) (fold_ascii sub)).
    cbn [caseless_includes]. by rewrite fold_ascii_prefix, IH.
Qed.

(** The folding is an instance of what is assumed of the engine. *)
Lemma fold_ascii_folds : folds_ascii fold_ascii.
Proof. by intros s _. Qed.

Section tags.

(** [String.prototype.toLowerCase], and what is assumed of it. *)
Variable toLowerCase : string -> string.
Hypothesis toLowerCase_ascii : folds_ascii toLowerCase.

(** On names of ASCII characters the program's test is the equality up to
    the case of the letters. *)
Lemma folded_caseless_eq (m n : string) :
  is_ascii m = true -> is_ascii n = true ->
  (toLowerCase m = toLowerCase n <-> caseless_eq m n = true).
Proof.
  intros Hm Hn. rewrite (toLowerCase_ascii m Hm), (toLowerCase_ascii n Hn).
  apply fold_ascii_caseless_eq.
Qed.

Lemma folded_caseless_includes (m n : string) :
  is_ascii m = true -> is_ascii n = true ->
  includes (toLowerCase m) (toLowerCase n) = caseless_includes m n.
Proof.
  intros Hm Hn. rewrite (toLowerCase_ascii m Hm), (toLowerCase_ascii n Hn).
  apply fold_ascii_includes.
Qed.

Lemma js_toLowerCase_name (t : Obj) (s : string) (w : World) :
  field t "name" = Some (VStr s) ->
  js_toLowerCase toLowerCase (field t "name") w = (Ok (toLowerCase (name_of t)), w).
Proof. intros H. unfold name_of. rewrite H. reflexivity. Qed.

Lemma searchTagsByName_pure (n : string) (w : World) :
  tags_typed w ->
  tagRepository.searchTagsByName toLowerCase (Some (VStr n)) w =
    (Ok (List.filter (fun t => includes (toLowerCase (name_of t)) (toLowerCase n))
           (all_tags w)), w).
Proof.
  intros Hty. unfold tagRepository.searchTagsByName, try_catch.
  run_bind ltac:(apply getAllTags_all_tags).
  run_bind ltac:(reflexivity).
  erewrite filterM_pure; [reflexivity |].
  intros t Ht. destruct (all_tags_named w t Hty Ht) as [s Hs].
  run_bind ltac:(by eapply js_toLowerCase_name).
  reflexivity.
Qed.

Lemma find_exact_match (tag : Obj) (n : string) (w : World) :
  tags_typed w ->
  field tag "name" = Some (VStr n) ->
  findM
    (fun t =>
       n ← js_toLowerCase toLowerCase (field t "name");
       m ← js_toLowerCase toLowerCase (field tag "name");
       mret (String.eqb n m))
    (List.filter (fun t => includes (toLowerCase (name_of t)) (toLowerCase n))
       (all_tags w)) w = (Ok (exact_match toLowerCase n w), w).
Proof.
  intros Hty Hn. unfold exact_match.
  rewrite <- (find_filter_implied _
    (fun t => includes (toLowerCase (name_of t)) (toLowerCase n))).
  - apply findM_pure. intros t Ht.
    apply list_elem_of_In, filter_In in Ht as [Ht _].
    apply list_elem_of_In in Ht.
    destruct (all_tags_named w t Hty Ht) as [s Hs].
    run_bind ltac:(by eapply js_toLowerCase_name).
    rewrite Hn. reflexivity.
  - intros t Ht. apply String.eqb_eq in Ht. rewrite Ht. apply includes_refl.
Qed.

Lemma createTag_found (tag t : Obj) (n : string) (w : World) :
  tags_typed w ->
  field tag "name" = Some (VStr n) ->
  exact_match toLowerCase n w = Some t ->
  tagRepository.createTag toLowerCase tag w =
    (Ok t, with_console (fun c => c ++ [exists_log tag]) w).
Proof.
  intros Hty Hn Hm. unfold tagRepository.createTag, try_catch.
  run_bind ltac:(rewrite Hn; by apply searchTagsByName_pure).
  run_bind ltac:(by apply find_exact_match).
  rewrite Hm. reflexivity.
Qed.

Lemma createTag_new (tag : Obj) (n : string) (w : World) :
  tags_typed w ->
  field tag "name" = Some (VStr n) ->
  exact_match toLowerCase n w = None ->
  has_undefined tag = false ->
  let id := fresh_string "auto" (coll w tagRepository.COLLECTION_NAME) in
  tagRepository.createTag toLowerCase tag w =
    (Ok (with_id id tag),
     put_doc tagRepository.COLLECTION_NAME id (write_new (serverTime w) tag)
       (with_trace (fun t => t ++ [EvAddDoc tagRepository.COLLECTION_NAME id]) w)).
Proof.
  intros Hty Hn Hm Hu id. unfold tagRepository.createTag, try_catch.
  run_bind ltac:(rewrite Hn; by apply searchTagsByName_pure).
  run_bind ltac:(by apply find_exact_match).
  rewrite Hm.
  run_bind ltac:(by apply addDoc_ok).
  reflexivity.
Qed.

Lemma name_of_with_id (id : string) (d : Obj) (s : string) :
  d !! "name" = Some (VStr s) -> name_of (with_id id d) = s.
Proof. intros H. unfold name_of. by rewrite (field_with_id_name id d s H). Qed.

Lemma same_name_true (n : string) (d : Obj) :
  same_name toLowerCase n d = true ->
  exists m, d !! "name" = Some (VStr m) /\ toLowerCase m = toLowerCase n.
Proof.
  unfold same_name. destruct (d !! "name") as [[]|]; try discriminate.
  intros H. apply String.eqb_eq in H. by eexists.
Qed.

Lemma exact_match_Some (n : string) (w : World) (t : Obj) :
  tags_typed w ->
  exact_match toLowerCase n w = Some t ->
  exists id d, t = with_id id d /\
    coll w tagRepository.COLLECTION_NAME !! id = Some d /\ same_name toLowerCase n d = true.
Proof.
  intros Hty Hm. apply find_some in Hm as [Hin Heq].
  apply list_elem_of_In, elem_of_all_tags in Hin as (id & d & -> & Hd & Hname).
  destruct (typed_name d (Hty id d Hd) Hname) as [s Hs].
  exists id, d. split; [done |]. split; [done |].
  unfold same_name. rewrite Hs. by rewrite (name_of_with_id id d s Hs) in Heq.
Qed.

Lemma exact_match_is_Some (n : string) (w : World) (id : string) (d : Obj) :
  coll w tagRepository.COLLECTION_NAME !! id = Some d ->
  same_name toLowerCase n d = true ->
  is_Some (exact_match toLowerCase n w).
Proof.
  intros Hd Hsame. destruct (same_name_true n d Hsame) as (m & Hm & Hlow).
  destruct (exact_match toLowerCase n w) as [t|] eqn:E; [by eexists |].
  exfalso. unfold exact_match in E.
  assert (In (with_id id d) (all_tags w)) as Hin.
  { apply list_elem_of_In, elem_of_all_tags. exists id, d.
    split; [done |]. split; [done |]. by rewrite Hm. }
  pose proof (find_none _ _ E _ Hin) as Hf. simpl in Hf.
  rewrite (name_of_with_id id d m Hm), Hlow, String.eqb_refl in Hf. discriminate Hf.
Qed.

Lemma exact_match_None (n : string) (w : World) :
  tags_typed w ->
  (forall id d, coll w tagRepository.COLLECTION_NAME !! id = Some d ->
     same_name toLowerCase n d = false) ->
  exact_match toLowerCase n w = None.
Proof.
  intros Hty Hnone. destruct (exact_match toLowerCase n w) as [t|] eqn:E; [|done].
  destruct (exact_match_Some n w t Hty E) as (id & d & _ & Hd & Hsame).
  rewrite (Hnone id d Hd) in Hsame. discriminate Hsame.
Qed.

Lemma same_name_lower (n n' : string) (d : Obj) :
  toLowerCase n' = toLowerCase n -> same_name toLowerCase n' d = same_name toLowerCase n d.
Proof. intros H. unfold same_name. by rewrite H. Qed.

Lemma tag_strings_lookup (tag : Obj) (k : string) (v : Value) :
  tag_strings tag -> tag !! k = Some v -> exists s, v = VStr s.
Proof.
  intros H Hk. specialize (H k v Hk). simpl in H.
  destruct v; try discriminate H. by eexists.
Qed.

Lemma coll_put_doc (c id : string) (d : Obj) (w : World) :
  coll (put_doc c id d w) c = <[id := d]> (coll w c).
Proof. unfold coll, put_doc. simpl. by rewrite lookup_insert_eq. Qed.

(** C9: let the stored tags have string names and let the input's name be
    the string [n].  (1) If some stored tag has the name [n] up to case,
    [createTag] returns a stored tag with that name up to case, the very tag
    when it is the only one, and writes nothing: the database is unchanged
    and no write is issued.  (2) If no stored tag has the name and the input
    holds strings only, [createTag] creates the tag under a new id; every
    later [createTag] whose name equals [n] up to case returns that created
    tag, id included, and leaves the database unchanged.  (3) Two names are
    equal up to case when [toLowerCase] gives the same for both, which is the
    program's test; this holds for whatever function the engine's
    [toLowerCase] is, and for names of ASCII characters it is the equality up
    to the case of the letters [A] to [Z]. *)
Theorem createTag_idempotent (w : World) (tag : Obj) (n : string) :
  tags_typed w ->
  field tag "name" = Some (VStr n) ->
  let r := tagRepository.createTag toLowerCase tag w in
  (forall id d,
     coll w tagRepository.COLLECTION_NAME !! id = Some d ->
     same_name toLowerCase n d = true ->
     exists id' d',
       r.1 = Ok (with_id id' d') /\
       coll w tagRepository.COLLECTION_NAME !! id' = Some d' /\
       same_name toLowerCase n d' = true /\
       db r.2 = db w /\
       trace r.2 = trace w /\
       ((forall j e, coll w tagRepository.COLLECTION_NAME !! j = Some e ->
           same_name toLowerCase n e = true -> j = id) ->
        id' = id /\ d' = d)) /\
  ((forall id d, coll w tagRepository.COLLECTION_NAME !! id = Some d ->
      same_name toLowerCase n d = false) ->
   tag_strings tag ->
   exists id,
     coll w tagRepository.COLLECTION_NAME !! id = None /\
     r.1 = Ok (with_id id tag) /\
     coll r.2 tagRepository.COLLECTION_NAME =
       <[id := tag]> (coll w tagRepository.COLLECTION_NAME) /\
     forall tag' n',
       field tag' "name" = Some (VStr n') ->
       toLowerCase n' = toLowerCase n ->
       let r' := tagRepository.createTag toLowerCase tag' r.2 in
       r'.1 = Ok (with_id id tag) /\ db r'.2 = db r.2) /\
  (forall d m, d !! "name" = Some (VStr m) ->
     is_ascii m = true -> is_ascii n = true ->
     (same_name toLowerCase n d = true <-> caseless_eq m n = true)) /\
  (forall n', is_ascii n' = true -> is_ascii n = true ->
     (toLowerCase n' = toLowerCase n <-> caseless_eq n' n = true)).
Proof.
  intros Hty Hn r. subst r.
  split; [| split; [| split]]; cycle 2.
  { intros d m Hm Ham Han. unfold same_name. rewrite Hm, String.eqb_eq.
    by apply folded_caseless_eq. }
  { intros n' Han' Han. by apply folded_caseless_eq. }
  - intros id d Hd Hsame.
    destruct (exact_match_is_Some n w id d Hd Hsame) as [t Ht].
    destruct (exact_match_Some n w t Hty Ht) as (id' & d' & -> & Hd' & Hsame').
    rewrite (createTag_found tag _ n w Hty Hn Ht). cbn [fst snd].
    exists id', d'. repeat (split; [done |]).
    intros Huniq. assert (id' = id) as -> by by eapply Huniq.
    split; [done |]. congruence.
  - intros Hnone Hstr.
    assert (has_undefined tag = false) as Hu.
    { apply has_undefined_strings. intros k v. by apply tag_strings_lookup. }
    rewrite (createTag_new tag n w Hty Hn (exact_match_None n w Hty Hnone) Hu).
    cbn [fst snd].
    rewrite write_new_strings by (intros k v; by apply tag_strings_lookup).
    set (id := fresh_string "auto" (coll w tagRepository.COLLECTION_NAME)).
    set (w1 := put_doc _ id tag _).
    assert (coll w tagRepository.COLLECTION_NAME !! id = None) as Hfresh
      by apply fresh_string_fresh.
    assert (coll w1 tagRepository.COLLECTION_NAME =
              <[id := tag]> (coll w tagRepository.COLLECTION_NAME)) as Hc1.
    { subst w1. rewrite coll_put_doc. reflexivity. }
    assert (tag !! "name" = Some (VStr n)) as Hn'.
    { unfold field in Hn. by destruct (tag !! "name") as [[]|]. }
    exists id. split; [exact Hfresh |]. split; [done |]. split; [exact Hc1 |].
    intros tag' n' Htag' Hlow.
    assert (tags_typed w1) as Hty1.
    { unfold tags_typed. rewrite Hc1. apply map_Forall_insert_2; [| exact Hty].
      unfold name_is_string. by rewrite Hn'. }
    assert (forall j e, coll w1 tagRepository.COLLECTION_NAME !! j = Some e ->
              same_name toLowerCase n' e = true -> j = id /\ e = tag) as Honly.
    { intros j e Hj Hs. rewrite Hc1 in Hj.
      apply lookup_insert_Some in Hj as [[-> ->] | [_ Hj]]; [done |].
      rewrite (same_name_lower n n' e Hlow), (Hnone j e Hj) in Hs. discriminate Hs. }
    assert (same_name toLowerCase n' tag = true) as Hsame.
    { unfold same_name. by rewrite Hn', Hlow, String.eqb_refl. }
    destruct (exact_match_is_Some n' w1 id tag) as [t Ht];
      [by rewrite Hc1, lookup_insert_eq | exact Hsame |].
    destruct (exact_match_Some n' w1 t Hty1 Ht) as (j & e & -> & Hj & Hs).
    destruct (Honly j e Hj Hs) as [-> ->].
    rewrite (createTag_found tag' _ n' w1 Hty1 Htag' Ht). done.
Qed.

End tags.

Lemma createTag_idempotent_witness :
  let w := Example.world {[ "tags" := {[ "t1" := Example.urgent ]} ]} in
  let w0 := Example.world ∅ in
  let r := tagRepository.createTag fold_ascii {[ "name" := VStr "URGENT" ]} w in
  let r0 := tagRepository.createTag fold_ascii Example.urgent w0 in
  (r.1 = Ok (with_id "t1" Example.urgent) /\ db r.2 = db w) /\
  exists id,
    r0.1 = Ok (with_id id Example.urgent) /\
    (tagRepository.createTag fold_ascii {[ "name" := VStr "urGENT" ]} r0.2).1
      = Ok (with_id id Example.urgent).
Proof.
  intros w w0 r r0. split.
  - assert (tags_typed w) as Hty by (unfold tags_typed; compute_eq).
    assert (field ({[ "name" := VStr "URGENT" ]} : Obj) "name" = Some (VStr "URGENT"))
      as Hn by compute_eq.
    destruct (createTag_idempotent fold_ascii fold_ascii_folds w {[ "name" := VStr "URGENT" ]}
                "URGENT" Hty Hn)
      as [HA _].
    destruct (HA "t1" Example.urgent) as (id' & d' & Hr & _ & _ & Hdb & _ & Huniq).
    + compute_eq.
    + compute_eq.
    + destruct Huniq as [-> ->].
      * intros j e Hj _.
        assert (coll w tagRepository.COLLECTION_NAME = {[ "t1" := Example.urgent ]}) as Hc
          by compute_eq.
        rewrite Hc in Hj. by apply lookup_singleton_Some in Hj as [? _].
      * split; [exact Hr | exact Hdb].
  - assert (tags_typed w0) as Hty by (unfold tags_typed; compute_eq).
    assert (field Example.urgent "name" = Some (VStr "Urgent")) as Hn by compute_eq.
    destruct (createTag_idempotent fold_ascii fold_ascii_folds w0 Example.urgent "Urgent" Hty Hn)
      as [_ [HB _]].
    destruct HB as (id & _ & Hr & _ & Hrepeat).
    + intros id d Hd. exfalso. revert Hd.
      assert (coll w0 tagRepository.COLLECTION_NAME = ∅) as -> by compute_eq.
      by rewrite lookup_empty.
    + unfold tag_strings. compute_eq.
    + exists id. split; [exact Hr |].
      apply (Hrepeat {[ "name" := VStr "urGENT" ]} "urGENT"); compute_eq.
Defined.

(** ** The action predicates, further *)

Lemma is_status_inj (p : Obj) (s s' : PIRStatus) :
  PIRDetail.is_status p s = true -> PIRDetail.is_status p s' = true -> s = s'.
Proof.
  rewrite !is_status_true. unfold Spec.has_status. intros -> H.
  by destruct s, s'.
Qed.

Lemma is_status_other (p : Obj) (s s' : PIRStatus) :
  s ≠ s' -> PIRDetail.is_status p s = true -> PIRDetail.is_status p s' = false.
Proof.
  intros Hne Hs. destruct (PIRDetail.is_status p s') eqn:Hs'; [| done].
  destruct Hne. by eapply is_status_inj.
Qed.

(** X1: no two of the four status-changing actions are offered at once:
    whatever the user and the PIR, [canRequest], [canSubmit], [canReview] and
    [canAcceptReject] are pairwise exclusive.  An Accepted or Rejected PIR is
    final in the interface: none of the four is offered to anyone, and only
    an administrator may still edit it. *)
Theorem action_predicates_exclusive (currentUser : option Obj) (selectedPIR : Obj) :
  PIRDetail.canRequest currentUser selectedPIR &&
    PIRDetail.canSubmit currentUser selectedPIR = false /\
  PIRDetail.canRequest currentUser selectedPIR &&
    PIRDetail.canReview currentUser selectedPIR = false /\
  PIRDetail.canRequest currentUser selectedPIR &&
    PIRDetail.canAcceptReject currentUser selectedPIR = false /\
  PIRDetail.canSubmit currentUser selectedPIR &&
    PIRDetail.canReview currentUser selectedPIR = false /\
  PIRDetail.canSubmit currentUser selectedPIR &&
    PIRDetail.canAcceptReject currentUser selectedPIR = false /\
  PIRDetail.canReview currentUser selectedPIR &&
    PIRDetail.canAcceptReject currentUser selectedPIR = false /\
  (PIRDetail.is_status selectedPIR ACCEPTED || PIRDetail.is_status selectedPIR REJECTED) &&
    (PIRDetail.canRequest currentUser selectedPIR ||
     PIRDetail.canSubmit currentUser selectedPIR ||
     PIRDetail.canReview currentUser selectedPIR ||
     PIRDetail.canAcceptReject currentUser selectedPIR) = false /\
  (PIRDetail.is_status selectedPIR ACCEPTED || PIRDetail.is_status selectedPIR REJECTED) &&
    PIRDetail.canEdit currentUser selectedPIR &&
    negb (match currentUser with
          | Some u => PIRDetail.is_role u ADMIN
          | None => false
          end) = false.
Proof.
  destruct currentUser as [u|].
  2: { cbn [PIRDetail.canRequest PIRDetail.canSubmit PIRDetail.canReview
            PIRDetail.canAcceptReject PIRDetail.canEdit orb andb].
       by rewrite !andb_false_r. }
  unfold PIRDetail.canRequest, PIRDetail.canSubmit, PIRDetail.canReview,
    PIRDetail.canAcceptReject, PIRDetail.canEdit.
  do 6 (split;
    [match goal with
     | |- (PIRDetail.is_status ?p ?s && _) && (PIRDetail.is_status ?p ?s' && _) = false =>
         destruct (PIRDetail.is_status p s) eqn:Hs; [| done];
         rewrite (is_status_other p s s') by done;
         by rewrite andb_false_r
     end |]).
  assert (PIRDetail.is_status selectedPIR ACCEPTED ||
          PIRDetail.is_status selectedPIR REJECTED = true ->
          exists s, (s = ACCEPTED \/ s = REJECTED) /\
            PIRDetail.is_status selectedPIR s = true) as Hfinal.
  { intros H. apply orb_true_iff in H as [H | H]; eauto. }
  destruct (PIRDetail.is_status selectedPIR ACCEPTED ||
            PIRDetail.is_status selectedPIR REJECTED); [| done].
  destruct (Hfinal eq_refl) as (s & Hs & Hst).
  rewrite (is_status_other selectedPIR s DRAFT), (is_status_other selectedPIR s REQUESTED),
    (is_status_other selectedPIR s SUBMITTED), (is_status_other selectedPIR s REVIEWED)
    by (done || by destruct Hs as [-> | ->]).
  cbn [andb orb]. rewrite andb_false_r, orb_false_r.
  split; [done |]. by destruct (PIRDetail.is_role u ADMIN).
Qed.

(** X2: the form and the detail view agree on who may edit a PIR; whoever
    is offered the Request action may also edit; and the form in create mode
    is open to everyone. *)
Theorem canEdit_form_and_detail (currentUser : option Obj) (selectedPIR : Obj) :
  PIRForm.canEdit PIRForm.edit (Some selectedPIR) currentUser =
    PIRDetail.canEdit currentUser selectedPIR /\
  PIRDetail.canRequest currentUser selectedPIR &&
    negb (PIRDetail.canEdit currentUser selectedPIR) = false /\
  PIRForm.canEdit PIRForm.create None currentUser = true /\
  PIRForm.canEdit PIRForm.edit None currentUser = false.
Proof.
  destruct currentUser as [u|]; [| done].
  unfold PIRForm.canEdit, PIRDetail.canEdit, PIRDetail.canRequest.
  repeat split.
  by destruct (PIRDetail.is_status selectedPIR DRAFT), (PIRDetail.is_role u ADMIN),
    (strict_eq (field u "id") (field selectedPIR "requesterId")).
Qed.

(** ** [handleStatusChange], further *)

Lemma try_finally_catch_total (m : M unit) (h : JsError -> M unit)
    (f : World -> World) (w : World) :
  (forall e w1, exists w2, h e w1 = (Ok tt, w2)) ->
  exists w', try_finally (try_catch m h) f w = (Ok tt, f w').
Proof.
  intros Hh. unfold try_finally, try_catch.
  destruct (m w) as [[[]|e] w1]; [by eexists |].
  destruct (Hh e w1) as [w2 ->]. by eexists.
Qed.

(** X3: [handleStatusChange] never throws: every failure of the update ends
    in [localError].  Without a route id, a selected PIR or a signed-in user
    it does nothing at all; otherwise it leaves [isUpdating] reset. *)
Theorem handleStatusChange_total (w : World) (id : option string)
    (newStatus : PIRStatus) :
  let r := PIRDetail.handleStatusChange id newStatus w in
  r.1 = Ok tt /\
  match id, selectedPIR (app w), currentUser (app w) with
  | Some id, Some _, Some _ =>
      if String.eqb id EmptyString then r.2 = w else isUpdating (ui r.2) = false
  | _, _, _ => r.2 = w
  end.
Proof.
  intros r. subst r. unfold PIRDetail.handleStatusChange.
  run_bind ltac:(reflexivity). run_bind ltac:(reflexivity).
  destruct id as [id|], (selectedPIR (app w)) as [sel|], (currentUser (app w)) as [u|];
    try done.
  destruct (String.eqb id EmptyString); [done |].
  run_bind ltac:(reflexivity).
  match goal with
  | |- context [try_finally (try_catch ?m ?h) ?f ?w1] =>
      destruct (try_finally_catch_total m h f w1) as [w' ->];
        [intros; by eexists |]
  end.
  done.
Qed.

Lemma status_additionalData_unchecked (to : PIRStatus) (uid uname : string)
    (u sel : Obj) (w : World) :
  field u "id" = Some (VStr uid) ->
  field u "displayName" = Some (VStr uname) ->
  to ≠ ACCEPTED -> to ≠ REJECTED ->
  PIRDetail.status_additionalData to u sel w = (Ok (additionalData_of to uid uname), w).
Proof.
  intros Hid Hname Ha Hr. destruct to; try done.
  unfold PIRDetail.status_additionalData, additionalData_of. by rewrite Hid, Hname.
Qed.

(** X4: [handleStatusChange] checks the actor only for the targets Accepted
    and Rejected.  For any other target status, any signed-in user, whatever
    the role, and whatever PIR is selected and whatever status is stored, the
    update goes through: the stored PIR ends in the target status and no
    error is shown. *)
Theorem handleStatusChange_unchecked_targets (w : World) (id uid uname : string)
    (to : PIRStatus) (u sel d : Obj) :
  id ≠ EmptyString ->
  coll w pirRepository.COLLECTION_NAME !! id = Some d ->
  selectedPIR (app w) = Some sel ->
  currentUser (app w) = Some u ->
  field u "id" = Some (VStr uid) ->
  field u "displayName" = Some (VStr uname) ->
  to ≠ ACCEPTED -> to ≠ REJECTED ->
  let r := PIRDetail.handleStatusChange (Some id) to w in
  r.1 = Ok tt /\
  localError (ui r.2) = None /\
  db r.2 = db (status_updated id to (additionalData_of to uid uname) d w) /\
  exists d',
    coll r.2 pirRepository.COLLECTION_NAME !! id = Some d' /\
    d' !! "status" = Some (status_val to) /\
    (to = REVIEWED -> d' !! "reviewerId" = Some (VStr uid)).
Proof.
  intros Hid Hd Hsel Hu Huid Huname Ha Hr r. subst r.
  unfold PIRDetail.handleStatusChange.
  run_bind ltac:(unfold gets; by rewrite Hsel).
  run_bind ltac:(unfold gets; by rewrite Hu).
  assert (String.eqb id EmptyString = false) as ->.
  { by apply String.eqb_neq. }
  run_bind ltac:(reflexivity).
  unfold try_finally, try_catch.
  run_bind ltac:(by eapply status_additionalData_unchecked).
  set (w1 := with_ui (PIRDetail.set_ui true None) w).
  destruct (pirSlice_updatePIRStatus_ok id to (additionalData_of to uid uname) d w1
              (additionalData_of_defined to uid uname) Hd) as ([p Hp] & Hui & Hdb).
  destruct (pirSlice.updatePIRStatus id to (additionalData_of to uid uname) w1)
    as [r1 w2] eqn:Hreq.
  cbn [fst snd] in Hp, Hui, Hdb. subst r1.
  run_bind ltac:(exact Hreq).
  cbn [fst snd].
  split; [done |]. split; [simpl; by rewrite Hui |]. split; [exact Hdb |].
  eexists. split.
  { erewrite coll_db; [| exact Hdb]. unfold status_updated.
    apply coll_put_doc_eq. }
  split.
  - rewrite write_merge_lookup, status_updates_status.
    assert (additionalData_of to uid uname !! "status" = None) as ->; [| done].
    by destruct to.
  - intros ->. rewrite write_merge_lookup.
    rewrite status_updates_other by done. done.
Qed.

Lemma handleStatusChange_unchecked_targets_witness :
  let w := with_app (set_pirs [] (Some (with_id "p1" (Example.pir DRAFT))) false)
             (with_app (set_user (Some Example.bob) true false)
                (Example.world {[ "pirs" := {[ "p1" := Example.pir DRAFT ]} ]})) in
  let r := PIRDetail.handleStatusChange (Some "p1") REVIEWED w in
  r.1 = Ok tt /\
  localError (ui r.2) = None /\
  exists d',
    coll r.2 "pirs" !! "p1" = Some d' /\
    d' !! "status" = Some (VStr "reviewed") /\
    d' !! "reviewerId" = Some (VStr "u-bob").
Proof.
  intros w r.
  destruct (handleStatusChange_unchecked_targets w "p1" "u-bob" "Bob" REVIEWED
              Example.bob (with_id "p1" (Example.pir DRAFT)) (Example.pir DRAFT))
    as (H1 & H2 & _ & d' & H3 & H4 & H5);
    [done | compute_eq | reflexivity | reflexivity | compute_eq | compute_eq
    | done | done |].
  split; [exact H1 |]. split; [exact H2 |].
  exists d'. split; [exact H3 |]. split; [exact H4 |]. by apply H5.
Defined.

Lemma pirSlice_updatePIRStatus_missing (id : string) (status : PIRStatus)
    (additionalData : Obj) (w : World) :
  coll w pirRepository.COLLECTION_NAME !! id = None ->
  let r := pirSlice.updatePIRStatus id status additionalData w in
  r.1 = Throw (pirRepository.pir_not_found id) /\
  db r.2 = db w /\ trace r.2 = trace w /\ ui r.2 = ui w /\
  error (app r.2) = Some (message (pirRepository.pir_not_found id)) /\
  isLoading (app r.2) = false.
Proof.
  intros Hd r. subst r. unfold pirSlice.updatePIRStatus.
  run_bind ltac:(reflexivity).
  unfold try_catch.
  run_throw ltac:(apply updatePIRStatus_missing; exact Hd).
  done.
Qed.

(** X5: when the PIR on display is no longer stored, [handleStatusChange]
    writes nothing and shows an error: the permission error for a refused
    Accept or Reject, and the repository's "not found" otherwise, which the
    store records as well. *)
Theorem handleStatusChange_missing_pir (w : World) (id : string) (to : PIRStatus)
    (u sel : Obj) :
  id ≠ EmptyString ->
  selectedPIR (app w) = Some sel ->
  currentUser (app w) = Some u ->
  coll w pirRepository.COLLECTION_NAME !! id = None ->
  let r := PIRDetail.handleStatusChange (Some id) to w in
  r.1 = Ok tt /\
  db r.2 = db w /\
  trace r.2 = trace w /\
  isUpdating (ui r.2) = false /\
  localError (ui r.2) =
    Some (message (if denied to u sel then PIRDetail.permission_denied
                   else pirRepository.pir_not_found id)) /\
  error (app r.2) =
    (if denied to u sel then error (app w)
     else Some (message (pirRepository.pir_not_found id))).
Proof.
  intros Hid Hsel Hu Hd r. subst r.
  unfold PIRDetail.handleStatusChange.
  run_bind ltac:(unfold gets; by rewrite Hsel).
  run_bind ltac:(unfold gets; by rewrite Hu).
  assert (String.eqb id EmptyString = false) as ->.
  { by apply String.eqb_neq. }
  run_bind ltac:(reflexivity).
  unfold try_finally, try_catch.
  set (w1 := with_ui (PIRDetail.set_ui true None) w).
  assert (exists ad,
    PIRDetail.status_additionalData to u sel w1 =
      if denied to u sel then (Throw PIRDetail.permission_denied, w1)
      else (Ok ad, w1)) as [ad Had].
  { unfold PIRDetail.status_additionalData, denied.
    destruct to; try (by eexists).
    all: destruct (negb (PIRDetail.is_role u ADMIN) &&
                   negb (strict_eq (field sel "reviewerId") (field u "id")));
      by eexists. }
  destruct (denied to u sel).
  { run_throw ltac:(exact Had). done. }
  run_bind ltac:(exact Had).
  destruct (pirSlice_updatePIRStatus_missing id to ad w1 Hd)
    as (H1 & H2 & H3 & H4 & H5 & _).
  destruct (pirSlice.updatePIRStatus id to ad w1) as [r1 w2] eqn:Hreq.
  simpl in H1, H2, H3, H4, H5. subst r1.
  run_throw ltac:(exact Hreq).
  simpl. rewrite H2, H3, H5. done.
Qed.

Lemma handleStatusChange_missing_pir_witness :
  let w := with_app (set_pirs [] (Some (with_id "p1" (Example.pir DRAFT))) false)
             (with_app (set_user (Some Example.alice) true false) (Example.world ∅)) in
  let r := PIRDetail.handleStatusChange (Some "p1") REQUESTED w in
  db r.2 = db w /\
  localError (ui r.2) = Some "PIR with ID p1 not found".
Proof.
  intros w r.
  destruct (handleStatusChange_missing_pir w "p1" REQUESTED Example.alice
              (with_id "p1" (Example.pir DRAFT)))
    as (_ & H1 & _ & _ & H2 & _); [done | reflexivity | reflexivity | compute_eq |].
  split; [exact H1 | exact H2].
Defined.

(** ** [createPIR] and [updatePIR] *)

Lemma has_undefined_empty : has_undefined (∅ : Obj) = false.
Proof. apply has_undefined_false. intros k. by rewrite lookup_empty. Qed.

(** An object literal without an undefined field. *)
Ltac literal_defined :=
  repeat (apply has_undefined_insert; [done |]); apply has_undefined_empty.

Lemma write_new_lookup (now : Z) (data : Obj) (k : string) :
  write_new now data !! k = resolve now None <$> data !! k.
Proof. unfold write_new. rewrite map_lookup_imap. by destruct (data !! k). Qed.

Lemma convertDates_lookup (obj : Obj) (k : string) :
  convertDatesToTimestamps obj !! k =
    (fun v => match v with VDate ms => VTimestamp ms | _ => v end) <$> obj !! k.
Proof. unfold convertDatesToTimestamps. by rewrite lookup_fmap. Qed.

Lemma resolve_convertDates (now : Z) (old : option Value) (v : Value) :
  resolve now old (match v with VDate ms => VTimestamp ms | _ => v end) =
    resolve now old v.
Proof. by destruct v. Qed.

Lemma or_else_defined (a : option Value) (b : Value) :
  b ≠ VUndefined -> or_else a b ≠ VUndefined.
Proof.
  intros Hb. unfold or_else. destruct a as [v|]; [| done].
  destruct (truthy (Some v)) eqn:Ht; [| done].
  intros ->. discriminate Ht.
Qed.

Lemma pir_record_defined (pir : Obj) (ms : Z) :
  has_undefined pir = false -> has_undefined (pir_record pir (VDate ms)) = false.
Proof.
  intros Hu. unfold pir_record, pir_defaults.
  do 2 (apply has_undefined_insert; [done |]). apply has_undefined_convertDates.
  do 3 (apply has_undefined_insert; [by apply or_else_defined |]).
  by do 2 (apply has_undefined_insert; [done |]).
Qed.

Lemma createPIR_ok (pir : Obj) (w : World) :
  has_undefined pir = false ->
  let id := fresh_string "auto" (coll w pirRepository.COLLECTION_NAME) in
  let now := VDate (clientTime w) in
  pirRepository.createPIR pir w =
    (Ok (with_id id (pir_defaults pir now)),
     put_doc pirRepository.COLLECTION_NAME id
       (write_new (serverTime w) (pir_record pir now))
       (with_trace (fun t => t ++ [EvAddDoc pirRepository.COLLECTION_NAME id]) w)) /\
  coll w pirRepository.COLLECTION_NAME !! id = None.
Proof.
  intros Hu id now.
  destruct (addDoc_ok pirRepository.COLLECTION_NAME (pir_record pir now) w)
    as [Hadd Hfresh]; [by apply pir_record_defined |].
  split; [| exact Hfresh].
  unfold pirRepository.createPIR, try_catch.
  run_bind ltac:(reflexivity).
  fold now. fold (pir_defaults pir now). fold (pir_record pir now).
  run_bind ltac:(exact Hadd).
  reflexivity.
Qed.

Lemma createPIR_undefined (pir : Obj) (w : World) :
  has_undefined (pir_record pir (VDate (clientTime w))) = true ->
  pirRepository.createPIR pir w =
    (Throw unsupported_undefined,
     with_console (fun c => c ++
       [{| level := LogError; text := "Error creating PIR:";
           detail := Some unsupported_undefined |}]) w).
Proof.
  intros Hu. unfold pirRepository.createPIR, try_catch.
  run_bind ltac:(reflexivity).
  fold (pir_defaults pir (VDate (clientTime w))).
  fold (pir_record pir (VDate (clientTime w))).
  unfold addDoc. rewrite Hu. reflexivity.
Qed.

Lemma getPIRById_stored (id : string) (d : Obj) (w : World) :
  coll w pirRepository.COLLECTION_NAME !! id = Some d ->
  pirRepository.getPIRById id w = (Ok (Some (with_id id (convertTimestampsToDates d))), w).
Proof.
  intros Hd. unfold pirRepository.getPIRById, try_catch.
  run_bind ltac:(unfold getDoc, gets; by rewrite Hd).
  reflexivity.
Qed.

Lemma pir_record_lookup (pir : Obj) (now : Value) (k : string) :
  k ≠ "createdAt" -> k ≠ "updatedAt" -> k ∉ list_fields ->
  pir_record pir now !! k =
    (fun v => match v with VDate ms => VTimestamp ms | _ => v end) <$> pir !! k.
Proof.
  intros Hc Hu Hl. unfold pir_record, pir_defaults.
  rewrite !lookup_insert_ne by done. rewrite convertDates_lookup.
  rewrite !lookup_insert_ne; [done | done | done | | |];
    intros <-; apply Hl; unfold list_fields;
    repeat first [apply list_elem_of_here | apply list_elem_of_further].
Qed.

Lemma pir_record_list_field (pir : Obj) (now : Value) (k : string) :
  k ∈ list_fields ->
  pir_record pir now !! k =
    Some (match or_else (field pir k) (VArr []) with
          | VDate ms => VTimestamp ms
          | v => v
          end).
Proof.
  intros Hk. unfold pir_record, pir_defaults.
  unfold list_fields in Hk. rewrite !elem_of_cons, elem_of_nil in Hk.
  destruct Hk as [-> | [-> | [-> | []]]];
    rewrite !lookup_insert_ne by done; rewrite convertDates_lookup.
  all: simplify_map_eq; by destruct (or_else _ _).
Qed.

(** X6: [createPIR] stores the PIR under an id no PIR had.  The stored
    [createdAt] and [updatedAt] are the server's time, whatever the caller
    supplied, while the object handed back carries the client's clock.  A
    list field the caller left out is stored as the empty array, a supplied
    array is kept; every other field is stored as given.  No other PIR
    changes, and reading the new id back yields the stored document. *)
Theorem createPIR_stored (w : World) (pir : Obj) :
  has_undefined pir = false ->
  let r := pirRepository.createPIR pir w in
  exists id d',
    coll w pirRepository.COLLECTION_NAME !! id = None /\
    r.1 = Ok (with_id id (pir_defaults pir (VDate (clientTime w)))) /\
    coll r.2 pirRepository.COLLECTION_NAME = <[id := d']> (coll w pirRepository.COLLECTION_NAME) /\
    d' !! "createdAt" = Some (VTimestamp (serverTime w)) /\
    d' !! "updatedAt" = Some (VTimestamp (serverTime w)) /\
    pir_defaults pir (VDate (clientTime w)) !! "createdAt" = Some (VDate (clientTime w)) /\
    (forall k, k ∈ list_fields -> field pir k = None -> d' !! k = Some (VArr [])) /\
    (forall k xs, k ∈ list_fields -> pir !! k = Some (VArr xs) ->
       d' !! k = Some (VArr xs)) /\
    (forall k, k ≠ "createdAt" -> k ≠ "updatedAt" -> k ∉ list_fields ->
       d' !! k = resolve (serverTime w) None <$> pir !! k) /\
    trace r.2 = trace w ++ [EvAddDoc pirRepository.COLLECTION_NAME id] /\
    (pirRepository.getPIRById id r.2).1 =
      Ok (Some (with_id id (convertTimestampsToDates d'))).
Proof.
  intros Hu r. subst r.
  destruct (createPIR_ok pir w Hu) as [-> Hfresh].
  set (id := fresh_string "auto" (coll w pirRepository.COLLECTION_NAME)) in *.
  set (now := VDate (clientTime w)).
  exists id, (write_new (serverTime w) (pir_record pir now)).
  cbn [fst snd].
  split; [exact Hfresh |]. split; [done |].
  split; [by rewrite coll_put_doc |].
  split; [rewrite write_new_lookup; unfold pir_record; by simplify_map_eq |].
  split; [rewrite write_new_lookup; unfold pir_record; by simplify_map_eq |].
  split; [unfold pir_defaults; by simplify_map_eq |].
  split.
  { intros k Hk Hnone. rewrite write_new_lookup, pir_record_list_field by done.
    by rewrite Hnone. }
  split.
  { intros k xs Hk Hxs. rewrite write_new_lookup, pir_record_list_field by done.
    unfold field. by rewrite Hxs. }
  split.
  { intros k Hc Hup Hl. rewrite write_new_lookup, pir_record_lookup by done.
    destruct (pir !! k) as [v|]; [| done]. simpl. by rewrite resolve_convertDates. }
  split; [done |].
  erewrite getPIRById_stored; [done |]. apply coll_put_doc_eq.
Qed.

Lemma createPIR_stored_witness :
  let w := Example.world ∅ in
  let pir : Obj :=
    {[ "title" := VStr "Battery data sheet"; "status" := VStr "draft";
       "createdAt" := VDate 5 ]} in
  let r := pirRepository.createPIR pir w in
  exists id d',
    r.1 = Ok (with_id id (pir_defaults pir (VDate 1700000000123))) /\
    coll r.2 "pirs" = <[id := d']> (coll w "pirs") /\
    d' !! "createdAt" = Some (VTimestamp 1700000000000) /\
    d' !! "tags" = Some (VArr []) /\
    d' !! "title" = Some (VStr "Battery data sheet").
Proof.
  intros w pir r.
  destruct (createPIR_stored w pir) as (id & d' & _ & H1 & H2 & H3 & _ & _ & H4 & _ & H5 & _);
    [literal_defined |].
  exists id, d'. split; [exact H1 |]. split; [exact H2 |]. split; [exact H3 |].
  split.
  - apply H4; [| compute_eq]. unfold list_fields. apply list_elem_of_here.
  - rewrite H5; [compute_eq | done | done |].
    unfold list_fields. rewrite !elem_of_cons, elem_of_nil.
    by intros [? | [? | [? | []]]].
Defined.

Lemma updatesWithTimestamp_defined (updates : Obj) :
  has_undefined updates = false -> has_undefined (updatesWithTimestamp updates) = false.
Proof.
  intros Hu. unfold updatesWithTimestamp.
  apply has_undefined_insert; [done |]. by apply has_undefined_convertDates.
Qed.

Lemma updatePIR_ok (id : string) (updates d : Obj) (w : World) :
  has_undefined updates = false ->
  coll w pirRepository.COLLECTION_NAME !! id = Some d ->
  pirRepository.updatePIR id updates w =
    (Ok (with_id id (convertTimestampsToDates
           (write_merge (serverTime w) d (updatesWithTimestamp updates)))),
     put_doc pirRepository.COLLECTION_NAME id
       (write_merge (serverTime w) d (updatesWithTimestamp updates))
       (with_trace (fun t => t ++ [EvUpdateDoc pirRepository.COLLECTION_NAME id]) w)).
Proof.
  intros Hu Hd. unfold pirRepository.updatePIR, try_catch.
  run_bind ltac:(unfold getDoc, gets; by rewrite Hd).
  fold (updatesWithTimestamp updates).
  run_bind ltac:(apply updateDoc_ok; [by apply updatesWithTimestamp_defined | exact Hd]).
  run_bind ltac:(unfold getDoc, gets; by rewrite coll_put_doc_eq).
  reflexivity.
Qed.

Lemma updatePIR_missing (id : string) (updates : Obj) (w : World) :
  coll w pirRepository.COLLECTION_NAME !! id = None ->
  pirRepository.updatePIR id updates w =
    (Throw (pirRepository.pir_not_found id),
     with_console (fun c => c ++
       [{| level := LogError; text := "Error updating PIR " +:+ id +:+ ":";
           detail := Some (pirRepository.pir_not_found id) |}]) w).
Proof.
  intros Hd. unfold pirRepository.updatePIR, try_catch.
  run_bind ltac:(unfold getDoc, gets; by rewrite Hd).
  reflexivity.
Qed.

(** X7: [updatePIR] replaces exactly the fields named in the update and
    keeps every other field of the stored PIR; [updatedAt] becomes the
    server's time even when the update names another value for it; no other
    PIR changes.  Any field can be rewritten this way, the status included,
    and no lifecycle timestamp follows from it.  For an id that is not stored
    it throws "PIR with ID ... not found" and writes nothing. *)
Theorem updatePIR_merges (w : World) (id : string) (updates : Obj) :
  has_undefined updates = false ->
  let r := pirRepository.updatePIR id updates w in
  match coll w pirRepository.COLLECTION_NAME !! id with
  | Some d =>
      exists d',
        r.1 = Ok (with_id id (convertTimestampsToDates d')) /\
        coll r.2 pirRepository.COLLECTION_NAME =
          <[id := d']> (coll w pirRepository.COLLECTION_NAME) /\
        d' !! "updatedAt" = Some (VTimestamp (serverTime w)) /\
        (forall k v, k ≠ "updatedAt" -> updates !! k = Some v ->
           d' !! k = Some (resolve (serverTime w) (d !! k) v)) /\
        (forall k, k ≠ "updatedAt" -> updates !! k = None -> d' !! k = d !! k)
  | None =>
      r.1 = Throw (pirRepository.pir_not_found id) /\
      db r.2 = db w /\ trace r.2 = trace w
  end.
Proof.
  intros Hu r. subst r.
  destruct (coll w pirRepository.COLLECTION_NAME !! id) as [d|] eqn:Hd.
  - rewrite (updatePIR_ok id updates d w Hu Hd). cbn [fst snd].
    eexists. split; [reflexivity |]. split; [by rewrite coll_put_doc |].
    split.
    { rewrite write_merge_lookup. unfold updatesWithTimestamp. by simplify_map_eq. }
    split.
    + intros k v Hk Hv. rewrite write_merge_lookup. unfold updatesWithTimestamp.
      rewrite lookup_insert_ne by done. rewrite convertDates_lookup, Hv. simpl.
      by rewrite resolve_convertDates.
    + intros k Hk Hv. rewrite write_merge_lookup. unfold updatesWithTimestamp.
      rewrite lookup_insert_ne by done. by rewrite convertDates_lookup, Hv.
  - by rewrite (updatePIR_missing id updates w Hd).
Qed.

Lemma updatePIR_merges_witness :
  let w := Example.world {[ "pirs" := {[ "p1" := Example.pir ACCEPTED ]} ]} in
  let r := pirRepository.updatePIR "p1"
             {[ "status" := VStr "draft"; "updatedAt" := VDate 7 ]} w in
  exists d',
    coll r.2 "pirs" = <[ "p1" := d' ]> (coll w "pirs") /\
    d' !! "status" = Some (VStr "draft") /\
    d' !! "updatedAt" = Some (VTimestamp 1700000000000) /\
    d' !! "acceptedAt" = None /\
    d' !! "title" = Some (VStr "Battery data sheet").
Proof.
  intros w r.
  pose proof (updatePIR_merges w "p1"
                {[ "status" := VStr "draft"; "updatedAt" := VDate 7 ]}) as H.
  assert (coll w pirRepository.COLLECTION_NAME !! "p1" = Some (Example.pir ACCEPTED))
    as Hd by compute_eq.
  cbv zeta in H. rewrite Hd in H.
  destruct H as (d' & _ & H1 & H2 & H3 & H4); [literal_defined |].
  exists d'. split; [exact H1 |].
  split; [rewrite (H3 "status" (VStr "draft")); [done | done | compute_eq] |].
  split; [exact H2 |].
  split; [rewrite H4; [compute_eq | done | compute_eq] |].
  rewrite H4; [compute_eq | done | compute_eq].
Defined.

(** ** The list fields of a stored PIR *)

Lemma array_op_defined (k : string) (v : Value) :
  v ≠ VUndefined ->
  has_undefined ({[ k := v; "updatedAt" := VServerTimestamp ]} : Obj) = false.
Proof.
  intros Hv. apply has_undefined_insert; [done |]. by apply has_undefined_singleton.
Qed.

Lemma addTagToPIR_ok (pirId tag : string) (p : Obj) (w : World) :
  coll w pirRepository.COLLECTION_NAME !! pirId = Some p ->
  pirRepository.addTagToPIR pirId tag w =
    (Ok tt,
     put_doc pirRepository.COLLECTION_NAME pirId
       (write_merge (serverTime w) p
          {[ "tags" := VArrayUnion [tag]; "updatedAt" := VServerTimestamp ]})
       (with_trace (fun t => t ++ [EvUpdateDoc pirRepository.COLLECTION_NAME pirId]) w)).
Proof.
  intros Hp. unfold pirRepository.addTagToPIR, try_catch.
  rewrite (updateDoc_ok _ _ _ p); [reflexivity | by apply array_op_defined | exact Hp].
Qed.

Lemma removeTagFromPIR_ok (pirId tag : string) (p : Obj) (w : World) :
  coll w pirRepository.COLLECTION_NAME !! pirId = Some p ->
  pirRepository.removeTagFromPIR pirId tag w =
    (Ok tt,
     put_doc pirRepository.COLLECTION_NAME pirId
       (write_merge (serverTime w) p
          {[ "tags" := VArrayRemove [tag]; "updatedAt" := VServerTimestamp ]})
       (with_trace (fun t => t ++ [EvUpdateDoc pirRepository.COLLECTION_NAME pirId]) w)).
Proof.
  intros Hp. unfold pirRepository.removeTagFromPIR, try_catch.
  rewrite (updateDoc_ok _ _ _ p); [reflexivity | by apply array_op_defined | exact Hp].
Qed.

Lemma array_remove_single (old : list string) (x : string) :
  x ∉ array_remove old [x].
Proof.
  unfold array_remove. rewrite list_elem_of_filter. intros [H _]. apply H.
  apply list_elem_of_here.
Qed.

Lemma array_remove_absent (old : list string) (x : string) :
  x ∉ old -> array_remove old [x] = old.
Proof.
  intros Hx. unfold array_remove. induction old as [| y old IH]; [done |].
  rewrite not_elem_of_cons in Hx. destruct Hx as [Hne Hx].
  rewrite filter_cons_True.
  - by rewrite IH.
  - rewrite elem_of_cons, elem_of_nil. by intros [? | []].
Qed.

Lemma array_remove_union (old : list string) (x : string) :
  array_remove (array_union old [x]) [x] = array_remove old [x].
Proof.
  rewrite array_union_single. destruct (decide (x ∈ old)); [done |].
  unfold array_remove. rewrite filter_app. rewrite filter_cons_False.
  - by rewrite filter_nil, app_nil_r.
  - intros H. apply H. apply list_elem_of_here.
Qed.

(** X8: [addTagToPIR] puts the tag into the stored [tags] unless it is
    there, and [removeTagFromPIR] afterwards removes every occurrence of it:
    the tag is gone, and a PIR that did not carry the tag has its tags back
    as they were. *)
Theorem addTagToPIR_removeTagFromPIR (w : World) (pirId tag : string) (p : Obj) :
  coll w pirRepository.COLLECTION_NAME !! pirId = Some p ->
  let old := as_array (p !! "tags") in
  let r := pirRepository.addTagToPIR pirId tag w in
  let r' := pirRepository.removeTagFromPIR pirId tag r.2 in
  r.1 = Ok tt /\ r'.1 = Ok tt /\
  exists p1 p2,
    coll r.2 pirRepository.COLLECTION_NAME !! pirId = Some p1 /\
    p1 !! "tags" = Some (VArr (if decide (tag ∈ old) then old else old ++ [tag])) /\
    coll r'.2 pirRepository.COLLECTION_NAME !! pirId = Some p2 /\
    p2 !! "tags" = Some (VArr (array_remove old [tag])) /\
    (tag ∉ as_array (p2 !! "tags")) /\
    (tag ∉ old -> p2 !! "tags" = Some (VArr old)) /\
    (forall k, k ≠ "tags" -> k ≠ "updatedAt" -> p2 !! k = p !! k).
Proof.
  intros Hp old r r'. subst r r'.
  rewrite (addTagToPIR_ok pirId tag p w Hp). cbn [fst snd].
  erewrite removeTagFromPIR_ok; [| apply coll_put_doc_eq]. cbn [fst snd].
  split; [done |]. split; [done |].
  eexists _, _. split; [apply coll_put_doc_eq |].
  split.
  { rewrite write_merge_lookup, lookup_insert_eq. cbn [resolve].
    by rewrite array_union_single. }
  split; [apply coll_put_doc_eq |].
  assert (forall now now' : Z,
    write_merge now'
      (write_merge now p {[ "tags" := VArrayUnion [tag]; "updatedAt" := VServerTimestamp ]})
      {[ "tags" := VArrayRemove [tag]; "updatedAt" := VServerTimestamp ]} !! "tags"
    = Some (VArr (array_remove old [tag]))) as Htags.
  { intros now now'. rewrite write_merge_lookup, lookup_insert_eq. cbn [resolve].
    rewrite write_merge_lookup, lookup_insert_eq. cbn [resolve as_array].
    by rewrite array_remove_union. }
  split; [apply Htags |].
  split; [rewrite Htags; cbn [as_array]; apply array_remove_single |].
  split; [intros Hx; rewrite Htags; by rewrite array_remove_absent |].
  intros k Hk Hk'. rewrite !write_merge_lookup. by simplify_map_eq.
Qed.

Lemma addTagToPIR_removeTagFromPIR_witness :
  let w := Example.world
             {[ "pirs" := {[ "p1" := <["tags" := VArr ["rohs"]]> (Example.pir DRAFT) ]} ]} in
  let r := pirRepository.addTagToPIR "p1" "reach" w in
  let r' := pirRepository.removeTagFromPIR "p1" "reach" r.2 in
  exists p1 p2,
    coll r.2 "pirs" !! "p1" = Some p1 /\
    p1 !! "tags" = Some (VArr ["rohs"; "reach"]) /\
    coll r'.2 "pirs" !! "p1" = Some p2 /\
    p2 !! "tags" = Some (VArr ["rohs"]).
Proof.
  intros w r r'.
  destruct (addTagToPIR_removeTagFromPIR w "p1" "reach"
              (<["tags" := VArr ["rohs"]]> (Example.pir DRAFT)))
    as (_ & _ & p1 & p2 & H1 & H2 & H3 & H4 & _); [compute_eq |].
  exists p1, p2. split; [exact H1 |]. split; [rewrite H2; compute_eq |].
  split; [exact H3 |]. rewrite H4. compute_eq.
Defined.

Lemma updateDoc_missing_caught (c id : string) (updates : Obj) (s : string) (w : World) :
  has_undefined updates = false ->
  coll w c !! id = None ->
  let r := try_catch (updateDoc c id updates)
             (fun error => console_log LogError s (Some error);; throw error) w in
  r.1 = Throw no_document_to_update /\ db r.2 = db w.
Proof.
  intros Hu Hd r. subst r. unfold try_catch.
  by rewrite (updateDoc_missing c id updates w Hu Hd).
Qed.

(** X9: the four functions that edit a list field of a PIR do not create
    the PIR: for an id that is not stored each of them throws the store's
    "No document to update" and leaves the database as it was. *)
Theorem list_field_edit_missing_pir (w : World) (pirId x : string) :
  coll w pirRepository.COLLECTION_NAME !! pirId = None ->
  let r1 := pirRepository.addQuestionToPIR pirId x w in
  let r2 := pirRepository.addAttachmentToPIR pirId x w in
  let r3 := pirRepository.addTagToPIR pirId x w in
  let r4 := pirRepository.removeTagFromPIR pirId x w in
  (r1.1 = Throw no_document_to_update /\ db r1.2 = db w) /\
  (r2.1 = Throw no_document_to_update /\ db r2.2 = db w) /\
  (r3.1 = Throw no_document_to_update /\ db r3.2 = db w) /\
  (r4.1 = Throw no_document_to_update /\ db r4.2 = db w).
Proof.
  intros Hp r1 r2 r3 r4. subst r1 r2 r3 r4.
  repeat split;
    apply updateDoc_missing_caught; (exact Hp || by apply array_op_defined).
Qed.

Lemma list_field_edit_missing_pir_witness :
  let w := Example.world {[ "pirs" := {[ "p1" := Example.pir DRAFT ]} ]} in
  (pirRepository.addTagToPIR "p2" "rohs" w).1 = Throw (Error "No document to update") /\
  db (pirRepository.addTagToPIR "p2" "rohs" w).2 = db w.
Proof.
  intros w.
  destruct (list_field_edit_missing_pir w "p2" "rohs") as (_ & _ & H & _);
    [compute_eq | exact H].
Defined.

(** ** [createMultipleQuestions] *)

Lemma has_undefined_true (data : Obj) (k : string) :
  data !! k = Some VUndefined -> has_undefined data = true.
Proof.
  intros Hk. unfold has_undefined. apply bool_decide_eq_true. by exists k, VUndefined.
Qed.

Lemma question_record_defined (question : Obj) (ms : Z) :
  has_undefined question = false ->
  has_undefined (question_record question (VDate ms)) = false.
Proof.
  intros Hu. unfold question_record, question_defaults.
  do 2 (apply has_undefined_insert; [done |]). apply has_undefined_convertDates.
  apply has_undefined_insert; [by apply or_else_defined |].
  by do 2 (apply has_undefined_insert; [done |]).
Qed.

Lemma question_record_undefined (question : Obj) (now : Value) (k : string) :
  k ≠ "createdAt" -> k ≠ "updatedAt" -> k ≠ "attachmentIds" ->
  question !! k = Some VUndefined ->
  has_undefined (question_record question now) = true.
Proof.
  intros Hc Hu Ha Hk. apply (has_undefined_true _ k).
  unfold question_record, question_defaults.
  rewrite !lookup_insert_ne by done. rewrite convertDates_lookup.
  rewrite !lookup_insert_ne by done. by rewrite Hk.
Qed.

Lemma createQuestion_ok (question : Obj) (w : World) :
  has_undefined question = false ->
  let id := fresh_string "auto" (coll w questionRepository.COLLECTION_NAME) in
  let now := VDate (clientTime w) in
  questionRepository.createQuestion question w =
    (Ok (with_id id (question_defaults question now)),
     put_doc questionRepository.COLLECTION_NAME id
       (write_new (serverTime w) (question_record question now))
       (with_trace (fun t => t ++ [EvAddDoc questionRepository.COLLECTION_NAME id]) w)) /\
  coll w questionRepository.COLLECTION_NAME !! id = None.
Proof.
  intros Hu id now.
  destruct (addDoc_ok questionRepository.COLLECTION_NAME (question_record question now) w)
    as [Hadd Hfresh]; [by apply question_record_defined |].
  split; [| exact Hfresh].
  unfold questionRepository.createQuestion, try_catch.
  run_bind ltac:(reflexivity).
  fold now. fold (question_defaults question now). fold (question_record question now).
  run_bind ltac:(exact Hadd).
  reflexivity.
Qed.

Lemma createQuestion_undefined (question : Obj) (w : World) :
  has_undefined (question_record question (VDate (clientTime w))) = true ->
  questionRepository.createQuestion question w =
    (Throw unsupported_undefined,
     with_console (fun c => c ++
       [{| level := LogError; text := "Error creating question:";
           detail := Some unsupported_undefined |}]) w).
Proof.
  intros Hu. unfold questionRepository.createQuestion, try_catch.
  run_bind ltac:(reflexivity).
  fold (question_defaults question (VDate (clientTime w))).
  fold (question_record question (VDate (clientTime w))).
  unfold addDoc. rewrite Hu. reflexivity.
Qed.

Lemma created_in_nil (c : string) (w : World) : created_in c [] w w.
Proof.
  split; [apply NoDup_nil_2 |]. split; [apply Forall_nil_2 |]. done.
Qed.

Lemma created_in_cons (c id : string) (ids : list string) (d : Obj) (w w1 w' : World) :
  coll w c !! id = None ->
  coll w1 c = <[id := d]> (coll w c) ->
  (forall c', c' ≠ c -> coll w1 c' = coll w c') ->
  created_in c ids w1 w' ->
  created_in c (id :: ids) w w'.
Proof.
  intros Hfresh Hw1 Hother (Hnd & Hall & Hframe & Hcoll).
  assert (id ∉ ids) as Hnotin.
  { intros Hin. rewrite Forall_forall in Hall. destruct (Hall id Hin) as [Hnone _].
    rewrite Hw1, lookup_insert_eq in Hnone. done. }
  split; [by apply NoDup_cons_2 |].
  split.
  - apply Forall_cons. split.
    + split; [exact Hfresh |]. rewrite (Hframe id Hnotin), Hw1, lookup_insert_eq.
      by eexists.
    + eapply Forall_impl; [exact Hall |]. intros id' [Hnone Hsome].
      split; [| exact Hsome].
      rewrite Hw1 in Hnone. destruct (decide (id = id')) as [-> | Hne].
      * by rewrite lookup_insert_eq in Hnone.
      * by rewrite lookup_insert_ne in Hnone.
  - split.
    + intros id' Hid'. rewrite not_elem_of_cons in Hid'. destruct Hid' as [Hne Hid'].
      rewrite (Hframe id' Hid'), Hw1. by rewrite lookup_insert_ne.
    + intros c' Hc'. rewrite (Hcoll c' Hc'). by apply Hother.
Qed.

(** The loop over a prefix of questions that the store accepts. *)
Lemma create_each_prefix (qs rest acc : list Obj) (w : World) :
  Forall (fun q => has_undefined q = false) qs ->
  exists ids w',
    questionRepository.create_each (qs ++ rest) acc w =
      questionRepository.create_each rest
        (acc ++ zip_with (fun id q => with_id id (question_defaults q (VDate (clientTime w))))
                  ids qs) w' /\
    length ids = length qs /\
    created_in questionRepository.COLLECTION_NAME ids w w' /\
    clientTime w' = clientTime w /\
    console w' = console w.
Proof.
  revert acc w. induction qs as [| q qs IH]; intros acc w Hall.
  - exists [], w. simpl. rewrite app_nil_r.
    split; [done |]. split; [done |]. split; [apply created_in_nil | done].
  - apply Forall_cons in Hall. destruct Hall as [Hq Hall].
    destruct (createQuestion_ok q w Hq) as [Hcreate Hfresh].
    set (id := fresh_string "auto" (coll w questionRepository.COLLECTION_NAME)) in *.
    set (w1 := put_doc questionRepository.COLLECTION_NAME id
                 (write_new (serverTime w)
                    (question_record q (VDate (clientTime w))))
                 (with_trace
                    (fun t => t ++ [EvAddDoc questionRepository.COLLECTION_NAME id]) w)) in *.
    destruct (IH (acc ++ [with_id id (question_defaults q (VDate (clientTime w)))]) w1 Hall)
      as (ids & w' & Hrun & Hlen & Hcr & Htime & Hcons).
    exists (id :: ids), w'.
    split.
    { change (questionRepository.create_each ((q :: qs) ++ rest) acc w)
        with ((questionRepository.createQuestion q ≫= fun createdQuestion =>
                 questionRepository.create_each (qs ++ rest) (acc ++ [createdQuestion])) w).
      run_bind ltac:(exact Hcreate).
      rewrite Hrun. cbn [zip_with]. by rewrite <- app_assoc. }
    split; [simpl; by rewrite Hlen |].
    split; [| done].
    eapply created_in_cons; [exact Hfresh | | | exact Hcr].
    + subst w1. by rewrite coll_put_doc.
    + intros c' Hc'. subst w1. by rewrite coll_put_doc_other.
Qed.

(** X10: when the store accepts every question, [createMultipleQuestions]
    returns one created question per input, in the order of the input, each
    under its own new id, and each of them is stored afterwards; the
    questions stored before are kept, and no other collection changes: the
    parents' [questionIds] are not touched. *)
Theorem createMultipleQuestions_all_stored (w : World) (questions : list Obj) :
  Forall (fun q => has_undefined q = false) questions ->
  let r := questionRepository.createMultipleQuestions questions w in
  exists ids,
    r.1 = Ok (zip_with
                (fun id q => with_id id (question_defaults q (VDate (clientTime w))))
                ids questions) /\
    length ids = length questions /\
    created_in questionRepository.COLLECTION_NAME ids w r.2.
Proof.
  intros Hall r. subst r.
  destruct (create_each_prefix questions [] [] w Hall)
    as (ids & w' & Hrun & Hlen & Hcr & _).
  exists ids. unfold questionRepository.createMultipleQuestions, try_catch.
  rewrite app_nil_r in Hrun. rewrite Hrun. simpl. done.
Qed.

Lemma createMultipleQuestions_all_stored_witness :
  let w := Example.world {[ "pirs" := {[ "p1" := Example.pir DRAFT ]} ]} in
  let r := questionRepository.createMultipleQuestions
             [Example.battery_question; Example.battery_question] w in
  exists ids,
    length ids = 2%nat /\
    created_in "questions" ids w r.2.
Proof.
  intros w r.
  destruct (createMultipleQuestions_all_stored w
              [Example.battery_question; Example.battery_question])
    as (ids & _ & H1 & H2).
  { repeat (apply Forall_cons; split); [| | apply Forall_nil_2];
      unfold Example.battery_question; literal_defined. }
  exists ids. split; [exact H1 | exact H2].
Defined.

(** X11: [createMultipleQuestions] is not atomic.  When the store refuses a
    question because a field of it holds [undefined], the call throws and
    returns nothing, yet the questions that preceded it in the list have been
    created and stay stored. *)
Theorem createMultipleQuestions_not_atomic (w : World) (before after : list Obj)
    (refused : Obj) (k : string) :
  Forall (fun q => has_undefined q = false) before ->
  k ≠ "createdAt" -> k ≠ "updatedAt" -> k ≠ "attachmentIds" ->
  refused !! k = Some VUndefined ->
  let r := questionRepository.createMultipleQuestions (before ++ refused :: after) w in
  r.1 = Throw unsupported_undefined /\
  exists ids,
    length ids = length before /\
    created_in questionRepository.COLLECTION_NAME ids w r.2.
Proof.
  intros Hall Hc Hu Ha Hk r. subst r.
  destruct (create_each_prefix before (refused :: after) [] w Hall)
    as (ids & w' & Hrun & Hlen & Hcr & Htime & _).
  unfold questionRepository.createMultipleQuestions, try_catch.
  rewrite Hrun. cbn [questionRepository.create_each].
  run_throw ltac:(apply createQuestion_undefined;
                  by apply (question_record_undefined _ _ k)).
  simpl. split; [done |]. exists ids. split; [done |].
  destruct Hcr as (H1 & H2 & H3 & H4). done.
Qed.

Lemma createMultipleQuestions_not_atomic_witness :
  let w := Example.world ∅ in
  let r := questionRepository.createMultipleQuestions
             [Example.battery_question;
              <["text" := VUndefined]> Example.battery_question;
              Example.battery_question] w in
  r.1 = Throw (Error "Unsupported field value: undefined") /\
  exists ids,
    length ids = 1%nat /\
    created_in "questions" ids w r.2.
Proof.
  intros w r.
  apply (createMultipleQuestions_not_atomic w [Example.battery_question]
           [Example.battery_question]
           (<["text" := VUndefined]> Example.battery_question) "text");
    [| done | done | done | by rewrite lookup_insert_eq].
  apply Forall_cons; split; [| apply Forall_nil_2].
  unfold Example.battery_question; literal_defined.
Defined.

(** ** Tags, further *)

Lemma prefix_empty (s : string) : String.prefix EmptyString s = true.
Proof. by destruct s. Qed.

Lemma includes_empty (s : string) : includes s EmptyString = true.
Proof. by destruct s. Qed.

Lemma filter_all {A : Type} (q : A -> bool) (xs : list A) :
  (forall x, q x = true) -> List.filter q xs = xs.
Proof.
  intros Hq. induction xs as [| x xs IH]; [done |]. simpl. by rewrite Hq, IH.
Qed.

Lemma filterM_throws {A : Type} (p : A -> M bool) (xs : list A) (e : JsError)
    (w : World) :
  (forall x, x ∈ xs -> (exists b, p x w = (Ok b, w)) \/ p x w = (Throw e, w)) ->
  (exists x, x ∈ xs /\ p x w = (Throw e, w)) ->
  filterM p xs w = (Throw e, w).
Proof.
  induction xs as [| x xs IH]; intros Hall (y & Hy & Hthrow).
  { by apply elem_of_nil in Hy. }
  simpl. destruct (Hall x (list_elem_of_here _ _)) as [[b Hb] | Hx].
  - run_bind ltac:(exact Hb).
    run_throw ltac:(apply IH;
      [intros z Hz; apply Hall; by apply list_elem_of_further |]).
    + reflexivity.
    + apply elem_of_cons in Hy as [-> | Hy]; [congruence |]. by exists y.
  - by run_throw ltac:(exact Hx).
Qed.

Lemma getTagById_stored (id : string) (d : Obj) (w : World) :
  coll w tagRepository.COLLECTION_NAME !! id = Some d ->
  tagRepository.getTagById id w = (Ok (Some (with_id id d)), w).
Proof.
  intros Hd. unfold tagRepository.getTagById, try_catch.
  run_bind ltac:(unfold getDoc, gets; by rewrite Hd).
  reflexivity.
Qed.

Lemma getTagById_absent (id : string) (w : World) :
  coll w tagRepository.COLLECTION_NAME !! id = None ->
  (tagRepository.getTagById id w).1 = Ok None.
Proof.
  intros Hd. unfold tagRepository.getTagById, try_catch.
  run_bind ltac:(unfold getDoc, gets; by rewrite Hd).
  reflexivity.
Qed.

Lemma elem_of_List_filter {A : Type} (f : A -> bool) (xs : list A) (x : A) :
  x ∈ List.filter f xs <-> x ∈ xs /\ f x = true.
Proof.
  split.
  - intros H. apply list_elem_of_In, filter_In in H as [H1 H2].
    split; [by apply list_elem_of_In | done].
  - intros [H1 H2]. apply list_elem_of_In, filter_In.
    split; [by apply list_elem_of_In | done].
Qed.

Section tags_further.

(** [String.prototype.toLowerCase], and what is assumed of it. *)
Variable toLowerCase : string -> string.
Hypothesis toLowerCase_ascii : folds_ascii toLowerCase.

(** X12: over typed tags [searchTagsByName] only reads, and it returns the
    tags of [getAllTags] whose name contains the term, both taken through
    [toLowerCase], whatever function the engine's [toLowerCase] is.  The
    empty term finds every tag; two terms that [toLowerCase] does not tell
    apart find the same tags; every tag returned is a stored tag; and the
    full name of a stored tag finds that tag.  For a term and a name of ASCII
    characters, the tag is found exactly when the term occurs in the name up
    to the case of the letters [A] to [Z]. *)
Theorem searchTagsByName_reads (w : World) (n : string) :
  tags_typed w ->
  tagRepository.searchTagsByName toLowerCase (Some (VStr n)) w =
    (Ok (matching_tags toLowerCase n w), w) /\
  matching_tags toLowerCase EmptyString w = all_tags w /\
  (forall n', toLowerCase n' = toLowerCase n ->
     matching_tags toLowerCase n' w = matching_tags toLowerCase n w) /\
  (forall n', is_ascii n' = true -> is_ascii n = true -> caseless_eq n' n = true ->
     matching_tags toLowerCase n' w = matching_tags toLowerCase n w) /\
  (forall t, t ∈ matching_tags toLowerCase n w ->
     exists id d, t = with_id id d /\
       coll w tagRepository.COLLECTION_NAME !! id = Some d) /\
  (forall id d, coll w tagRepository.COLLECTION_NAME !! id = Some d ->
     d !! "name" = Some (VStr n) -> with_id id d ∈ matching_tags toLowerCase n w) /\
  (forall id d m, coll w tagRepository.COLLECTION_NAME !! id = Some d ->
     d !! "name" = Some (VStr m) ->
     is_ascii m = true -> is_ascii n = true ->
     (with_id id d ∈ matching_tags toLowerCase n w <-> caseless_includes m n = true)).
Proof.
  intros Hty.
  assert (forall n', toLowerCase n' = toLowerCase n ->
            matching_tags toLowerCase n' w = matching_tags toLowerCase n w) as Hsame.
  { intros n' Hn'. unfold matching_tags. by rewrite Hn'. }
  assert (forall id d m, coll w tagRepository.COLLECTION_NAME !! id = Some d ->
            d !! "name" = Some (VStr m) ->
            (with_id id d ∈ matching_tags toLowerCase n w <->
             includes (toLowerCase m) (toLowerCase n) = true)) as Hmem.
  { intros id d m Hd Hm. unfold matching_tags.
    rewrite elem_of_List_filter, (name_of_with_id id d m Hm). split.
    - by intros [_ ?].
    - intros Hinc. split; [| done].
      apply elem_of_all_tags. exists id, d.
      split; [done |]. split; [done |]. by rewrite Hm. }
  split; [by apply searchTagsByName_pure |].
  split.
  { unfold matching_tags. apply filter_all. intros t.
    rewrite (toLowerCase_ascii EmptyString eq_refl). apply includes_empty. }
  split; [exact Hsame |].
  split.
  { intros n' Han' Han Heq. apply Hsame.
    by apply (folded_caseless_eq toLowerCase toLowerCase_ascii). }
  split.
  { intros t Ht. unfold matching_tags in Ht.
    apply list_elem_of_In, filter_In in Ht as [Ht _]. apply list_elem_of_In in Ht.
    apply elem_of_all_tags in Ht as (id & d & -> & Hd & _). by exists id, d. }
  split.
  { intros id d Hd Hm. apply (Hmem id d n Hd Hm), includes_refl. }
  intros id d m Hd Hm Ham Han. rewrite (Hmem id d m Hd Hm).
  by rewrite (folded_caseless_includes toLowerCase toLowerCase_ascii m n Ham Han).
Qed.

Lemma searchTagsByName_malformed (w : World) (id n : string) (d : Obj) (v : Value) :
  coll w tagRepository.COLLECTION_NAME !! id = Some d ->
  d !! "name" = Some v ->
  is_string v = false ->
  tagRepository.searchTagsByName toLowerCase (Some (VStr n)) w =
    (Throw type_error,
     with_console (fun c => c ++
       [{| level := LogError; text := "Error searching tags with term " +:+ n +:+ ":";
           detail := Some type_error |}]) w).
Proof.
  intros Hd Hname Hv. unfold tagRepository.searchTagsByName, try_catch.
  run_bind ltac:(apply getAllTags_all_tags).
  run_bind ltac:(reflexivity).
  erewrite filterM_throws; [reflexivity | |].
  - intros t _. destruct (field t "name") as [[]|] eqn:Hf;
      unfold js_toLowerCase; rewrite ?Hf; eauto.
  - exists (with_id id d). split.
    + apply elem_of_all_tags. exists id, d. split; [done |]. split; [done |].
      by rewrite Hname.
    + assert (field (with_id id d) "name" = field d "name") as ->.
      { unfold field. by rewrite with_id_lookup_ne. }
      unfold field. rewrite Hname. by destruct v.
Qed.

(** X13: one stored tag whose name is not a string disables the tag search
    and the tag creation: both throw a [TypeError], whatever the term or the
    new tag's name, and nothing is written. *)
Theorem tags_malformed_name (w : World) (id n : string) (d tag : Obj) (v : Value) :
  coll w tagRepository.COLLECTION_NAME !! id = Some d ->
  d !! "name" = Some v ->
  is_string v = false ->
  field tag "name" = Some (VStr n) ->
  let r := tagRepository.searchTagsByName toLowerCase (Some (VStr n)) w in
  let r' := tagRepository.createTag toLowerCase tag w in
  r.1 = Throw type_error /\ db r.2 = db w /\ trace r.2 = trace w /\
  r'.1 = Throw type_error /\ db r'.2 = db w /\ trace r'.2 = trace w.
Proof.
  intros Hd Hname Hv Hn r r'. subst r r'.
  rewrite (searchTagsByName_malformed w id n d v Hd Hname Hv).
  split; [done |]. split; [done |]. split; [done |].
  unfold tagRepository.createTag, try_catch.
  run_throw ltac:(rewrite Hn; by eapply searchTagsByName_malformed).
  done.
Qed.

(** X14: what [createTag] returns can be read back: whether it found a tag
    of that name or created one, the returned object is a stored tag together
    with its document id, [getTagById] on that id returns the same object,
    and the name of that tag and the requested name are the same to
    [toLowerCase], whatever function the engine's [toLowerCase] is; when both
    are names of ASCII characters they are equal up to the case of the
    letters [A] to [Z]. *)
Theorem createTag_getTagById (w : World) (tag : Obj) (n : string) :
  tags_typed w ->
  field tag "name" = Some (VStr n) ->
  tag_strings tag ->
  let r := tagRepository.createTag toLowerCase tag w in
  exists id d,
    r.1 = Ok (with_id id d) /\
    coll r.2 tagRepository.COLLECTION_NAME !! id = Some d /\
    same_name toLowerCase n d = true /\
    tagRepository.getTagById id r.2 = (Ok (Some (with_id id d)), r.2) /\
    (forall m, d !! "name" = Some (VStr m) ->
       is_ascii m = true -> is_ascii n = true -> caseless_eq m n = true).
Proof.
  intros Hty Hn Hstr r. subst r.
  assert (forall d, same_name toLowerCase n d = true ->
            forall m, d !! "name" = Some (VStr m) ->
              is_ascii m = true -> is_ascii n = true -> caseless_eq m n = true) as Hpin.
  { intros d Hsame m Hm Ham Han.
    destruct (same_name_true toLowerCase n d Hsame) as (m' & Hm' & Hlow).
    rewrite Hm in Hm'. injection Hm' as <-.
    by apply (folded_caseless_eq toLowerCase toLowerCase_ascii). }
  destruct (exact_match toLowerCase n w) as [t|] eqn:Hm.
  - destruct (exact_match_Some toLowerCase n w t Hty Hm) as (id & d & -> & Hd & Hsame).
    rewrite (createTag_found toLowerCase tag _ n w Hty Hn Hm). cbn [fst snd].
    exists id, d. split; [done |]. split; [exact Hd |]. split; [exact Hsame |].
    split; [by apply getTagById_stored | by apply Hpin].
  - assert (has_undefined tag = false) as Hu.
    { apply has_undefined_strings. intros k v Hk. by eapply tag_strings_lookup. }
    rewrite (createTag_new toLowerCase tag n w Hty Hn Hm Hu). cbn [fst snd].
    rewrite write_new_strings by (intros k v Hk; by eapply tag_strings_lookup).
    assert (same_name toLowerCase n tag = true) as Hsame.
    { unfold same_name. unfold field in Hn.
      destruct (tag !! "name") as [[]|]; try done.
      injection Hn as ->. apply String.eqb_refl. }
    eexists _, tag. split; [reflexivity |].
    split; [apply coll_put_doc_eq |].
    split; [exact Hsame |].
    split; [apply getTagById_stored, coll_put_doc_eq | by apply Hpin].
Qed.

End tags_further.

Lemma searchTagsByName_reads_witness :
  let w := Example.world {[ "tags" := {[ "t1" := Example.urgent ]} ]} in
  tagRepository.searchTagsByName fold_ascii (Some (VStr "URG")) w =
    (Ok (matching_tags fold_ascii "URG" w), w) /\
  with_id "t1" Example.urgent ∈ matching_tags fold_ascii "URG" w.
Proof.
  intros w.
  assert (tags_typed w) as Hty by (unfold tags_typed; compute_eq).
  destruct (searchTagsByName_reads fold_ascii fold_ascii_folds w "URG" Hty)
    as (H1 & _ & _ & _ & _ & _ & H2).
  split; [exact H1 |].
  apply (H2 "t1" Example.urgent "Urgent"); compute_eq.
Defined.

Lemma tags_malformed_name_witness :
  let w := Example.world
             {[ "tags" := {[ "t1" := Example.urgent; "t2" := {[ "name" := VNum 7 ]} ]} ]} in
  (tagRepository.createTag fold_ascii {[ "name" := VStr "RoHS" ]} w).1 =
    Throw (Error "TypeError") /\
  db (tagRepository.createTag fold_ascii {[ "name" := VStr "RoHS" ]} w).2 = db w.
Proof.
  intros w.
  destruct (tags_malformed_name fold_ascii w "t2" "RoHS" {[ "name" := VNum 7 ]}
              {[ "name" := VStr "RoHS" ]} (VNum 7))
    as (_ & _ & _ & H1 & H2 & _); [compute_eq | compute_eq | done | compute_eq |].
  split; [exact H1 | exact H2].
Defined.

Lemma createTag_getTagById_witness :
  let w := Example.world {[ "tags" := {[ "t1" := Example.urgent ]} ]} in
  let r := tagRepository.createTag fold_ascii {[ "name" := VStr "URGENT" ]} w in
  exists id d,
    r.1 = Ok (with_id id d) /\
    tagRepository.getTagById id r.2 = (Ok (Some (with_id id d)), r.2) /\
    (forall m, d !! "name" = Some (VStr m) -> is_ascii m = true ->
       caseless_eq m "URGENT" = true).
Proof.
  intros w r.
  destruct (createTag_getTagById fold_ascii fold_ascii_folds w
              {[ "name" := VStr "URGENT" ]} "URGENT")
    as (id & d & H1 & _ & _ & H2 & H3);
    [unfold tags_typed; compute_eq | compute_eq | unfold tag_strings; compute_eq |].
  exists id, d. split; [exact H1 |]. split; [exact H2 |].
  intros m Hm Ham. by apply H3.
Defined.

Lemma coll_remove_doc_other (c c' id : string) (w : World) :
  c ≠ c' -> coll (remove_doc c id w) c' = coll w c'.
Proof.
  intros Hc. unfold coll, remove_doc. simpl. by rewrite lookup_insert_ne.
Qed.

(** X15: [deleteTag] succeeds for every id, stored or not; afterwards no
    tag has that id, the other tags are as before, and no other collection
    has changed: a PIR that carries the tag keeps carrying it. *)
Theorem deleteTag_always (w : World) (id : string) :
  let r := tagRepository.deleteTag id w in
  r.1 = Ok tt /\
  coll r.2 tagRepository.COLLECTION_NAME = delete id (coll w tagRepository.COLLECTION_NAME) /\
  (tagRepository.getTagById id r.2).1 = Ok None /\
  coll r.2 pirRepository.COLLECTION_NAME = coll w pirRepository.COLLECTION_NAME /\
  trace r.2 = trace w ++ [EvDeleteDoc tagRepository.COLLECTION_NAME id].
Proof.
  intros r. subst r. unfold tagRepository.deleteTag, try_catch, deleteDoc.
  run_bind ltac:(reflexivity). cbn [fst snd modify].
  split; [done |].
  split.
  { unfold coll, remove_doc. simpl. by rewrite lookup_insert_eq. }
  split; [apply getTagById_absent, coll_remove_doc_eq |].
  split; [by rewrite coll_remove_doc_other | done].
Qed.

(** ** Attachments, further *)

Lemma batch_loop_partition (ids : list string) (fuel i : nat) :
  (length ids - i ≤ fuel)%nat ->
  concat (attachmentRepository.batch_loop fuel i ids) = drop i ids /\
  Forall (fun b => (1 ≤ length b ≤ attachmentRepository.batchSize)%nat)
    (attachmentRepository.batch_loop fuel i ids) /\
  length (attachmentRepository.batch_loop fuel i ids) = ((length ids - i + 9) / 10)%nat.
Proof.
  revert i. induction fuel as [| fuel IH]; intros i Hfuel.
  - cbn [attachmentRepository.batch_loop concat length]. rewrite drop_ge by lia.
    replace (length ids - i + 9)%nat with 9%nat by lia. done.
  - cbn [attachmentRepository.batch_loop].
    destruct (Nat.ltb_spec i (length ids)) as [Hlt | Hge].
    + destruct (IH (i + attachmentRepository.batchSize)%nat) as (Hc & Hf & Hl).
      { unfold attachmentRepository.batchSize. lia. }
      split; [| split].
      * cbn [concat]. rewrite Hc, <- drop_drop. apply take_drop.
      * apply Forall_cons. split; [| exact Hf].
        rewrite length_take, length_drop. unfold attachmentRepository.batchSize. lia.
      * cbn [length]. rewrite Hl. unfold attachmentRepository.batchSize.
        destruct (Nat.le_gt_cases (length ids - i)%nat 10%nat) as [Hsmall | Hbig].
        -- replace (length ids - (i + 10) + 9)%nat with 9%nat by lia.
           assert ((length ids - i + 9) / 10 = 1)%nat as ->; [| done].
           symmetry. apply (Nat.div_unique _ _ _ (length ids - i - 1)%nat); lia.
        -- replace (length ids - i + 9)%nat
             with (length ids - (i + 10) + 9 + 1 * 10)%nat by lia.
           rewrite Nat.div_add by lia. lia.
    + cbn [concat length]. rewrite drop_ge by lia.
      replace (length ids - i + 9)%nat with 9%nat by lia. done.
Qed.

(** X16: the loop of [getAttachmentsByIds] cuts the ids into batches
    without losing, repeating or reordering any: the batches, one after the
    other, are the ids; each batch holds between one and ten ids, as the
    store's [in] filter requires; and there is one batch per started ten. *)
Theorem id_batches_partition (ids : list string) :
  concat (attachmentRepository.id_batches ids) = ids /\
  Forall (fun b => (1 ≤ length b ≤ attachmentRepository.batchSize)%nat)
    (attachmentRepository.id_batches ids) /\
  length (attachmentRepository.id_batches ids) = ((length ids + 9) / 10)%nat.
Proof.
  unfold attachmentRepository.id_batches.
  destruct (batch_loop_partition ids (length ids) 0%nat) as (Hc & Hf & Hl); [lia |].
  rewrite Nat.sub_0_r in Hl. done.
Qed.

Lemma uploadAttachment_ok (w : World) (file : File) (uploadedBy parentId : string)
    (parentType : attachmentRepository.ParentType) :
  let path := attachmentRepository.filePath (clientTime w) file parentId parentType in
  let id := fresh_string "auto" (coll w attachmentRepository.COLLECTION_NAME) in
  let data := attachmentRepository.attachmentData file uploadedBy parentId parentType
                (VDate (clientTime w)) (downloadUrl w path) in
  fault w (OpUploadBytes path) = None ->
  fault w (OpGetDownloadURL path) = None ->
  attachmentRepository.uploadAttachment file uploadedBy parentId parentType w =
    (Ok (with_id id data), uploaded path id file data w).
Proof.
  intros path id data Hup Hurl.
  unfold attachmentRepository.uploadAttachment, try_catch.
  run_bind ltac:(reflexivity). fold path.
  run_bind ltac:(by apply uploadBytes_ok).
  run_bind ltac:(by apply getDownloadURL_ok).
  run_bind ltac:(reflexivity).
  match goal with
  | |- context [(addDoc ?c ?data ≫= _) ?w1] =>
      destruct (addDoc_ok c data w1) as [Hadd Hfresh];
        [apply attachmentData_defined |]
  end.
  run_bind ltac:(exact Hadd).
  reflexivity.
Qed.

Lemma getAttachmentById_stored (id : string) (d : Obj) (w : World) :
  coll w attachmentRepository.COLLECTION_NAME !! id = Some d ->
  attachmentRepository.getAttachmentById id w =
    (Ok (Some (with_id id (convertTimestampsToDates d))), w).
Proof.
  intros Hd. unfold attachmentRepository.getAttachmentById, try_catch.
  run_bind ltac:(unfold getDoc, gets; by rewrite Hd).
  reflexivity.
Qed.

Lemma attachmentData_plain (file : File) (uploadedBy parentId : string)
    (parentType : attachmentRepository.ParentType) (now : Value) (url k : string)
    (v : Value) :
  k ≠ "uploadedAt" ->
  attachmentRepository.attachmentData file uploadedBy parentId parentType now url !! k
    = Some v ->
  (exists s, v = VStr s) \/ (exists n, v = VNum n).
Proof.
  intros Hk. unfold attachmentRepository.attachmentData.
  repeat (rewrite lookup_insert_Some; intros [[_ <-] | [_ H]]; [by eauto | revert H]).
  rewrite lookup_insert_Some. intros [[<- _] | [_ H]]; [done | revert H].
  repeat (rewrite lookup_insert_Some; intros [[_ <-] | [_ H]]; [by eauto | revert H]).
  rewrite lookup_singleton_Some. intros [_ <-]. eauto.
Qed.

Lemma with_id_lookup_id (id : string) (data : Obj) :
  with_id id data !! "id" = Some (default (VStr id) (data !! "id")).
Proof.
  unfold with_id. rewrite lookup_union. destruct (data !! "id"); by simplify_map_eq.
Qed.

(** X17: a successful upload can be read back.  [getAttachmentById] on the
    new id returns the attachment that [uploadAttachment] returned, except
    for [uploadedAt]: the returned object carries the client's clock, the
    stored record the server's.  The blob is stored under the path of the
    upload. *)
Theorem uploadAttachment_getAttachmentById (w : World) (file : File)
    (uploadedBy parentId : string) (parentType : attachmentRepository.ParentType) :
  let path := attachmentRepository.filePath (clientTime w) file parentId parentType in
  let r := attachmentRepository.uploadAttachment file uploadedBy parentId parentType w in
  fault w (OpUploadBytes path) = None ->
  fault w (OpGetDownloadURL path) = None ->
  exists id att att',
    r.1 = Ok att /\
    attachmentRepository.getAttachmentById id r.2 = (Ok (Some att'), r.2) /\
    (forall k, k ≠ "uploadedAt" -> att' !! k = att !! k) /\
    att !! "id" = Some (VStr id) /\
    att !! "uploadedAt" = Some (VDate (clientTime w)) /\
    att' !! "uploadedAt" = Some (VDate (serverTime w)) /\
    storage r.2 !! path = Some file.
Proof.
  intros path r Hup Hurl. subst r.
  rewrite (uploadAttachment_ok w file uploadedBy parentId parentType Hup Hurl).
  fold path.
  set (id := fresh_string "auto" (coll w attachmentRepository.COLLECTION_NAME)).
  set (data := attachmentRepository.attachmentData file uploadedBy parentId parentType
                 (VDate (clientTime w)) (downloadUrl w path)).
  set (d := write_new (serverTime w) (attachment_record data)).
  cbn [fst snd].
  assert (forall k, k ≠ "uploadedAt" -> convertTimestampsToDates d !! k = data !! k)
    as Hinner.
  { intros k Hk. unfold convertTimestampsToDates, d, attachment_record.
    rewrite lookup_fmap, write_new_lookup, lookup_insert_ne by done.
    rewrite convertDates_lookup.
    destruct (data !! k) as [v|] eqn:Hv; [| done].
    destruct (attachmentData_plain _ _ _ _ _ _ _ _ Hk Hv) as [[s ->] | [n ->]]; done. }
  assert (data !! "id" = None) as Hnoid.
  { destruct (data !! "id") as [v|] eqn:Hv; [| done].
    exfalso. revert Hv. unfold data, attachmentRepository.attachmentData.
    repeat (rewrite lookup_insert_ne by done). by rewrite lookup_singleton_ne. }
  exists id, (with_id id data), (with_id id (convertTimestampsToDates d)).
  split; [done |].
  split; [apply getAttachmentById_stored; unfold uploaded; apply coll_put_doc_eq |].
  split.
  { intros k Hk. destruct (decide (k = "id")) as [-> | Hid].
    - by rewrite !with_id_lookup_id, Hinner.
    - rewrite !with_id_lookup_ne by done. by apply Hinner. }
  split; [by rewrite with_id_lookup_id, Hnoid |].
  split.
  { rewrite with_id_lookup_ne by done.
    unfold data, attachmentRepository.attachmentData. by simplify_map_eq. }
  split.
  { rewrite with_id_lookup_ne by done.
    unfold convertTimestampsToDates, d, attachment_record.
    by rewrite lookup_fmap, write_new_lookup, lookup_insert_eq. }
  unfold uploaded. simpl. by rewrite lookup_insert_eq.
Qed.

Lemma uploadAttachment_getAttachmentById_witness :
  let w := Example.world ∅ in
  let r := attachmentRepository.uploadAttachment Example.spec_pdf "u-alice" "p1"
             attachmentRepository.ParentPIR w in
  exists id att att',
    r.1 = Ok att /\
    attachmentRepository.getAttachmentById id r.2 = (Ok (Some att'), r.2) /\
    att !! "uploadedAt" = Some (VDate 1700000000123) /\
    att' !! "uploadedAt" = Some (VDate 1700000000000).
Proof.
  intros w r.
  destruct (uploadAttachment_getAttachmentById w Example.spec_pdf "u-alice" "p1"
              attachmentRepository.ParentPIR)
    as (id & att & att' & H1 & H2 & _ & _ & H3 & H4 & _); [done | done |].
  exists id, att, att'.
  split; [exact H1 |]. split; [exact H2 |]. split; [exact H3 | exact H4].
Defined.

(** X18: [uploadAttachment] and [deleteAttachment] write to the attachments
    collection only, whatever the outcome: no PIR, question or answer is
    changed, so the parent's [attachmentIds] neither gains the id of an
    upload nor loses the id of a deleted attachment. *)
Theorem attachment_writes_confined (w : World) (file : File)
    (uploadedBy parentId id c : string) (parentType : attachmentRepository.ParentType) :
  c ≠ attachmentRepository.COLLECTION_NAME ->
  coll (attachmentRepository.uploadAttachment file uploadedBy parentId parentType w).2 c
    = coll w c /\
  coll (attachmentRepository.deleteAttachment id w).2 c = coll w c.
Proof.
  intros Hc. split.
  - set (path := attachmentRepository.filePath (clientTime w) file parentId parentType).
    destruct (fault w (OpUploadBytes path)) as [e|] eqn:Hup;
      [| destruct (fault w (OpGetDownloadURL path)) as [e|] eqn:Hurl].
    + unfold attachmentRepository.uploadAttachment, try_catch.
      run_bind ltac:(reflexivity). fold path.
      run_throw ltac:(by apply uploadBytes_fails). done.
    + unfold attachmentRepository.uploadAttachment, try_catch.
      run_bind ltac:(reflexivity). fold path.
      run_bind ltac:(by apply uploadBytes_ok).
      run_throw ltac:(by apply getDownloadURL_fails). done.
    + rewrite (uploadAttachment_ok w file uploadedBy parentId parentType Hup Hurl).
      unfold uploaded. cbn [snd]. by rewrite coll_put_doc_other.
  - destruct (coll w attachmentRepository.COLLECTION_NAME !! id) as [d|] eqn:Hd.
    + rewrite (deleteAttachment_stored id d w Hd). cbn [snd].
      rewrite coll_remove_doc_other by done.
      unfold after_blob_delete. by destruct (fault w _).
    + by rewrite (deleteAttachment_absent id w Hd).
Qed.

Lemma attachment_writes_confined_witness :
  let w := Example.world
             {[ "pirs" := {[ "p1" := <["attachmentIds" := VArr ["a1"]]> (Example.pir DRAFT) ]};
                "attachments" := {[ "a1" := Example.stored_attachment ]} ]} in
  let r := attachmentRepository.deleteAttachment "a1" w in
  coll r.2 "pirs" = coll w "pirs" /\
  coll w "pirs" !! "p1" = Some (<["attachmentIds" := VArr ["a1"]]> (Example.pir DRAFT)).
Proof.
  intros w r. split; [| compute_eq].
  by apply (attachment_writes_confined w Example.spec_pdf "u-alice" "p1" "a1" "pirs"
              attachmentRepository.ParentPIR).
Defined.

(** ** The user slice, further *)

Lemma coll_with_app (f : AppState -> AppState) (w : World) (c : string) :
  coll (with_app f w) c = coll w c.
Proof. reflexivity. Qed.

Lemma loadUserData_existing (w : World) (firebaseUser : FirebaseUser) (userData : Obj) :
  authCurrentUser w = Some firebaseUser ->
  coll w "users" !! uid firebaseUser = Some userData ->
  userSlice.loadUserData w =
    (Ok tt,
     with_app (set_user (Some userData) true false)
       (with_app (set_loading_authError true None) w)).
Proof.
  intros Hauth Hdoc. unfold userSlice.loadUserData.
  run_bind ltac:(unfold gets; by rewrite Hauth).
  run_bind ltac:(reflexivity).
  unfold try_catch.
  run_bind ltac:(unfold getDoc, gets; simpl;
                 change (coll (with_app _ w) "users") with (coll w "users");
                 by rewrite Hdoc).
  reflexivity.
Qed.

Lemma loadUserData_signed_out (w : World) :
  authCurrentUser w = None ->
  userSlice.loadUserData w = (Ok tt, with_app (set_user None false false) w).
Proof.
  intros Hauth. unfold userSlice.loadUserData.
  run_bind ltac:(unfold gets; by rewrite Hauth).
  reflexivity.
Qed.

(** X19: [loadUserData] never throws and never overwrites a user document.
    Signed out, it clears the current user and writes nothing.  For a user
    whose document exists it writes nothing either, and the document as
    stored, its role included, becomes the current user. *)
Theorem loadUserData_keeps_documents (w : World) :
  let r := userSlice.loadUserData w in
  r.1 = Ok tt /\
  (forall id d, coll w "users" !! id = Some d -> coll r.2 "users" !! id = Some d) /\
  match authCurrentUser w with
  | None =>
      db r.2 = db w /\ trace r.2 = trace w /\
      currentUser (app r.2) = None /\ isAuthenticated (app r.2) = false
  | Some firebaseUser =>
      match coll w "users" !! uid firebaseUser with
      | Some userData =>
          db r.2 = db w /\ trace r.2 = trace w /\
          currentUser (app r.2) = Some userData /\ isAuthenticated (app r.2) = true
      | None =>
          coll r.2 "users" = <[uid firebaseUser := defaultUserData firebaseUser]> (coll w "users")
      end
  end.
Proof.
  intros r. subst r.
  destruct (authCurrentUser w) as [fu|] eqn:Hauth.
  - destruct (coll w "users" !! uid fu) as [d|] eqn:Hdoc.
    + by rewrite (loadUserData_existing w fu d Hauth Hdoc).
    + rewrite (loadUserData_creates w fu Hauth Hdoc). cbn [fst snd].
      split; [done |]. split.
      * intros id d Hd. rewrite coll_with_app, coll_put_doc.
        rewrite lookup_insert_ne; [done |]. intros <-. congruence.
      * by rewrite coll_with_app, coll_put_doc.
  - by rewrite (loadUserData_signed_out w Hauth).
Qed.

Lemma loadUserData_keeps_documents_witness :
  let fu := {| uid := "u-rita"; fb_email := None; fb_displayName := None |} in
  let w := userSlice.with_authCurrentUser (fun _ => Some fu)
             (Example.world {[ "users" := Example.users ]}) in
  let r := userSlice.loadUserData w in
  r.1 = Ok tt /\ coll r.2 "users" !! "u-rita" = Some Example.rita.
Proof.
  intros fu w r.
  destruct (loadUserData_keeps_documents w) as (H1 & H2 & _).
  split; [exact H1 |]. apply H2. compute_eq.
Defined.

Lemma updateUserProfile_no_user_run (profileFault : option JsError) (updates : Obj)
    (w : World) :
  currentUser (app w) = None ->
  userSlice.updateUserProfile profileFault updates w =
    (Throw userSlice.no_authenticated_user,
     with_app (set_loading_authError false
                 (Some (message userSlice.no_authenticated_user))) w).
Proof.
  intros Hu. unfold userSlice.updateUserProfile.
  run_bind ltac:(unfold gets; by rewrite Hu).
  run_bind ltac:(reflexivity).
  reflexivity.
Qed.

(** Without a current user [updateUserProfile] throws "No
    authenticated user found", records that message as the authentication
    error and writes nothing. *)
Lemma updateUserProfile_no_user (w : World) (profileFault : option JsError)
    (updates : Obj) :
  currentUser (app w) = None ->
  let r := userSlice.updateUserProfile profileFault updates w in
  r.1 = Throw userSlice.no_authenticated_user /\
  db r.2 = db w /\ trace r.2 = trace w /\
  authError (app r.2) = Some "No authenticated user found" /\
  isLoading (app r.2) = false /\
  currentUser (app r.2) = None.
Proof.
  intros Hu r. subst r. rewrite (updateUserProfile_no_user_run _ _ w Hu).
  cbn. by rewrite Hu.
Qed.

Lemma updateUserProfile_ok (w : World) (updates u d : Obj) (id : string)
    (profileFault : option JsError) :
  currentUser (app w) = Some u ->
  field u "id" = Some (VStr id) ->
  id ≠ EmptyString ->
  coll w "users" !! id = Some d ->
  has_undefined updates = false ->
  truthy (field updates "displayName") && bool_decide (is_Some (authCurrentUser w)) = false ->
  userSlice.updateUserProfile profileFault updates w =
    (Ok tt,
     with_app (userSlice.set_currentUser_loading (Some (updates ∪ u)) false)
       (put_doc "users" id (write_merge (serverTime w) d updates)
          (with_trace (fun t => t ++ [EvUpdateDoc "users" id])
             (with_app (set_loading_authError true None) w)))).
Proof.
  intros Hu Hid Hne Hd Hdef Hname. unfold userSlice.updateUserProfile.
  run_bind ltac:(unfold gets; by rewrite Hu).
  run_bind ltac:(reflexivity).
  unfold try_catch. rewrite Hid.
  assert (String.eqb id EmptyString = false) as ->.
  { by apply String.eqb_neq. }
  run_bind ltac:(by apply updateDoc_ok).
  run_bind ltac:(reflexivity).
  cbn [authCurrentUser put_doc with_db with_trace with_app].
  rewrite Hname.
  run_bind ltac:(reflexivity).
  reflexivity.
Qed.

(** X20: [updateUserProfile] applies the update as given to the user's
    document and to the current user in the store: every named field takes
    its new value in both, and the other fields are kept.  No field is
    excluded; the role is updated like any other. *)
Theorem updateUserProfile_merges (w : World) (updates u d : Obj) (id : string)
    (profileFault : option JsError) :
  currentUser (app w) = Some u ->
  field u "id" = Some (VStr id) ->
  id ≠ EmptyString ->
  coll w "users" !! id = Some d ->
  has_undefined updates = false ->
  truthy (field updates "displayName") && bool_decide (is_Some (authCurrentUser w)) = false ->
  let r := userSlice.updateUserProfile profileFault updates w in
  r.1 = Ok tt /\
  exists d' u',
    coll r.2 "users" = <[id := d']> (coll w "users") /\
    currentUser (app r.2) = Some u' /\
    (forall k v, updates !! k = Some v ->
       d' !! k = Some (resolve (serverTime w) (d !! k) v) /\ u' !! k = Some v) /\
    (forall k, updates !! k = None -> d' !! k = d !! k /\ u' !! k = u !! k) /\
    authError (app r.2) = None /\ isLoading (app r.2) = false.
Proof.
  intros Hu Hid Hne Hd Hdef Hname r. subst r.
  rewrite (updateUserProfile_ok w updates u d id profileFault Hu Hid Hne Hd Hdef Hname).
  cbn [fst snd]. split; [done |].
  exists (write_merge (serverTime w) d updates), (updates ∪ u).
  split; [by rewrite coll_with_app, coll_put_doc |]. split; [done |].
  split.
  { intros k v Hk. rewrite write_merge_lookup, Hk. split; [done |].
    by apply lookup_union_Some_l. }
  split; [| done].
  intros k Hk. rewrite write_merge_lookup, Hk. split; [done |].
  by rewrite lookup_union_r.
Qed.

Lemma updateUserProfile_merges_witness :
  let w := with_app (set_user (Some Example.alice) true false)
             (Example.world {[ "users" := Example.users ]}) in
  let r := userSlice.updateUserProfile None {[ "role" := VStr "admin" ]} w in
  r.1 = Ok tt /\
  exists d' u',
    coll r.2 "users" = <[ "u-alice" := d' ]> (coll w "users") /\
    currentUser (app r.2) = Some u' /\
    d' !! "role" = Some (VStr "admin") /\
    u' !! "role" = Some (VStr "admin") /\
    d' !! "email" = Some (VStr "u-alice@stacksio.test").
Proof.
  intros w r.
  destruct (updateUserProfile_merges w {[ "role" := VStr "admin" ]} Example.alice
              Example.alice "u-alice" None)
    as (H1 & d' & u' & H2 & H3 & H4 & H5 & _);
    [reflexivity | compute_eq | done | compute_eq | literal_defined | reflexivity |].
  split; [exact H1 |]. exists d', u'.
  split; [exact H2 |]. split; [exact H3 |].
  destruct (H4 "role" (VStr "admin")) as [H6 H7]; [apply lookup_singleton_eq |].
  destruct (H5 "email") as [H8 _]; [by apply lookup_singleton_ne |].
  split; [rewrite H6; compute_eq |]. split; [exact H7 |].
  rewrite H8. compute_eq.
Defined.

Lemma coll_with_console (f : list LogEntry -> list LogEntry) (w : World) (c : string) :
  coll (with_console f w) c = coll w c.
Proof. reflexivity. Qed.

Lemma updateUserProfile_provider_fails_run (w : World) (updates u d : Obj) (id : string)
    (e : JsError) (firebaseUser : FirebaseUser) :
  currentUser (app w) = Some u ->
  field u "id" = Some (VStr id) ->
  id ≠ EmptyString ->
  coll w "users" !! id = Some d ->
  has_undefined updates = false ->
  truthy (field updates "displayName") = true ->
  authCurrentUser w = Some firebaseUser ->
  userSlice.updateUserProfile (Some e) updates w =
    (Throw e,
     with_app (set_loading_authError false (Some (message e)))
       (with_console (fun c => c ++
          [{| level := LogError; text := "Error updating profile:"; detail := Some e |}])
          (put_doc "users" id (write_merge (serverTime w) d updates)
             (with_trace (fun t => t ++ [EvUpdateDoc "users" id])
                (with_app (set_loading_authError true None) w))))).
Proof.
  intros Hu Hid Hne Hd Hdef Hname Hauth.
  unfold userSlice.updateUserProfile.
  run_bind ltac:(unfold gets; by rewrite Hu).
  run_bind ltac:(reflexivity).
  unfold try_catch. rewrite Hid.
  assert (String.eqb id EmptyString = false) as ->.
  { by apply String.eqb_neq. }
  run_bind ltac:(by apply updateDoc_ok).
  run_bind ltac:(reflexivity).
  cbn [authCurrentUser put_doc with_db with_trace with_app].
  rewrite Hname, Hauth.
  rewrite bool_decide_eq_true_2 by by eexists.
  cbn [andb].
  run_throw ltac:(reflexivity).
  reflexivity.
Qed.

(** X21: when the identity provider refuses the new display name,
    [updateUserProfile] throws the provider's error after the user's document
    has been updated: the document carries the update while the current user
    in the store does not, and the error's message becomes the
    authentication error. *)
Theorem updateUserProfile_provider_fails (w : World) (updates u d : Obj) (id : string)
    (e : JsError) (firebaseUser : FirebaseUser) :
  currentUser (app w) = Some u ->
  field u "id" = Some (VStr id) ->
  id ≠ EmptyString ->
  coll w "users" !! id = Some d ->
  has_undefined updates = false ->
  truthy (field updates "displayName") = true ->
  authCurrentUser w = Some firebaseUser ->
  let r := userSlice.updateUserProfile (Some e) updates w in
  r.1 = Throw e /\
  coll r.2 "users" = <[id := write_merge (serverTime w) d updates]> (coll w "users") /\
  currentUser (app r.2) = Some u /\
  authCurrentUser r.2 = Some firebaseUser /\
  authError (app r.2) = Some (message e) /\
  isLoading (app r.2) = false.
Proof.
  intros Hu Hid Hne Hd Hdef Hname Hauth r. subst r.
  rewrite (updateUserProfile_provider_fails_run w updates u d id e firebaseUser
             Hu Hid Hne Hd Hdef Hname Hauth).
  cbn [fst snd].
  split; [done |].
  split; [by rewrite coll_with_app, coll_with_console, coll_put_doc |].
  done.
Qed.

Lemma updateUserProfile_provider_fails_witness :
  let fu := {| uid := "u-alice"; fb_email := None; fb_displayName := None |} in
  let w := userSlice.with_authCurrentUser (fun _ => Some fu)
             (with_app (set_user (Some Example.alice) true false)
                (Example.world {[ "users" := Example.users ]})) in
  let r := userSlice.updateUserProfile (Some (Error "auth/network-request-failed"))
             {[ "displayName" := VStr "Alice B." ]} w in
  r.1 = Throw (Error "auth/network-request-failed") /\
  currentUser (app r.2) = Some Example.alice /\
  authError (app r.2) = Some "auth/network-request-failed".
Proof.
  intros fu w r.
  destruct (updateUserProfile_provider_fails w {[ "displayName" := VStr "Alice B." ]}
              Example.alice Example.alice "u-alice"
              (Error "auth/network-request-failed") fu)
    as (H1 & _ & H2 & _ & H3 & _);
    [reflexivity | compute_eq | done | compute_eq | literal_defined | reflexivity
    | reflexivity |].
  split; [exact H1 |]. split; [exact H2 | exact H3].
Defined.

(** ** The list of PIRs *)

Lemma role_case_Some (v : option Value) (r : UserRole) :
  v = Some (role_val r) -> PIRList.role_case v = Some r.
Proof. intros ->. by destruct r. Qed.

Lemma role_case_None (v : option Value) :
  (forall r, v ≠ Some (role_val r)) -> PIRList.role_case v = None.
Proof.
  intros H. unfold PIRList.role_case, strict_eq. cbn [List.find].
  by rewrite !bool_decide_eq_false_2 by apply H.
Qed.

(** What the list shows, without a limit, depends on the role alone. *)
Lemma filteredPIRs_role_filter (pirs : list Obj) (u p : Obj) :
  (field u "role" = Some (role_val REQUESTER) ->
   (p ∈ PIRList.filteredPIRs pirs (Some u) None <->
    p ∈ pirs /\ field p "requesterId" = field u "id")) /\
  (field u "role" = Some (role_val RESPONDER) ->
   (p ∈ PIRList.filteredPIRs pirs (Some u) None <->
    p ∈ pirs /\ field p "assignedResponderId" = field u "id")) /\
  (field u "role" = Some (role_val REVIEWER) ->
   (p ∈ PIRList.filteredPIRs pirs (Some u) None <->
    p ∈ pirs /\ (field p "reviewerId" = field u "id" \/ Spec.has_status p SUBMITTED))) /\
  (field u "role" = Some (role_val ADMIN) ->
   PIRList.filteredPIRs pirs (Some u) None = pirs) /\
  ((forall r, field u "role" ≠ Some (role_val r)) ->
   PIRList.filteredPIRs pirs (Some u) None = pirs) /\
  PIRList.filteredPIRs pirs None None = pirs.
Proof.
  unfold PIRList.filteredPIRs.
  split; [| split; [| split; [| split; [| split]]]].
  - intros Hr. rewrite (role_case_Some _ _ Hr), elem_of_List_filter.
    by rewrite strict_eq_true.
  - intros Hr. rewrite (role_case_Some _ _ Hr), elem_of_List_filter.
    by rewrite strict_eq_true.
  - intros Hr. rewrite (role_case_Some _ _ Hr), elem_of_List_filter.
    by rewrite orb_true_iff, strict_eq_true, is_status_true.
  - intros Hr. by rewrite (role_case_Some _ _ Hr).
  - intros Hr. by rewrite (role_case_None _ Hr).
  - done.
Qed.

(** The limit of the list. *)
Lemma filteredPIRs_limit_take (pirs : list Obj) (currentUser : option Obj) (n : Z) :
  let all := PIRList.filteredPIRs pirs currentUser None in
  let shown := PIRList.filteredPIRs pirs currentUser (Some n) in
  (0 < n -> shown = take (Z.to_nat n) all /\ Z.of_nat (length shown) <= n) /\
  (n = 0 -> shown = all) /\
  (n < 0 -> shown = take (length all - Z.to_nat (- n)) all).
Proof.
  intros all shown. subst all shown. unfold PIRList.filteredPIRs.
  match goal with
  | |- context [if _ && (_ <? Z.of_nat (length ?l)) then _ else _] => set (result := l)
  end.
  split; [| split].
  - intros Hn. destruct (Z.eqb_spec n 0) as [-> | _]; [lia |]. cbn [negb andb].
    destruct (Z.ltb_spec n (Z.of_nat (length result))) as [Hlt | Hge].
    + unfold PIRList.slice0. destruct (Z.ltb_spec n 0) as [? | _]; [lia |].
      split; [done |]. rewrite length_take. lia.
    + rewrite take_ge by lia. split; [done | lia].
  - intros ->. done.
  - intros Hn. destruct (Z.eqb_spec n 0) as [-> | _]; [lia |]. cbn [negb andb].
    destruct (Z.ltb_spec n (Z.of_nat (length result))) as [_ | ?]; [| lia].
    unfold PIRList.slice0. destruct (Z.ltb_spec n 0) as [_ | ?]; [| lia].
    f_equal. lia.
Qed.

(** X22: what the list shows.  Without a limit it depends on the role
    alone: a requester sees exactly the PIRs they requested, a responder
    exactly those assigned to them, a reviewer exactly those they review
    together with every Submitted one; an administrator sees all, and so does
    a visitor who is not signed in or whose role is none of the four.  A
    positive limit shows the first so many of these, in their order, and
    never more; the limit 0 is no limit; a negative limit is taken from the
    end, as [slice] does. *)
Theorem filteredPIRs_shown (pirs : list Obj) (u p : Obj) (currentUser : option Obj)
    (n : Z) :
  ((field u "role" = Some (role_val REQUESTER) ->
    (p ∈ PIRList.filteredPIRs pirs (Some u) None <->
     p ∈ pirs /\ field p "requesterId" = field u "id")) /\
   (field u "role" = Some (role_val RESPONDER) ->
    (p ∈ PIRList.filteredPIRs pirs (Some u) None <->
     p ∈ pirs /\ field p "assignedResponderId" = field u "id")) /\
   (field u "role" = Some (role_val REVIEWER) ->
    (p ∈ PIRList.filteredPIRs pirs (Some u) None <->
     p ∈ pirs /\ (field p "reviewerId" = field u "id" \/ Spec.has_status p SUBMITTED))) /\
   (field u "role" = Some (role_val ADMIN) ->
    PIRList.filteredPIRs pirs (Some u) None = pirs) /\
   ((forall r, field u "role" ≠ Some (role_val r)) ->
    PIRList.filteredPIRs pirs (Some u) None = pirs) /\
   PIRList.filteredPIRs pirs None None = pirs) /\
  (let all := PIRList.filteredPIRs pirs currentUser None in
   let shown := PIRList.filteredPIRs pirs currentUser (Some n) in
   (0 < n -> shown = take (Z.to_nat n) all /\ Z.of_nat (length shown) <= n) /\
   (n = 0 -> shown = all) /\
   (n < 0 -> shown = take (length all - Z.to_nat (- n)) all)).
Proof. split; [apply filteredPIRs_role_filter | apply filteredPIRs_limit_take]. Qed.

Lemma filteredPIRs_shown_witness :
  let mine := with_id "p1" (Example.pir DRAFT) in
  let other := with_id "p2" (<["requesterId" := VStr "u-zoe"]> (Example.pir SUBMITTED)) in
  mine ∈ PIRList.filteredPIRs [mine; other] (Some Example.alice) None /\
  (other ∉ PIRList.filteredPIRs [mine; other] (Some Example.alice) None) /\
  other ∈ PIRList.filteredPIRs [mine; other] (Some Example.rita) None /\
  PIRList.filteredPIRs [mine; other] (Some Example.ada) (Some 1) =
    take 1 (PIRList.filteredPIRs [mine; other] (Some Example.ada) None).
Proof.
  intros mine other.
  destruct (filteredPIRs_shown [mine; other] Example.alice mine (Some Example.ada) 1)
    as ((H1 & _) & ([H4 _] & _)); [lia |].
  destruct (filteredPIRs_shown [mine; other] Example.alice other None 0)
    as ((H2 & _) & _).
  destruct (filteredPIRs_shown [mine; other] Example.rita other None 0)
    as ((_ & _ & H3 & _) & _).
  split; [| split; [| split]].
  - apply H1; [compute_eq |]. split; [apply list_elem_of_here | compute_eq].
  - intros Hin. apply H2 in Hin as [_ Hin]; [| compute_eq].
    revert Hin. apply (bool_decide_unpack _). vm_compute. exact I.
  - apply H3; [compute_eq |]. split.
    + apply list_elem_of_further, list_elem_of_here.
    + right. unfold Spec.has_status. compute_eq.
  - exact H4.
Defined.

(** ** The PIR form *)

Lemma tags_of_Some (formData : Obj) (xs : list string) :
  PIRForm.tags_of formData = Some xs -> formData !! "tags" = Some (VArr xs).
Proof.
  unfold PIRForm.tags_of, field.
  destruct (formData !! "tags") as [[]|]; try done. by intros [= ->].
Qed.

Lemma tags_of_insert (formData : Obj) (xs : list string) :
  PIRForm.tags_of (<["tags" := VArr xs]> formData) = Some xs.
Proof. unfold PIRForm.tags_of, field. by rewrite lookup_insert_eq. Qed.

Lemma filter_ne_absent (xs : list string) (tag : string) :
  tag ∉ xs -> filter (fun t => t ≠ tag) xs = xs.
Proof.
  intros Hx. induction xs as [| y xs IH]; [done |].
  rewrite not_elem_of_cons in Hx. destruct Hx as [Hne Hx].
  rewrite filter_cons_True by done. by rewrite IH.
Qed.

(** X23: the tags of the form stay free of duplicates.  [addTag] appends
    the selected tag unless it is empty or already there, and then clears the
    selection; [removeTag] removes the tag; and removing a tag that was just
    added gives back the form data as they were. *)
Theorem PIRForm_tags (st : PIRForm.FormState) (xs : list string) :
  PIRForm.tags_of (PIRForm.formData st) = Some xs ->
  NoDup xs ->
  let tag := PIRForm.selectedTag st in
  let st' := PIRForm.addTag st in
  exists xs',
    PIRForm.tags_of (PIRForm.formData st') = Some xs' /\
    NoDup xs' /\
    xs' = (if decide (tag = EmptyString \/ tag ∈ xs) then xs else xs ++ [tag]) /\
    (tag ≠ EmptyString -> tag ∈ xs' /\ (tag ∉ xs -> PIRForm.selectedTag st' = EmptyString)) /\
    (forall t, PIRForm.tags_of (PIRForm.formData (PIRForm.removeTag t st')) =
                 Some (filter (fun x => x ≠ t) xs')) /\
    (tag ∉ xs -> PIRForm.formData (PIRForm.removeTag tag st') = PIRForm.formData st).
Proof.
  intros Hxs Hnd tag st'. subst tag st'. unfold PIRForm.addTag. rewrite Hxs.
  pose proof (tags_of_Some _ _ Hxs) as Hlook.
  assert (forall st0 ys t, PIRForm.tags_of (PIRForm.formData st0) = Some ys ->
            PIRForm.tags_of (PIRForm.formData (PIRForm.removeTag t st0)) =
              Some (filter (fun x => x ≠ t) ys)) as Hrem.
  { intros st0 ys t Hys. unfold PIRForm.removeTag. cbn [PIRForm.formData].
    rewrite Hys. apply tags_of_insert. }
  destruct (String.eqb_spec (PIRForm.selectedTag st) EmptyString) as [Hempty | Hne].
  - cbn [negb andb]. exists xs.
    split; [done |]. split; [done |].
    split; [rewrite decide_True; [done | by left] |].
    split; [done |].
    split; [intros t; by apply Hrem |].
    intros Hnotin. unfold PIRForm.removeTag. cbn [PIRForm.formData]. rewrite Hxs.
    rewrite filter_ne_absent by done. by apply insert_id.
  - cbn [negb andb].
    destruct (bool_decide_reflect (PIRForm.selectedTag st ∈ xs)) as [Hin | Hnotin].
    + cbn [negb]. exists xs.
      split; [done |]. split; [done |].
      split; [rewrite decide_True; [done | by right] |].
      split; [done |].
      split; [intros t; by apply Hrem |]. done.
    + cbn [negb default PIRForm.formData PIRForm.selectedTag].
      exists (xs ++ [PIRForm.selectedTag st]).
      split; [apply tags_of_insert |].
      split.
      { apply NoDup_app. split; [done |]. split; [| apply NoDup_singleton].
        intros x Hx Hx'. apply list_elem_of_singleton in Hx'. by subst x. }
      split; [rewrite decide_False; [done | by intros [? | ?]] |].
      split.
      { intros _. split; [| done]. apply elem_of_app. right. apply list_elem_of_here. }
      split; [intros t; apply Hrem; apply tags_of_insert |].
      intros _. unfold PIRForm.removeTag. cbn [PIRForm.formData].
      rewrite tags_of_insert, filter_app, filter_ne_absent by done.
      rewrite filter_cons_False by (intros H; by apply H).
      rewrite filter_nil, app_nil_r, insert_insert_eq. by apply insert_id.
Qed.

Lemma PIRForm_tags_witness :
  let st := {| PIRForm.formData := {[ "tags" := VArr ["rohs"] ]};
               PIRForm.selectedTag := "reach"; PIRForm.isSubmitting := false;
               PIRForm.formError := None; PIRForm.navigatedTo := None |} in
  PIRForm.tags_of (PIRForm.formData (PIRForm.addTag st)) = Some ["rohs"; "reach"] /\
  PIRForm.formData (PIRForm.removeTag "reach" (PIRForm.addTag st)) = PIRForm.formData st.
Proof.
  intros st.
  assert ("reach" ∉ ["rohs"]) as Hnotin.
  { rewrite elem_of_cons, elem_of_nil. by intros [? | []]. }
  destruct (PIRForm_tags st ["rohs"]) as (xs' & H1 & _ & H2 & _ & _ & H3);
    [reflexivity | apply NoDup_singleton |].
  split; [| by apply H3].
  rewrite H1, H2. rewrite decide_False; [done |].
  intros [? | ?]; done.
Defined.

Lemma try_catch_total {A : Type} (m : M A) (h : JsError -> M A) (w : World) :
  (forall e w1, exists a w2, h e w1 = (Ok a, w2)) ->
  exists a w', try_catch m h w = (Ok a, w').
Proof.
  intros Hh. unfold try_catch. destruct (m w) as [[a|e] w1]; [by eexists _, _ |].
  apply Hh.
Qed.

Lemma form_incomplete (formData : Obj) :
  negb (truthy (field formData "title")) || negb (truthy (field formData "description")) ||
  negb (truthy (field formData "productName")) ||
  negb (truthy (field formData "productCategory")) = negb (form_complete formData).
Proof.
  unfold form_complete.
  by destruct (truthy (field formData "title")), (truthy (field formData "description")),
    (truthy (field formData "productName")), (truthy (field formData "productCategory")).
Qed.

(** X24: [handleSubmit] never throws: whatever goes wrong ends in the
    form's error.  Without a signed-in user, or while one of title,
    description, product name and product category is empty, it only sets
    that error: nothing is written, the store is untouched and the form does
    not navigate. *)
Theorem handleSubmit_validation (w : World) (mode : PIRForm.Mode) (id : option string)
    (st : PIRForm.FormState) :
  let r := PIRForm.handleSubmit mode id st w in
  (exists st', r.1 = Ok st') /\
  (currentUser (app w) = None ->
   r = (Ok (PIRForm.set_formError (Some "You must be logged in to submit a PIR") st), w)) /\
  (is_Some (currentUser (app w)) -> form_complete (PIRForm.formData st) = false ->
   r = (Ok (PIRForm.set_formError (Some "Please fill in all required fields") st), w)).
Proof.
  intros r. subst r. unfold PIRForm.handleSubmit.
  run_bind ltac:(reflexivity).
  destruct (currentUser (app w)) as [u|].
  - rewrite form_incomplete.
    destruct (form_complete (PIRForm.formData st)).
    + cbn [negb]. split; [| split; [done | by intros _ ?]].
      match goal with
      | |- context [(try_catch ?m ?h ≫= _) w] =>
          destruct (try_catch_total m h w) as (a & w' & Hrun);
            [intros; by eexists _, _ |]
      end.
      run_bind ltac:(exact Hrun). by eexists.
    + cbn [negb]. split; [by eexists |]. split; [done |]. done.
  - split; [by eexists |]. split; [done |]. by intros [? ?].
Qed.

Lemma handleSubmit_validation_witness :
  let st := {| PIRForm.formData := {[ "title" := VStr "Battery data sheet" ]};
               PIRForm.selectedTag := EmptyString; PIRForm.isSubmitting := false;
               PIRForm.formError := None; PIRForm.navigatedTo := None |} in
  let w := with_app (set_user (Some Example.alice) true false) (Example.world ∅) in
  PIRForm.handleSubmit PIRForm.create None st w =
    (Ok (PIRForm.set_formError (Some "Please fill in all required fields") st), w).
Proof.
  intros st w.
  destruct (handleSubmit_validation w PIRForm.create None st) as (_ & _ & H).
  apply H; [by eexists | reflexivity].
Defined.

Lemma newPIR_defined (formData u : Obj) (uid uname : string) (ms : Z) :
  field u "id" = Some (VStr uid) ->
  field u "displayName" = Some (VStr uname) ->
  has_undefined formData = false ->
  has_undefined (PIRForm.newPIR formData u (VDate ms)) = false.
Proof.
  intros Hid Hname Hu. unfold PIRForm.newPIR. rewrite Hid, Hname.
  do 3 (apply has_undefined_insert; [by apply or_else_defined |]).
  by do 5 (apply has_undefined_insert; [done |]).
Qed.

Lemma pirSlice_createPIR_ok (pir : Obj) (w : World) :
  has_undefined pir = false ->
  let id := fresh_string "auto" (coll w pirRepository.COLLECTION_NAME) in
  let created := with_id id (pir_defaults pir (VDate (clientTime w))) in
  pirSlice.createPIR pir w =
    (Ok created,
     with_app (fun state => set_pirs (created :: pirs state) (Some created) false state)
       (put_doc pirRepository.COLLECTION_NAME id
          (write_new (serverTime w) (pir_record pir (VDate (clientTime w))))
          (with_trace (fun t => t ++ [EvAddDoc pirRepository.COLLECTION_NAME id])
             (with_app (set_loading_error true None) w)))) /\
  coll w pirRepository.COLLECTION_NAME !! id = None.
Proof.
  intros Hu id created.
  destruct (createPIR_ok pir (with_app (set_loading_error true None) w) Hu)
    as [Hrun Hfresh].
  split; [| exact Hfresh].
  unfold pirSlice.createPIR.
  run_bind ltac:(reflexivity).
  unfold try_catch.
  run_bind ltac:(exact Hrun).
  run_bind ltac:(reflexivity).
  reflexivity.
Qed.

(** X25: a complete form submitted in create mode by a signed-in user
    creates a PIR under a new id, and the form navigates to it.  The stored
    PIR is a Draft requested by the current user, under the user's display
    name, whatever status or requester the form data carried; the timestamps
    are the server's; the new PIR becomes the selected PIR and the first of
    the store's list. *)
Theorem handleSubmit_create_draft (w : World) (id0 : option string)
    (st : PIRForm.FormState) (u : Obj) (uid uname : string) :
  currentUser (app w) = Some u ->
  field u "id" = Some (VStr uid) ->
  field u "displayName" = Some (VStr uname) ->
  form_complete (PIRForm.formData st) = true ->
  has_undefined (PIRForm.formData st) = false ->
  PIRForm.formData st !! "id" = None ->
  let r := PIRForm.handleSubmit PIRForm.create id0 st w in
  exists id st' d' created,
    coll w pirRepository.COLLECTION_NAME !! id = None /\
    r.1 = Ok st' /\
    PIRForm.navigatedTo st' = Some ("/pirs/" +:+ id) /\
    PIRForm.formError st' = None /\
    PIRForm.isSubmitting st' = false /\
    coll r.2 pirRepository.COLLECTION_NAME =
      <[id := d']> (coll w pirRepository.COLLECTION_NAME) /\
    d' !! "status" = Some (status_val DRAFT) /\
    d' !! "requesterId" = Some (VStr uid) /\
    d' !! "requesterName" = Some (VStr uname) /\
    d' !! "createdAt" = Some (VTimestamp (serverTime w)) /\
    d' !! "title" = resolve (serverTime w) None <$> PIRForm.formData st !! "title" /\
    selectedPIR (app r.2) = Some created /\
    pirs (app r.2) = created :: pirs (app w) /\
    created !! "id" = Some (VStr id) /\
    created !! "status" = Some (status_val DRAFT).
Proof.
  intros Hu Hid Hname Hcomplete Hdef Hnoid r. subst r.
  unfold PIRForm.handleSubmit.
  run_bind ltac:(unfold gets; by rewrite Hu).
  rewrite form_incomplete, Hcomplete. cbn [negb].
  set (now := VDate (clientTime w)).
  set (pir := PIRForm.newPIR (PIRForm.formData st) u now).
  destruct (pirSlice_createPIR_ok pir w) as [Hrun Hfresh];
    [by eapply newPIR_defined |].
  set (id := fresh_string "auto" (coll w pirRepository.COLLECTION_NAME)) in *.
  set (created := with_id id (pir_defaults pir (VDate (clientTime w)))) in *.
  assert (pir !! "id" = None) as Hpirid.
  { unfold pir, PIRForm.newPIR. by rewrite !lookup_insert_ne by done. }
  assert (created !! "id" = Some (VStr id)) as Hcreated.
  { unfold created. rewrite with_id_lookup_id. unfold pir_defaults.
    rewrite !lookup_insert_ne by done. by rewrite Hpirid. }
  assert (forall k, k ∉ list_fields <->
            k ≠ "tags" /\ k ≠ "attachmentIds" /\ k ≠ "questionIds") as Hlf.
  { intros k. unfold list_fields. rewrite !not_elem_of_cons. split.
    - intros (? & ? & ? & _). done.
    - intros (? & ? & ?). repeat split; try done. apply not_elem_of_nil. }
  unfold try_catch.
  run_bind ltac:(
    run_bind ltac:(reflexivity);
    fold now; fold pir;
    run_bind ltac:(exact Hrun);
    reflexivity).
  fold created. unfold field at 1. rewrite Hcreated. cbn [template].
  unfold mret, M_ret.
  exists id. eexists. exists (write_new (serverTime w) (pir_record pir now)), created.
  cbn [fst snd].
  split; [exact Hfresh |]. split; [reflexivity |].
  split; [done |]. split; [done |]. split; [done |].
  split; [by rewrite coll_with_app, coll_put_doc |].
  split.
  { rewrite write_new_lookup, pir_record_lookup by (done || by apply Hlf).
    unfold pir, PIRForm.newPIR. rewrite !lookup_insert_ne by done.
    by rewrite lookup_insert_eq. }
  split.
  { rewrite write_new_lookup, pir_record_lookup by (done || by apply Hlf).
    unfold pir, PIRForm.newPIR. rewrite !lookup_insert_ne by done.
    by rewrite lookup_insert_eq, Hid. }
  split.
  { rewrite write_new_lookup, pir_record_lookup by (done || by apply Hlf).
    unfold pir, PIRForm.newPIR. rewrite !lookup_insert_ne by done.
    by rewrite lookup_insert_eq, Hname. }
  split.
  { rewrite write_new_lookup. unfold pir_record.
    rewrite lookup_insert_ne by done. by rewrite lookup_insert_eq. }
  split.
  { rewrite write_new_lookup, pir_record_lookup by (done || by apply Hlf).
    unfold pir, PIRForm.newPIR. rewrite !lookup_insert_ne by done.
    destruct (PIRForm.formData st !! "title") as [v|]; [| done].
    cbn [fmap option_fmap option_map]. by rewrite resolve_convertDates. }
  split; [done |]. split; [done |]. split; [exact Hcreated |].
  unfold created. rewrite with_id_lookup_ne by done. unfold pir_defaults.
  rewrite !lookup_insert_ne by done.
  unfold pir, PIRForm.newPIR. rewrite !lookup_insert_ne by done.
  by rewrite lookup_insert_eq.
Qed.

Lemma handleSubmit_create_draft_witness :
  let st := {| PIRForm.formData :=
                 {[ "title" := VStr "Battery data sheet";
                    "description" := VStr "Chemistry and capacity";
                    "productName" := VStr "Cell 18650";
                    "productCategory" := VStr "Batteries";
                    "status" := VStr "accepted";
                    "requesterId" := VStr "u-zoe" ]};
               PIRForm.selectedTag := EmptyString; PIRForm.isSubmitting := false;
               PIRForm.formError := None; PIRForm.navigatedTo := None |} in
  let w := with_app (set_user (Some Example.bob) true false) (Example.world ∅) in
  let r := PIRForm.handleSubmit PIRForm.create None st w in
  exists id st' d',
    r.1 = Ok st' /\
    PIRForm.navigatedTo st' = Some ("/pirs/" +:+ id) /\
    coll r.2 "pirs" = <[id := d']> (coll w "pirs") /\
    d' !! "status" = Some (VStr "draft") /\
    d' !! "requesterId" = Some (VStr "u-bob").
Proof.
  intros st w r.
  destruct (handleSubmit_create_draft w None st Example.bob "u-bob" "Bob")
    as (id & st' & d' & created & _ & H1 & H2 & _ & _ & H3 & H4 & H5 & _);
    [reflexivity | compute_eq | compute_eq | reflexivity | literal_defined | compute_eq |].
  exists id, st', d'.
  split; [exact H1 |]. split; [exact H2 |]. split; [exact H3 |].
  split; [exact H4 | exact H5].
Defined.

(** ** The notification triggers, further *)

Lemma adminDocData_ok (c s : string) (w : World) :
  s ≠ EmptyString ->
  functionsIndex.adminDocData c (Some (VStr s)) w = (Ok (coll w c !! s), w).
Proof.
  intros Hs. unfold functionsIndex.adminDocData.
  by rewrite (proj2 (String.eqb_neq _ _) Hs).
Qed.

Lemma adminDocData_throws (c : string) (id : option Value) (w : World) :
  (forall s, id = Some (VStr s) -> s = EmptyString) ->
  functionsIndex.adminDocData c id w = (Throw functionsIndex.invalid_document_path, w).
Proof.
  intros Hid. unfold functionsIndex.adminDocData.
  destruct id as [[s| | | | | | | | | |]|]; try done.
  by rewrite (Hid s eq_refl).
Qed.

Lemma at_most_one_mail_refl (w : World) : at_most_one_mail w w.
Proof. split; [done | by left]. Qed.

Lemma at_most_one_mail_console (f : list LogEntry -> list LogEntry) (w w' : World) :
  at_most_one_mail w w' -> at_most_one_mail w (with_console f w').
Proof. done. Qed.

Lemma mail_pir_title (pirId : option Value) (pirData : Obj) :
  field (functionsIndex.mail_pir pirId pirData) "title" = field pirData "title".
Proof.
  unfold functionsIndex.mail_pir, field.
  rewrite lookup_insert_ne by done. rewrite lookup_insert_eq.
  by destruct (pirData !! "title") as [[]|].
Qed.

Lemma sendNewQuestionEmail_run (pir : Obj) (toEmail : option Value) (w : World) :
  let subject := "[Stacksio] New Question Added to PIR: " +:+ template (field pir "title") in
  let w1 := with_trace (fun t => t ++ [EvSendMail [toEmail] subject]) w in
  emailNotifications.sendNewQuestionEmail pir toEmail w =
    match fault w (OpSendMail [toEmail]) with
    | Some e =>
        (Throw e,
         with_console (fun c => c ++
           [{| level := LogError; text := "Error sending new question email:";
               detail := Some e |}]) w1)
    | None =>
        (Ok tt,
         with_console (fun c => c ++
           [{| level := LogInfo;
               text := "New question email sent to " +:+ template toEmail;
               detail := None |}]) w1)
    end.
Proof.
  intros subject w1. unfold emailNotifications.sendNewQuestionEmail, try_catch.
  run_bind ltac:(reflexivity).
  unfold mbind at 1, M_bind, external. cbn [fault with_trace].
  by destruct (fault w (OpSendMail [toEmail])).
Qed.

Lemma sendNewAnswerEmail_run (pir : Obj) (toEmail : option Value) (w : World) :
  let subject := "[Stacksio] New Answer for PIR: " +:+ template (field pir "title") in
  let w1 := with_trace (fun t => t ++ [EvSendMail [toEmail] subject]) w in
  emailNotifications.sendNewAnswerEmail pir toEmail w =
    match fault w (OpSendMail [toEmail]) with
    | Some e =>
        (Throw e,
         with_console (fun c => c ++
           [{| level := LogError; text := "Error sending new answer email:";
               detail := Some e |}]) w1)
    | None =>
        (Ok tt,
         with_console (fun c => c ++
           [{| level := LogInfo;
               text := "New answer email sent to " +:+ template toEmail;
               detail := None |}]) w1)
    end.
Proof.
  intros subject w1. unfold emailNotifications.sendNewAnswerEmail, try_catch.
  run_bind ltac:(reflexivity).
  unfold mbind at 1, M_bind, external. cbn [fault with_trace].
  by destruct (fault w (OpSendMail [toEmail])).
Qed.

(** Run a lookup of the admin SDK, whose outcome leaves the world alone. *)
Ltac admin_lookup c id w x :=
  let H := fresh "Hw" in
  let w1 := fresh "w" in
  pose proof (adminDocData_trace c id w) as H;
  unfold mbind at 1; unfold M_bind;
  destruct (functionsIndex.adminDocData c id w) as [[x | ?] w1];
  cbn [snd] in H; subst w1.

Lemma toDate_world (v : option Value) (w : World) : (functionsIndex.toDate v w).2 = w.
Proof. by destruct v as [[]|]. Qed.

Lemma caught_total (m : M unit) (s : string) (w : World) :
  (forall res w1, m w = (res, w1) -> at_most_one_mail w w1) ->
  let r := try_catch m (fun error => console_log LogError s (Some error)) w in
  r.1 = Ok tt /\ at_most_one_mail w r.2.
Proof.
  intros Hm r. subst r. unfold try_catch.
  destruct (m w) as [[[]|e] w1] eqn:Hrun.
  - split; [done |]. by eapply Hm.
  - split; [done |]. apply at_most_one_mail_console. by eapply Hm.
Qed.

Lemma mailed_question (pir : Obj) (toEmail : option Value) (w : World) (res : Result unit)
    (w1 : World) :
  emailNotifications.sendNewQuestionEmail pir toEmail w = (res, w1) ->
  at_most_one_mail w w1.
Proof.
  rewrite sendNewQuestionEmail_run.
  destruct (fault w (OpSendMail [toEmail])); intros [= <- <-];
    (split; [done | right; by eexists _, _]).
Qed.

Lemma mailed_answer (pir : Obj) (toEmail : option Value) (w : World) (res : Result unit)
    (w1 : World) :
  emailNotifications.sendNewAnswerEmail pir toEmail w = (res, w1) ->
  at_most_one_mail w w1.
Proof.
  rewrite sendNewAnswerEmail_run.
  destruct (fault w (OpSendMail [toEmail])); intros [= <- <-];
    (split; [done | right; by eexists _, _]).
Qed.

Ltac no_mail :=
  intros [= <- <-];
  first [apply at_most_one_mail_refl
        | apply at_most_one_mail_console, at_most_one_mail_refl].

(** X26: the triggers for a new question and for a new answer never fail
    and never write: whatever the new document holds, whatever is stored and
    however the mail transport answers, each of them returns normally, leaves
    the database as it was, and hands at most one mail, to a single
    recipient, to the transport. *)
Theorem question_answer_triggers_total (w : World) (data : Obj) (docId : string) :
  let r := functionsIndex.onNewQuestion data docId w in
  let r' := functionsIndex.onNewAnswer data docId w in
  (r.1 = Ok tt /\ at_most_one_mail w r.2) /\
  (r'.1 = Ok tt /\ at_most_one_mail w r'.2).
Proof.
  intros r r'. subst r r'. split.
  - apply caught_total. intros res w1.
    admin_lookup "pirs" (field data "pirId") w pirData;
      [| no_mail].
    destruct pirData as [pirData|];
      [| no_mail].
    unfold mbind at 1. unfold M_bind.
    destruct (truthy (field pirData "assignedResponderId")).
    + admin_lookup "users" (field pirData "assignedResponderId") w responder;
        [| no_mail].
      cbn [mret M_ret].
      destruct (truthy (functionsIndex.email_of responder));
        [| no_mail].
      pose proof (toDate_world (field data "createdAt") w) as Hd.
      unfold mbind at 1. unfold M_bind.
      destruct (functionsIndex.toDate (field data "createdAt") w) as [[d|e] w2];
        cbn [snd] in Hd; subst w2;
        [| no_mail].
      apply mailed_question.
    + cbn [mret M_ret truthy]. no_mail.
  - apply caught_total. intros res w1.
    admin_lookup "pirs" (field data "pirId") w pirData;
      [| no_mail].
    destruct pirData as [pirData|];
      [| no_mail].
    admin_lookup "questions" (field data "questionId") w questionData;
      [| no_mail].
    destruct questionData as [questionData|];
      [| no_mail].
    admin_lookup "users" (field pirData "requesterId") w requester;
      [| no_mail].
    destruct (truthy (functionsIndex.email_of requester));
      [| no_mail].
    pose proof (toDate_world (field data "createdAt") w) as Hd.
    unfold mbind at 1. unfold M_bind.
    destruct (functionsIndex.toDate (field data "createdAt") w) as [[d|e] w2];
      cbn [snd] in Hd; subst w2;
      [| no_mail].
    apply mailed_answer.
Qed.

(** X27: for a new question under a stored PIR, [onNewQuestion] writes to
    the PIR's assigned responder and to nobody else: one mail, addressed to
    the responder's email, with the PIR's title in the subject.  When the
    PIR has no assigned responder it does nothing at all. *)
Theorem onNewQuestion_notifies_responder (w : World) (questionData pirData : Obj)
    (questionId pirId : string) :
  field questionData "pirId" = Some (VStr pirId) ->
  pirId ≠ EmptyString ->
  coll w "pirs" !! pirId = Some pirData ->
  let r := functionsIndex.onNewQuestion questionData questionId w in
  (truthy (field pirData "assignedResponderId") = false -> r = (Ok tt, w)) /\
  (forall (rid email : string) (responder : Obj) (ms : Z),
     field pirData "assignedResponderId" = Some (VStr rid) ->
     rid ≠ EmptyString ->
     coll w "users" !! rid = Some responder ->
     field responder "email" = Some (VStr email) ->
     email ≠ EmptyString ->
     field questionData "createdAt" = Some (VTimestamp ms) ->
     r.1 = Ok tt /\
     db r.2 = db w /\
     trace r.2 = trace w ++ [EvSendMail [Some (VStr email)] (question_subject pirData)]).
Proof.
  intros Hpir Hne Hstored r. subst r.
  unfold functionsIndex.onNewQuestion, try_catch. rewrite Hpir.
  run_bind ltac:(by apply adminDocData_ok). rewrite Hstored.
  split.
  - intros ->. reflexivity.
  - intros rid email responder ms Hrid Hridne Hresp Hemail Hemailne Hcreated.
    rewrite Hrid. cbn [truthy]. rewrite (proj2 (String.eqb_neq _ _) Hridne). cbn [negb].
    run_bind ltac:(run_bind ltac:(by apply adminDocData_ok); reflexivity).
    rewrite Hresp. cbn [functionsIndex.email_of]. rewrite Hemail. cbn [truthy].
    rewrite (proj2 (String.eqb_neq _ _) Hemailne). cbn [negb].
    rewrite Hcreated.
    run_bind ltac:(reflexivity).
    rewrite sendNewQuestionEmail_run, mail_pir_title.
    fold (question_subject pirData).
    by destruct (fault w (OpSendMail [Some (VStr email)])).
Qed.

Lemma onNewQuestion_notifies_responder_witness :
  let w := Example.world
             {[ "users" := Example.users;
                "pirs" := {[ "p1" := Example.submitted_pir REQUESTED ]} ]} in
  let question := <["createdAt" := VTimestamp 1700000000100]> Example.battery_question in
  trace (functionsIndex.onNewQuestion question "q1" w).2 =
    [EvSendMail [Some (VStr "u-bob@stacksio.test")]
       "[Stacksio] New Question Added to PIR: Battery data sheet"].
Proof.
  intros w question.
  destruct (onNewQuestion_notifies_responder w question (Example.submitted_pir REQUESTED)
              "q1" "p1") as [_ H]; [compute_eq | done | compute_eq |].
  destruct (H "u-bob" "u-bob@stacksio.test" Example.bob 1700000000100)
    as (_ & _ & H3); [compute_eq | done | compute_eq | compute_eq | done | compute_eq |].
  rewrite H3. reflexivity.
Defined.

(** X28: for a new answer under a stored PIR, [onNewAnswer] writes to the
    PIR's requester and to nobody else: one mail, addressed to the requester's
    email, with the PIR's title in the subject.  When the answered question is
    not stored it only logs that and sends nothing. *)
Theorem onNewAnswer_notifies_requester (w : World) (answerData pirData : Obj)
    (answerId pirId questionId : string) :
  field answerData "pirId" = Some (VStr pirId) ->
  pirId ≠ EmptyString ->
  coll w "pirs" !! pirId = Some pirData ->
  field answerData "questionId" = Some (VStr questionId) ->
  questionId ≠ EmptyString ->
  let r := functionsIndex.onNewAnswer answerData answerId w in
  (coll w "questions" !! questionId = None ->
   r.1 = Ok tt /\ db r.2 = db w /\ trace r.2 = trace w /\
   console r.2 = console w ++
     [{| level := LogInfo; text := "Question not found for answer: " +:+ answerId;
         detail := None |}]) /\
  (forall (qid email : string) (requester : Obj) (ms : Z),
     is_Some (coll w "questions" !! questionId) ->
     field pirData "requesterId" = Some (VStr qid) ->
     qid ≠ EmptyString ->
     coll w "users" !! qid = Some requester ->
     field requester "email" = Some (VStr email) ->
     email ≠ EmptyString ->
     field answerData "createdAt" = Some (VTimestamp ms) ->
     r.1 = Ok tt /\
     db r.2 = db w /\
     trace r.2 = trace w ++ [EvSendMail [Some (VStr email)] (answer_subject pirData)]).
Proof.
  intros Hpir Hne Hstored Hq Hqne r. subst r.
  unfold functionsIndex.onNewAnswer, try_catch. rewrite Hpir, Hq.
  run_bind ltac:(by apply adminDocData_ok). rewrite Hstored.
  run_bind ltac:(by apply adminDocData_ok).
  split.
  - intros ->. done.
  - intros qid email requester ms [questionData ->] Hqid Hqidne Hreq Hemail Hemailne
      Hcreated.
    rewrite Hqid.
    run_bind ltac:(by apply adminDocData_ok).
    rewrite Hreq. cbn [functionsIndex.email_of]. rewrite Hemail. cbn [truthy].
    rewrite (proj2 (String.eqb_neq _ _) Hemailne). cbn [negb].
    rewrite Hcreated.
    run_bind ltac:(reflexivity).
    rewrite sendNewAnswerEmail_run, mail_pir_title.
    fold (answer_subject pirData).
    by destruct (fault w (OpSendMail [Some (VStr email)])).
Qed.

Lemma onNewAnswer_notifies_requester_witness :
  let w := Example.world
             {[ "users" := Example.users;
                "pirs" := {[ "p1" := Example.submitted_pir REQUESTED ]};
                "questions" := {[ "q1" := Example.battery_question ]} ]} in
  let answer : Obj :=
    {[ "pirId" := VStr "p1"; "questionId" := VStr "q1"; "text" := VStr "Li-ion";
       "responderName" := VStr "Bob"; "createdAt" := VTimestamp 1700000000200 ]} in
  trace (functionsIndex.onNewAnswer answer "a1" w).2 =
    [EvSendMail [Some (VStr "u-alice@stacksio.test")]
       "[Stacksio] New Answer for PIR: Battery data sheet"].
Proof.
  intros w answer.
  destruct (onNewAnswer_notifies_requester w answer (Example.submitted_pir REQUESTED)
              "a1" "p1" "q1") as [_ H];
    [compute_eq | done | compute_eq | compute_eq | done |].
  destruct (H "u-alice" "u-alice@stacksio.test" Example.alice 1700000000200)
    as (_ & _ & H3);
    [compute_eq | compute_eq | done | compute_eq | compute_eq | done | compute_eq |].
  rewrite H3. reflexivity.
Defined.

Lemma sendPIRStatusUpdateEmail_cons (status : PIRStatus) (pir : Obj)
    (to : option Value) (rest : list (option Value)) (w : World) :
  let subject := emailNotifications.status_subject status (field pir "title") in
  let w1 := with_trace (fun t => t ++ [EvSendMail (to :: rest) subject]) w in
  emailNotifications.sendPIRStatusUpdateEmail status pir (to :: rest) w =
    match fault w (OpSendMail (to :: rest)) with
    | Some e =>
        (Throw e,
         with_console (fun c => c ++
           [{| level := LogError; text := "Error sending PIR status update email:";
               detail := Some e |}]) w1)
    | None =>
        (Ok tt,
         with_console (fun c => c ++
           [{| level := LogInfo;
               text := "PIR status update email sent to "
                         +:+ emailNotifications.join_emails (to :: rest);
               detail := None |}]) w1)
    end.
Proof.
  intros subject w1. unfold emailNotifications.sendPIRStatusUpdateEmail, try_catch.
  run_bind ltac:(reflexivity).
  unfold mbind at 1, M_bind, external. cbn [fault with_trace].
  by destruct (fault w (OpSendMail (to :: rest))).
Qed.

Lemma sendPIRStatusUpdateEmail_run (status : PIRStatus) (pir : Obj)
    (toEmails : list (option Value)) (w : World) :
  let r := emailNotifications.sendPIRStatusUpdateEmail status pir toEmails w in
  db r.2 = db w /\
  trace r.2 = trace w ++
    match toEmails with
    | [] => []
    | _ => [EvSendMail toEmails (emailNotifications.status_subject status (field pir "title"))]
    end.
Proof.
  intros r. subst r. destruct toEmails as [| to rest].
  { cbn. by rewrite app_nil_r. }
  rewrite sendPIRStatusUpdateEmail_cons.
  by destruct (fault w (OpSendMail (to :: rest))).
Qed.

Lemma status_case_Some (s : PIRStatus) :
  functionsIndex.status_case (Some (status_val s)) = Some s.
Proof. by destruct s. Qed.

Lemma optional_lookup (v : option Value) (w : World) :
  id_or_absent v ->
  (if truthy v then functionsIndex.adminDocData "users" v else mret None) w =
    (Ok (if truthy v then coll w "users" !! template v else None), w).
Proof.
  intros [-> | [s ->]]; [done |].
  cbn [truthy template]. destruct (String.eqb_spec s EmptyString) as [-> | Hs]; [done |].
  cbn [negb]. by apply adminDocData_ok.
Qed.

(** X29: when a PIR becomes Reviewed, Accepted or Rejected,
    [onPIRStatusChange] returns normally, writes nothing and sends one mail,
    to the requester and the assigned responder, as far as they have an email
    address; the reviewer and the administrators are not among the
    recipients.  When neither has one, no mail is sent. *)
Theorem onPIRStatusChange_decision (w : World) (beforeData afterData : Obj)
    (pirId qid : string) (s : PIRStatus) :
  field beforeData "status" ≠ field afterData "status" ->
  field afterData "status" = Some (status_val s) ->
  s = REVIEWED \/ s = ACCEPTED \/ s = REJECTED ->
  field afterData "requesterId" = Some (VStr qid) ->
  qid ≠ EmptyString ->
  id_or_absent (field afterData "assignedResponderId") ->
  id_or_absent (field afterData "reviewerId") ->
  let r := functionsIndex.onPIRStatusChange beforeData afterData pirId w in
  let to := decision_recipients w afterData in
  r.1 = Ok tt /\
  db r.2 = db w /\
  trace r.2 = trace w ++
    match to with
    | [] => []
    | _ => [EvSendMail to (emailNotifications.status_subject s (field afterData "title"))]
    end.
Proof.
  intros Hchanged Hs Hdecision Hreq Hqid Hresp Hrev r to. subst r to.
  unfold functionsIndex.onPIRStatusChange.
  unfold strict_eq. rewrite bool_decide_eq_false_2 by done.
  rewrite Hreq.
  run_bind ltac:(by apply adminDocData_ok).
  run_bind ltac:(by apply optional_lookup).
  run_bind ltac:(by apply optional_lookup).
  run_bind ltac:(reflexivity).
  rewrite Hs, status_case_Some.
  unfold decision_recipients. rewrite Hreq. cbn [template].
  destruct (truthy (field afterData "assignedResponderId")).
  all: set (recipients := functionsIndex.filter_Boolean _).
  all:
  match goal with
  | |- context [try_catch ?m ?h _] =>
      assert (exists pir,
        field pir "title" = field afterData "title" /\
        m = emailNotifications.sendPIRStatusUpdateEmail s pir recipients)
        as (pir & Htitle & ->)
  end.
  1, 3: (eexists; split; [| by destruct Hdecision as [-> | [-> | ->]]];
    unfold field; rewrite lookup_insert_ne by done; rewrite lookup_insert_eq;
    by destruct (afterData !! "title") as [[]|]).
  all: unfold try_catch.
  all: match goal with
       | |- context [emailNotifications.sendPIRStatusUpdateEmail ?s0 ?p0 ?r0 ?w0] =>
           destruct (sendPIRStatusUpdateEmail_run s0 p0 r0 w0) as [Hdb Htrace];
           rewrite Htitle in Htrace;
           destruct (emailNotifications.sendPIRStatusUpdateEmail s0 p0 r0 w0)
             as [[[]|e] w1]; cbn [fst snd] in *
       end.
  all: (split; [done |]; split; [exact Hdb | exact Htrace]).
Qed.

Lemma onPIRStatusChange_decision_witness :
  let w := Example.world {[ "users" := Example.users ]} in
  let r := functionsIndex.onPIRStatusChange
             (Example.submitted_pir REVIEWED) (Example.submitted_pir ACCEPTED) "p1" w in
  r.1 = Ok tt /\
  trace r.2 =
    [EvSendMail [Some (VStr "u-alice@stacksio.test"); Some (VStr "u-bob@stacksio.test")]
       "[Stacksio] PIR Accepted: Battery data sheet"].
Proof.
  intros w r.
  destruct (onPIRStatusChange_decision w (Example.submitted_pir REVIEWED)
              (Example.submitted_pir ACCEPTED) "p1" "u-alice" ACCEPTED)
    as (H1 & _ & H2);
    [apply (bool_decide_unpack _); vm_compute; exact I | compute_eq | by right; left
    | compute_eq | done | right; exists "u-bob"; compute_eq
    | right; exists "u-rita"; compute_eq |].
  split; [exact H1 |]. etransitivity; [exact H2 | reflexivity].
Defined.

(** X30: [onPIRStatusChange] does nothing when the status did not change.
    When it did, and the PIR's [requesterId] is not a non-empty string, the
    trigger fails with the error of the first lookup: that lookup is made
    before the [try], so the error is not caught, nothing is logged and no
    mail is sent. *)
Theorem onPIRStatusChange_skip_or_fail (w : World) (beforeData afterData : Obj)
    (pirId : string) :
  let r := functionsIndex.onPIRStatusChange beforeData afterData pirId w in
  (field beforeData "status" = field afterData "status" -> r = (Ok tt, w)) /\
  (field beforeData "status" ≠ field afterData "status" ->
   (forall s, field afterData "requesterId" = Some (VStr s) -> s = EmptyString) ->
   r = (Throw functionsIndex.invalid_document_path, w)).
Proof.
  intros r. subst r. unfold functionsIndex.onPIRStatusChange, strict_eq. split.
  - intros H. by rewrite bool_decide_eq_true_2.
  - intros H Hreq. rewrite bool_decide_eq_false_2 by done.
    by run_throw ltac:(by apply adminDocData_throws).
Qed.

Lemma onPIRStatusChange_skip_or_fail_witness :
  let w := Example.world {[ "users" := Example.users ]} in
  functionsIndex.onPIRStatusChange (Example.pir DRAFT)
    (delete "requesterId" (Example.pir REQUESTED)) "p1" w =
    (Throw functionsIndex.invalid_document_path, w).
Proof.
  intros w.
  destruct (onPIRStatusChange_skip_or_fail w (Example.pir DRAFT)
              (delete "requesterId" (Example.pir REQUESTED)) "p1") as [_ H].
  apply H.
  - apply (bool_decide_unpack _). vm_compute. exact I.
  - intros s Hs. exfalso. revert Hs. unfold field. by rewrite lookup_delete_eq.
Defined.
